(** * electron-forge: import, package, the zip maker and the Linux config resolver

    A shallow embedding of the orchestration code of electron-forge
    ([src/api/import.js], [src/api/package.js], [src/makers/generic/zip.js]
    and the desktop-Linux configuration resolver) together with the
    properties its specification states about it.

    JavaScript values are a first-order datatype, objects and arrays are
    ordered property lists (arrays are objects whose keys are decimal
    indices, as in the language), paths are strings handled the way
    Node's POSIX [path] module handles them, and asynchronous effectful
    code is a state-and-exception monad over an explicit world. *)

From Stdlib Require Import List String Ascii ZArith Bool Lia DecimalString.
Import ListNotations.
Open Scope string_scope.

(* ================================================================== *)
(** ** JavaScript values *)

Module JS.

(** Functions are opaque: only their identity matters to the code under
    study. *)
#[local] Unset Elimination Schemes.
Inductive value : Type :=
| VUndefined
| VNull
| VBool (b : bool)
| VNum (n : Z)
| VStr (s : string)
| VFun (name : string)
| VArr (props : list (string * value))
| VObj (props : list (string * value)).
#[local] Set Elimination Schemes.

Definition props : Type := list (string * value).

(** Key of the [n]-th element of an array. *)
Definition index_key (n : nat) : string :=
  NilEmpty.string_of_uint (Nat.to_uint n).

Fixpoint index_from (n : nat) (l : list value) : props :=
  match l with
  | [] => []
  | v :: l' => (index_key n, v) :: index_from (S n) l'
  end.

(** The array literal [[v0, v1, ...]]. *)
Definition array (l : list value) : value := VArr (index_from 0 l).

(** [key in o] *)
Fixpoint has (k : string) (o : props) : bool :=
  match o with
  | [] => false
  | (k', _) :: o' => if String.eqb k k' then true else has k o'
  end.

(** [o[key]] on the property list of an object *)
Fixpoint get (k : string) (o : props) : value :=
  match o with
  | [] => VUndefined
  | (k', v) :: o' => if String.eqb k k' then v else get k o'
  end.

(** [o[key] = v]: an existing property keeps its place, a new one goes
    last (property order is insertion order). *)
Fixpoint set (k : string) (v : value) (o : props) : props :=
  match o with
  | [] => [(k, v)]
  | (k', v') :: o' =>
      if String.eqb k k' then (k, v) :: o' else (k', v') :: set k v o'
  end.

(** [delete o[key]] *)
Fixpoint delete (k : string) (o : props) : props :=
  match o with
  | [] => []
  | (k', v') :: o' =>
      if String.eqb k k' then delete k o' else (k', v') :: delete k o'
  end.

(** [Object.keys(o)] *)
Definition keys (o : props) : list string := map fst o.

(** Own enumerable properties of a value used as a source object. *)
Definition own_props (v : value) : props :=
  match v with
  | VObj o => o
  | VArr o => o
  | VStr s =>
      index_from 0 (map (fun c => VStr (String c "")) (list_ascii_of_string s))
  | _ => []
  end.

(** [v.key] for a value that is not [undefined] or [null]. *)
Definition field (k : string) (v : value) : value := get k (own_props v).

(** ToBoolean *)
Definition truthy (v : value) : bool :=
  match v with
  | VUndefined | VNull => false
  | VBool b => b
  | VNum n => negb (Z.eqb n 0)
  | VStr s => negb (String.eqb s "")
  | VFun _ | VArr _ | VObj _ => true
  end.

(** [a || b] *)
Definition or_else (a b : value) : value := if truthy a then a else b.

(** [typeof v === 'string'] *)
Definition is_string (v : value) : bool :=
  match v with VStr _ => true | _ => false end.

(** [Object.assign(target, ...sources)] on the property list of the
    target. *)
Definition assign1 (target : props) (source : value) : props :=
  fold_left (fun t kv => set (fst kv) (snd kv) t) (own_props source) target.

Definition Object_assign (target : props) (sources : list value) : props :=
  fold_left assign1 sources target.

(** Whether a key is an array index: a decimal numeral without a
    superfluous leading zero. *)
Definition is_digit (c : ascii) : bool :=
  let n := nat_of_ascii c in Nat.leb 48 n && Nat.leb n 57.

Definition is_index (k : string) : bool :=
  match list_ascii_of_string k with
  | [] => false
  | [c] => is_digit c
  | c :: cs => is_digit c && negb (Ascii.eqb c "0"%char) && forallb is_digit cs
  end.

(** What [JSON.parse(JSON.stringify(v))] gives back: properties holding
    [undefined] or a function are dropped from objects and become [null]
    in arrays, and only the elements of an array are written, not the
    named properties it may have been given.  (Arrays met here come out
    of [JSON.parse] or an array literal: their elements are in index
    order, without gaps.) *)
Definition unserialisable (v : value) : bool :=
  match v with VUndefined | VFun _ => true | _ => false end.

Fixpoint jsonify (v : value) : value :=
  match v with
  | VArr o =>
      VArr ((fix elems (o : props) : props :=
               match o with
               | [] => []
               | (k, x) :: o' =>
                   if is_index k then
                     (k, if unserialisable x then VNull else jsonify x) :: elems o'
                   else elems o'
               end) o)
  | VObj o =>
      VObj ((fix members (o : props) : props :=
               match o with
               | [] => []
               | (k, x) :: o' =>
                   if unserialisable x then members o'
                   else (k, jsonify x) :: members o'
               end) o)
  | _ => v
  end.

(** A number is an integer here.  Up to [2^53 - 1] in magnitude the
    integers are numbers of the language exactly, and print as their
    decimal numeral. *)
Definition safe_integer (n : Z) : bool :=
  Z.leb (Z.abs n) 9007199254740991.

(** The string a value turns into inside a template literal.  A
    function prints as its source text, which is identified here with
    its name; a number prints as its decimal numeral, which is what the
    language prints for a [safe_integer]. *)
Fixpoint to_string (v : value) : string :=
  match v with
  | VUndefined => "undefined"
  | VNull => "null"
  | VBool true => "true"
  | VBool false => "false"
  | VNum n => NilZero.string_of_int (Z.to_int n)
  | VStr s => s
  | VFun name => name
  | VArr o =>
      String.concat ","
        ((fix elems (o : list (string * value)) : list string :=
            match o with
            | [] => []
            | (k, x) :: o' =>
                if is_index k then
                  match x with
                  | VUndefined | VNull => "" :: elems o'
                  | _ => to_string x :: elems o'
                  end
                else elems o'
            end) o)
  | VObj _ => "[object Object]"
  end.

(** [s.includes(needle)] *)
Fixpoint includes (needle s : string) : bool :=
  String.prefix needle s
  || match s with
     | String _ s' => includes needle s'
     | "" => false
     end.

(** The number of places at which [needle] occurs in [s]. *)
Fixpoint occurrences (needle s : string) : nat :=
  (if String.prefix needle s then 1 else 0)
  + match s with
    | String _ s' => occurrences needle s'
    | "" => 0
    end.

(** Primitive values whose text in a template literal is the one
    [to_string] gives: [undefined], [null], booleans, strings and the
    safe integers.  (A function prints as its source text, and how an
    object or an array prints depends on the [toString] it has.) *)
Definition printable (v : value) : bool :=
  match v with
  | VNum n => safe_integer n
  | VFun _ | VArr _ | VObj _ => false
  | _ => true
  end.

(** Values that a JSON document can hold: no [undefined] and no
    function at any depth, and arrays with elements only. *)
Fixpoint is_json (v : value) : bool :=
  match v with
  | VUndefined | VFun _ => false
  | VArr o =>
      (fix all (o : list (string * value)) : bool :=
         match o with
         | [] => true
         | (k, x) :: o' => is_index k && is_json x && all o'
         end) o
  | VObj o =>
      (fix all (o : list (string * value)) : bool :=
         match o with
         | [] => true
         | (_, x) :: o' => is_json x && all o'
         end) o
  | _ => true
  end.

(** A double quote, for message texts. *)
Definition dq : string := String "034"%char "".

End JS.
Import JS.

(* ================================================================== *)
(** ** Node's [path] module (POSIX flavour)

    [path.resolve], [path.dirname] and [path.basename] as Node defines
    them for [/]-separated paths.  Normalization works on the segments
    between separators, which is what Node's character loop computes. *)

Module Path.

Definition slash : ascii := "/"%char.

Definition is_slash (c : ascii) : bool := Ascii.eqb c slash.

(** The segments of a path between its separators. *)
Fixpoint split (s : string) : list string :=
  match s with
  | "" => [""]
  | String c s' =>
      if is_slash c then "" :: split s'
      else match split s' with
           | seg :: segs => String c seg :: segs
           | [] => [String c ""]
           end
  end.

(** [path.isAbsolute] *)
Definition isAbsolute (p : string) : bool :=
  match p with
  | String c _ => is_slash c
  | "" => false
  end.

(** One step of [normalizeString]: [stack] is the list of segments kept
    so far, innermost first. *)
Definition push_segment (allowAboveRoot : bool) (stack : list string)
    (seg : string) : list string :=
  if String.eqb seg "" || String.eqb seg "." then stack
  else if String.eqb seg ".." then
    match stack with
    | top :: below =>
        if String.eqb top ".." then seg :: stack else below
    | [] => if allowAboveRoot then [seg] else []
    end
  else seg :: stack.

(** [normalizeString(path, allowAboveRoot)]: resolves [.] and [..]
    segments and drops empty ones. *)
Definition normalizeString (p : string) (allowAboveRoot : bool) : string :=
  String.concat "/" (rev (fold_left (push_segment allowAboveRoot) (split p) [])).

(** The right-to-left loop of [path.resolve]: prepend arguments until
    one of them is absolute; the current directory is used last. *)
Fixpoint resolve_loop (rargs : list string) (cwd : string) (acc : string)
    : string * bool :=
  match rargs with
  | [] =>
      if String.eqb cwd "" then (acc, false)
      else (cwd ++ "/" ++ acc, isAbsolute cwd)
  | p :: rargs' =>
      if String.eqb p "" then resolve_loop rargs' cwd acc
      else if isAbsolute p then (p ++ "/" ++ acc, true)
      else resolve_loop rargs' cwd (p ++ "/" ++ acc)
  end.

(** [path.resolve(...args)] in a process whose working directory is
    [cwd]. *)
Definition resolve (cwd : string) (args : list string) : string :=
  let '(resolvedPath, resolvedAbsolute) := resolve_loop (rev args) cwd "" in
  let normalized := normalizeString resolvedPath (negb resolvedAbsolute) in
  if resolvedAbsolute then "/" ++ normalized
  else if String.eqb normalized "" then "." else normalized.

(** The backwards scan of [path.dirname] over the characters after the
    first one, last character first: trailing separators are skipped,
    then the last segment, and the scan stops on the separator before
    it, returning what lies before that separator. *)
Fixpoint dirname_scan (rchars : list ascii) (matchedSlash : bool)
    : option (list ascii) :=
  match rchars with
  | [] => None
  | c :: rchars' =>
      if is_slash c then
        if matchedSlash then dirname_scan rchars' true else Some rchars'
      else dirname_scan rchars' false
  end.

(** [path.dirname] *)
Definition dirname (p : string) : string :=
  match p with
  | "" => "."
  | String c0 rest =>
      let hasRoot := is_slash c0 in
      match dirname_scan (rev (list_ascii_of_string rest)) true with
      | None => if hasRoot then "/" else "."
      | Some [] => if hasRoot then "//" else String c0 ""
      | Some before => String c0 (string_of_list_ascii (rev before))
      end
  end.

Fixpoint drop_slashes (rchars : list ascii) : list ascii :=
  match rchars with
  | c :: rchars' => if is_slash c then drop_slashes rchars' else rchars
  | [] => []
  end.

Fixpoint take_segment (rchars : list ascii) : list ascii :=
  match rchars with
  | c :: rchars' => if is_slash c then [] else c :: take_segment rchars'
  | [] => []
  end.

(** [path.basename] (without the extension argument) *)
Definition basename (p : string) : string :=
  string_of_list_ascii
    (rev (take_segment (drop_slashes (rev (list_ascii_of_string p))))).

(** *** Normalized absolute paths *)

Definition no_slash (s : string) : bool :=
  forallb (fun c => negb (is_slash c)) (list_ascii_of_string s).

(** A name that can stand between two separators of a normalized
    path. *)
Definition segment (s : string) : bool :=
  no_slash s && negb (String.eqb s "") && negb (String.eqb s ".")
  && negb (String.eqb s "..").

(** The normalized absolute path with the given segments; the root for
    none. *)
Definition absolute (segs : list string) : string :=
  "/" ++ String.concat "/" segs.

End Path.

(* ================================================================== *)
(** ** lodash's [merge]

    The config resolver imports [lodash/merge].  The library is not part
    of this code base; the definitions below follow its algorithm
    (lodash 4: [assignMergeValue], [baseMergeDeep], [baseMerge] and the
    assigner built around them), on values without cycles and without a
    customizer: arrays and plain objects are merged recursively, any
    other value is assigned, and a source value [undefined] is skipped
    when the destination has the key. *)

Module Lodash.

(** [isObject]: arrays, plain objects and functions. *)
Definition isObject (v : value) : bool :=
  match v with
  | VArr _ | VObj _ | VFun _ => true
  | _ => false
  end.

(** [assignMergeValue(object, key, value)]: like an assignment, except
    that [undefined] never replaces an existing property.  (The library
    also skips the assignment when the property already holds the very
    same value, which leaves the object as it is.) *)
Definition assignMergeValue (object : props) (key : string) (v : value)
    : props :=
  match v with
  | VUndefined => if has key object then object else set key v object
  | _ => set key v object
  end.

(** [baseMergeDeep] computes the value stored at [object[key]] when the
    source holds [srcValue] there and the destination [objValue]:
    - an array source is merged into the destination if that is an array
      and into a fresh [[]] otherwise;
    - a plain-object source is merged into the destination if that is an
      array or an object and into a fresh [{}] otherwise;
    - a function replaces the destination.
    The inner loop is [baseMerge] on the properties of the source, in
    order. *)
Fixpoint baseMergeDeep (objValue srcValue : value) {struct srcValue} : value :=
  let baseMerge :=
    fix baseMerge (source object : props) {struct source} : props :=
      match source with
      | [] => object
      | (key, v) :: source' =>
          baseMerge source'
            (assignMergeValue object key
               (if isObject v then baseMergeDeep (get key object) v else v))
      end in
  match srcValue with
  | VArr source =>
      match objValue with
      | VArr object => VArr (baseMerge source object)
      | _ => VArr (baseMerge source [])
      end
  | VObj source =>
      match objValue with
      | VArr object => VArr (baseMerge source object)
      | VObj object => VObj (baseMerge source object)
      | _ => VObj (baseMerge source [])
      end
  | _ => srcValue
  end.

(** [baseMerge(object, source)] on property lists. *)
Fixpoint baseMerge (object source : props) {struct source} : props :=
  match source with
  | [] => object
  | (key, v) :: source' =>
      baseMerge
        (assignMergeValue object key
           (if isObject v then baseMergeDeep (get key object) v else v))
        source'
  end.

(** [merge(object, ...sources)]: falsy sources are skipped. *)
Definition merge (object : props) (sources : list value) : props :=
  fold_left
    (fun o source => if truthy source then baseMerge o (own_props source) else o)
    sources object.

(** *** The shape of a merge

    What a source [h] does to one property of the destination, what a
    source property becomes when the destination lacks it, and sources
    that hold no [undefined]. *)

Definition onto (h : props) (kv : string * value) : string * value :=
  (fst kv,
   if has (fst kv) h then baseMergeDeep (snd kv) (get (fst kv) h) else snd kv).

Definition fresh (kv : string * value) : string * value :=
  (fst kv, baseMergeDeep VUndefined (snd kv)).

Definition defined (o : props) : Prop :=
  forall k v, In (k, v) o -> v <> VUndefined.

End Lodash.

(* ================================================================== *)
(** ** What the specification says a deep merge is *)

Module DeepMergeSpec.

Definition is_mapping (v : value) : bool :=
  match v with VObj _ => true | _ => false end.

(** Section 4.1: mapping values merge recursively key by key, non-mapping
    values are replaced wholesale by the higher-precedence source.  The
    keys of the lower-precedence mapping come first, then the new keys of
    the higher-precedence one. *)
Fixpoint deepMerge (low high : value) {struct low} : value :=
  match low, high with
  | VObj l, VObj h =>
      VObj ((fix common (l' : props) : props :=
               match l' with
               | [] => []
               | (k, lv) :: l'' =>
                   (k, if has k h then deepMerge lv (get k h) else lv)
                   :: common l''
               end) l
            ++ filter (fun kv => negb (has (fst kv) l)) h)
  | _, _ => high
  end.

(** No key occurs twice in a property list. *)
Fixpoint unique_keys (o : props) : bool :=
  match o with
  | [] => true
  | (k, _) :: o' => negb (has k o') && unique_keys o'
  end.

(** Values built from mappings, scalars and functions only: no array
    and no [undefined] at any depth, and no key twice in a mapping. *)
Fixpoint plain (v : value) : bool :=
  match v with
  | VUndefined | VArr _ => false
  | VObj o =>
      unique_keys o
      && (fix all (o' : props) : bool :=
            match o' with
            | [] => true
            | (_, x) :: o'' => plain x && all o''
            end) o
  | _ => true
  end.

End DeepMergeSpec.

(* ================================================================== *)
(** ** The process: file tree, user, effects *)

Module Sys.

(** A file holds text or a JSON document; [Json v] stands for a file
    whose text is the serialisation of [v]. *)
Inductive node : Type :=
| Dir
| Text (s : string)
| Json (v : value).

Definition files : Type := list (string * node).

Inductive exn : Type :=
| Thrown (v : value)               (* [throw v] for a plain value *)
| ErrorObj (message : string)      (* [throw new Error(message)] *)
| TypeError (what : string)
| SyntaxError (path : string)      (* [JSON.parse] on text that is no JSON *)
| IOError (code path : string)     (* a rejected file-system call *)
| ModuleNotFound (request : string)
| Unresolved (names : list string) (* a named hook that was not found *)
| External (what : string).        (* failure inside a collaborator *)

Inductive result (A : Type) : Type :=
| Ok (a : A)
| Err (e : exn).
Arguments Ok {A} a.
Arguments Err {A} e.

(** What the process did, as far as the outside can tell. *)
Inductive event : Type :=
| EConsole (level text : string)
| ESpinner (text : string)
| EPrompt (name message : string)
| EWriteFile (path : string) (content : node)
| ERemove (path : string)
| EMkdirs (path : string)
| EGitInit (dir : string)
| ESpawn (args : list string) (dir : string)
| EInstall (dir : string) (packages : list string) (dev exact : bool)
| EZip (source target : string)
| EHook (name : string)
| EPackager (options : props).

(** An event that changes files. *)
Definition mutates (e : event) : bool :=
  match e with
  | EConsole _ _ | ESpinner _ | EPrompt _ _ => false
  | _ => true
  end.

Record World : Type := {
  tree : files;            (* the file system, keyed by absolute path *)
  user : nat -> value;     (* the answer typed at the n-th prompt *)
  asked : nat;             (* prompts shown so far *)
  trace : list event       (* events so far, latest first *)
}.

Inductive outcome (A : Type) : Type :=
| Ret (a : A)
| Exit (code : Z)          (* [process.exit(code)] *)
| Throw (e : exn).
Arguments Ret {A} a.
Arguments Exit {A} code.
Arguments Throw {A} e.

Definition M (A : Type) : Type := World -> outcome A * World.

Definition ret {A} (a : A) : M A := fun w => (Ret a, w).

Definition bind {A B} (m : M A) (k : A -> M B) : M B :=
  fun w =>
    match m w with
    | (Ret a, w') => k a w'
    | (Exit c, w') => (Exit c, w')
    | (Throw e, w') => (Throw e, w')
    end.

Definition throw {A} (e : exn) : M A := fun w => (Throw e, w).

Definition process_exit {A} (code : Z) : M A := fun w => (Exit code, w).

Definition lift {A} (r : result A) : M A :=
  match r with
  | Ok a => ret a
  | Err e => throw e
  end.

Definition emit (e : event) : M unit :=
  fun w => (Ret tt, {| tree := tree w; user := user w; asked := asked w;
                        trace := e :: trace w |}).

Definition get_tree : M files := fun w => (Ret (tree w), w).

Definition put_tree (t : files) : M unit :=
  fun w => (Ret tt, {| tree := t; user := user w; asked := asked w;
                        trace := trace w |}).

(** One [inquirer] prompt: the answer to the question named [name]. *)
Definition prompt (name message : string) : M value :=
  fun w => (Ret (user w (asked w)),
            {| tree := tree w; user := user w; asked := S (asked w);
               trace := EPrompt name message :: trace w |}).

(** Every event a computation adds to the trace satisfies [P]. *)
Definition emits_only {A} (P : event -> Prop) (m : M A) : Prop :=
  forall w e, In e (trace (snd (m w))) -> In e (trace w) \/ P e.

(** A collaborator outside this code base acts on the file tree and may
    fail. *)
Definition collaborator : Type := files -> result files.

Definition call (e : event) (c : collaborator) : M unit :=
  bind (emit e) (fun _ =>
  bind get_tree (fun t =>
  match c t with
  | Ok t' => put_tree t'
  | Err x => throw x
  end)).

(** *** The file tree *)

Fixpoint lookup (p : string) (t : files) : option node :=
  match t with
  | [] => None
  | (p', n) :: t' => if String.eqb p p' then Some n else lookup p t'
  end.

Fixpoint store (p : string) (n : node) (t : files) : files :=
  match t with
  | [] => [(p, n)]
  | (p', n') :: t' =>
      if String.eqb p p' then (p, n) :: t' else (p', n') :: store p n t'
  end.

Definition is_dir (p : string) (t : files) : bool :=
  match lookup p t with Some Dir => true | _ => false end.

(** [p] itself or something below it. *)
Definition within (p q : string) : bool :=
  String.eqb q p || String.prefix (p ++ "/") q.

Definition prune_path (p : string) (t : files) : files :=
  filter (fun e => negb (within p (fst e))) t.

(** The absolute paths of a normalized absolute path's ancestors and of
    the path itself, outermost first. *)
Fixpoint prefixes (base : string) (segs : list string) : list string :=
  match segs with
  | [] => []
  | seg :: segs' =>
      let here := base ++ "/" ++ seg in here :: prefixes here segs'
  end.

Definition lineage (p : string) : list string :=
  "/" :: prefixes "" (filter (fun seg => negb (String.eqb seg "")) (Path.split p)).

Fixpoint make_dirs (ps : list string) (t : files) : result files :=
  match ps with
  | [] => Ok t
  | p :: ps' =>
      match lookup p t with
      | None => make_dirs ps' (store p Dir t)
      | Some Dir => make_dirs ps' t
      | Some _ => Err (IOError "ENOTDIR" p)
      end
  end.

End Sys.
Import Sys.

Declare Scope proc_scope.
Delimit Scope proc_scope with proc.
Notation "x <- m ;; k" := (bind m (fun x => k))
  (at level 100, m at next level, right associativity) : proc_scope.
Notation "m ;; k" := (bind m (fun _ => k))
  (at level 100, right associativity) : proc_scope.
Open Scope proc_scope.

Declare Scope result_scope.
Delimit Scope result_scope with res.

Module Res.

Definition rbind {A B} (r : result A) (k : A -> result B) : result B :=
  match r with
  | Ok a => k a
  | Err e => Err e
  end.

(** [f] applied to the elements in order, stopping at the first
    failure: what [Array.prototype.map] does with a callback that can
    throw. *)
Fixpoint map_result {A B} (f : A -> result B) (l : list A) : result (list B) :=
  match l with
  | [] => Ok []
  | a :: l' =>
      rbind (f a) (fun b => rbind (map_result f l') (fun bs => Ok (b :: bs)))
  end.

(** [v.key]: reading a property of [undefined] or [null] throws. *)
Definition read_field (k : string) (v : value) : result value :=
  match v with
  | VUndefined | VNull => Err (TypeError ("Cannot read property " ++ k))
  | _ => Ok (field k v)
  end.

(** [v.key = x] in strict-mode code: only objects take properties. *)
Definition set_field (k : string) (x : value) (v : value) : result value :=
  match v with
  | VObj o => Ok (VObj (set k x o))
  | VArr o => Ok (VArr (set k x o))
  | _ => Err (TypeError ("Cannot set property " ++ k))
  end.

(** [delete v[key]] *)
Definition delete_field (k : string) (v : value) : value :=
  match v with
  | VObj o => VObj (delete k o)
  | VArr o => VArr (delete k o)
  | _ => v
  end.

(** [Object.assign(target, ...sources)] for an arbitrary target: [null]
    and [undefined] are rejected, a primitive is boxed and the box, whose
    added properties no later code reads, is the primitive again once
    serialised. *)
Definition Object_assign_value (target : value) (sources : list value)
    : result value :=
  match target with
  | VUndefined | VNull => Err (TypeError "Cannot convert undefined or null to object")
  | VObj o => Ok (VObj (Object_assign o sources))
  | VArr o => Ok (VArr (Object_assign o sources))
  | _ => Ok target
  end.

End Res.
Import Res.

Notation "x <- m ;; k" := (rbind m (fun x => k))
  (at level 100, m at next level, right associativity) : result_scope.

(* ================================================================== *)
(** ** The desktop-Linux config resolver *)

Module ConfigResolver.

(** The two configurations that are merged, each by its own
    properties. *)
Record configs : Type := { shared : props; maker : props }.

Section Populate.

(** [configFn] lives in [./config-fn]; all that is used of it here is
    that it turns a configuration section and an architecture into a
    value. *)
Variable configFn : value -> string -> value.

(** Reading [forgeConfig[configKey]] and [config.options] throws for
    [undefined] and [null], and so does, in the strict-mode code of a
    module, the assignment of [options] to a primitive. *)
Definition populateConfig (forgeConfig : value) (configKey targetArch : string)
    : result value :=
  (section <- read_field configKey forgeConfig ;;
   let config := configFn (or_else section (VObj [])) targetArch in
   options <- read_field "options" config ;;
   set_field "options" (or_else options (VObj [])) config)%res.

Definition populate (forgeConfig : value) (configKey targetArch : string)
    : result configs :=
  (shared <- populateConfig forgeConfig "desktopLinuxConfig" targetArch ;;
   maker <- populateConfig forgeConfig configKey targetArch ;;
   Ok {| shared := own_props shared; maker := own_props maker |})%res.

End Populate.

(** The object literal with the fields injected at run time. *)
Definition runtime (pkgArch dir outPath : string) : value :=
  VObj [("arch", VStr pkgArch);
        ("dest", VStr (Path.dirname outPath));
        ("src", VStr dir)].

(** The default export. *)
Definition resolveConfig (config : configs) (pkgArch dir outPath : string)
    : props :=
  Lodash.merge [] [VObj (shared config); VObj (maker config);
                   runtime pkgArch dir outPath].

End ConfigResolver.

(* ================================================================== *)
(** ** The [fs] calls used by the code *)

Module Fs.

Section WithCwd.

Variable cwd : string.

(** File-system calls take paths relative to the working directory. *)
Definition abs (p : string) : string := Path.resolve cwd [p].

Definition exists_ (p : string) : M bool :=
  t <- get_tree ;;
  ret (match lookup (abs p) t with Some _ => true | None => false end).

Definition readFile (p : string) : M node :=
  t <- get_tree ;;
  match lookup (abs p) t with
  | Some Dir => throw (IOError "EISDIR" p)
  | Some content => ret content
  | None => throw (IOError "ENOENT" p)
  end.

Definition writeFile (p : string) (content : node) : M unit :=
  emit (EWriteFile (abs p) content) ;;
  t <- get_tree ;;
  if negb (is_dir (Path.dirname (abs p)) t) then throw (IOError "ENOENT" p)
  else if is_dir (abs p) t then throw (IOError "EISDIR" p)
  else put_tree (store (abs p) content t).

Definition remove (p : string) : M unit :=
  emit (ERemove (abs p)) ;;
  t <- get_tree ;;
  put_tree (prune_path (abs p) t).

Definition mkdirs (p : string) : M unit :=
  emit (EMkdirs (abs p)) ;;
  t <- get_tree ;;
  t' <- lift (make_dirs (lineage (abs p)) t) ;;
  put_tree t'.

(** [JSON.parse] of the content read from [p]. *)
Definition JSON_parse (p : string) (content : node) : result value :=
  match content with
  | Json v => Ok v
  | _ => Err (SyntaxError p)
  end.

(** Modelled from the spec: [readPackageJSON] ([../util/read-package-json])
    is not among the sources; it reads the manifest, the JSON document
    [package.json] of a directory (sections 3 and 6). *)
Definition readPackageJSON (dir : string) : M value :=
  let p := Path.resolve cwd [dir; "package.json"] in
  content <- readFile p ;;
  lift (JSON_parse p content).

End WithCwd.

(** The text of a file's content, given how JSON documents print. *)
Definition text_of (serialise : value -> string) (content : node) : string :=
  match content with
  | Text s => s
  | Json v => serialise v
  | Dir => ""
  end.

Definition console (level text : string) : M unit := emit (EConsole level text).

(** Modelled from the spec: [asyncOra] ([../util/ora-handler]) is not
    among the sources; a step runs under a progress label and its
    failure propagates (section 4.3, failure semantics). *)
Definition asyncOra (label : string) (step : M unit) : M unit :=
  emit (ESpinner label) ;; step.

End Fs.

(* ================================================================== *)
(** ** [src/api/import.js] *)

Module ImportApi.

Record Options : Type := {
  dir : option string;
  interactive : option bool
}.

(** What the function takes from its surroundings. *)
Record Env : Type := {
  cwd : string;                       (* [process.cwd()] *)
  module_dir : string;                (* [__dirname] *)
  serialise : value -> string;        (* the text of a JSON document *)
  initGit : string -> collaborator;
  installDepList : string -> list string -> bool -> bool -> collaborator;
  yarnOrNPMSpawn : list string -> string -> files -> files;
  hasYarn : bool;
  deps : list string;                 (* from [../init/init-npm] *)
  devDeps : list string
}.

Definition buildToolPackages : props :=
  [("electron-builder", VStr "provides mostly equivalent functionality");
   ("electron-download", VStr "already uses this module as a transitive dependency");
   ("electron-installer-debian", VStr "already uses this module as a transitive dependency");
   ("electron-installer-dmg", VStr "already uses this module as a transitive dependency");
   ("electron-installer-flatpak", VStr "already uses this module as a transitive dependency");
   ("electron-installer-redhat", VStr "already uses this module as a transitive dependency");
   ("electron-osx-sign", VStr "already uses this module as a transitive dependency");
   ("electron-packager", VStr "already uses this module as a transitive dependency");
   ("electron-winstaller", VStr "already uses this module as a transitive dependency")].

(** Members every object literal inherits from [Object.prototype]. *)
Definition inherited : list string :=
  ["constructor"; "toString"; "toLocaleString"; "valueOf"; "hasOwnProperty";
   "isPrototypeOf"; "propertyIsEnumerable"; "__proto__"; "__defineGetter__";
   "__defineSetter__"; "__lookupGetter__"; "__lookupSetter__"].

(** [literal[key]] for an object literal: an own property, or else an
    inherited member. *)
Definition member (key : string) (literal : props) : value :=
  if has key literal then get key literal
  else if existsb (String.eqb key) inherited then VFun ("Object.prototype." ++ key)
  else VUndefined.

Definition is_legacy (key : string) : bool :=
  String.eqb key "electron" || String.eqb key "electron-prebuilt".

(** [delete packageJSON.dependencies[key]; delete packageJSON.devDependencies[key]] *)
Definition drop (key : string) (packageJSON : props) : props :=
  let packageJSON' :=
    set "dependencies" (delete_field key (get "dependencies" packageJSON)) packageJSON in
  set "devDependencies" (delete_field key (get "devDependencies" packageJSON')) packageJSON'.

(** The state of the scan: the manifest and the legacy runtime name seen
    last. *)
Record scan : Type := {
  manifest : props;
  electronName : option string
}.

(** The body of the loop over the dependency names. *)
Definition scan_key (interactive : bool) (st : scan) (key : string) : M scan :=
  if is_legacy key then
    ret {| manifest := drop key (manifest st); electronName := Some key |}
  else if truthy (member key buildToolPackages) then
    let explanation := member key buildToolPackages in
    shouldRemoveDependency <-
      (if negb interactive then ret (VBool true)
       else prompt "shouldRemoveDependency"
              ("Do you want us to remove the " ++ dq ++ key ++ dq
               ++ " dependency in package.json? Electron Forge "
               ++ to_string explanation ++ ".")) ;;
    if truthy shouldRemoveDependency then
      ret {| manifest := drop key (manifest st); electronName := electronName st |}
    else ret st
  else ret st.

Fixpoint scan_keys (interactive : bool) (keys : list string) (st : scan)
    : M scan :=
  match keys with
  | [] => ret st
  | key :: keys' =>
      st' <- scan_key interactive st key ;;
      scan_keys interactive keys' st'
  end.

Section WithEnv.

Variable env : Env.

Let resolve := Path.resolve (cwd env).

Definition writeChanges (dir : string) (packageJSON : value) : M unit :=
  Fs.asyncOra "Writing modified package.json file"
    (Fs.writeFile (cwd env) (resolve [dir; "package.json"])
       (Json (jsonify packageJSON))).

(** Lines 84-119: default the two dependency mappings and scan their
    keys. *)
Definition scanDependencies (interactive : bool) (packageJSON : props) : M scan :=
  let packageJSON :=
    set "dependencies" (or_else (get "dependencies" packageJSON) (VObj [])) packageJSON in
  let packageJSON :=
    set "devDependencies" (or_else (get "devDependencies" packageJSON) (VObj [])) packageJSON in
  let keys :=
    (keys (own_props (get "dependencies" packageJSON))
     ++ keys (own_props (get "devDependencies" packageJSON)))%list in
  scan_keys interactive keys {| manifest := packageJSON; electronName := None |}.


(** Lines 127-132: pin the replacement runtime to the installed version
    of the legacy one. *)
Definition pinElectron (dir : string) (st : scan) : M (value * props) :=
  match electronName st with
  | Some name =>
      electronPackageJSON <-
        Fs.readPackageJSON (cwd env) (resolve [dir; "node_modules"; name]) ;;
      electronVersion <- lift (read_field "version" electronPackageJSON) ;;
      devDependencies <-
        lift (set_field "electron-prebuilt-compile" electronVersion
                (get "devDependencies" (manifest st))) ;;
      ret (electronVersion, set "devDependencies" devDependencies (manifest st))
  | None => ret (VUndefined, manifest st)
  end.

(** Lines 136-161 *)
Definition reinstall (dir : string) (st : scan) (electronVersion : value) : M unit :=
  match electronName st with
  | Some name =>
      Fs.asyncOra "Pruning deleted modules"
        (let args := if hasYarn env then [] else ["prune"] in
         emit (ESpawn args dir) ;;
         t <- get_tree ;;
         put_tree (yarnOrNPMSpawn env args dir t)) ;;
      Fs.asyncOra "Installing dependencies"
        (Fs.remove (cwd env) (resolve [dir; "node_modules/.bin/electron"]) ;;
         Fs.remove (cwd env) (resolve [dir; "node_modules/.bin/electron.cmd"]) ;;
         Fs.remove (cwd env) (resolve [dir; "node_modules"; name]) ;;
         call (EInstall dir (deps env) false false)
           (installDepList env dir (deps env) false false) ;;
         call (EInstall dir (devDeps env) true false)
           (installDepList env dir (devDeps env) true false) ;;
         let pinned := ["electron-prebuilt-compile@" ++ to_string electronVersion] in
         call (EInstall dir pinned false true)
           (installDepList env dir pinned false true))
  | None => ret tt
  end.

(** Lines 171-178 *)
Definition fixGitignore (dir : string) : M unit :=
  Fs.asyncOra "Fixing .gitignore"
    (found <- Fs.exists_ (cwd env) (resolve [dir; ".gitignore"]) ;;
     if found then
       content <- Fs.readFile (cwd env) (resolve [dir; ".gitignore"]) ;;
       let gitignore := Fs.text_of (serialise env) content in
       if negb (includes "out" gitignore) then
         Fs.writeFile (cwd env) (resolve [dir; ".gitignore"])
           (Text (gitignore ++ String "010"%char "out/"))
       else ret tt
     else ret tt).

(** Lines 186-197 *)
Definition portBabelConfig (dir : string) (babelConfig : value) : M unit :=
  Fs.asyncOra "Porting original babel config"
    (let compilePath := resolve [dir; ".compilerc"] in
     found <- Fs.exists_ (cwd env) compilePath ;;
     compileConfig <-
       (if found then
          content <- Fs.readFile (cwd env) compilePath ;;
          lift (Fs.JSON_parse compilePath content)
        else ret (VObj [])) ;;
     merged <-
       lift (Object_assign_value compileConfig
               [VObj [("application/javascript", babelConfig)]]) ;;
     Fs.writeFile (cwd env) compilePath (Json (jsonify merged))).

(** The manifest is used as an object from the first assignment to
    one of its properties on: an object or an array takes properties,
    and keeps being what it is (the second component, which says how
    the properties are put together again); on a primitive the
    assignment throws in the strict-mode code of a module. *)
Definition manifest_object (packageJSON : value) : result (props * (props -> value)) :=
  match packageJSON with
  | VObj o => Ok (o, VObj)
  | VArr o => Ok (o, VArr)
  | _ => Err (TypeError "Cannot create property on a primitive")
  end.

(** The default export.  ([asyncOra.interactive = interactive] only
    changes how progress is displayed.) *)
Definition importProject (providedOptions : Options) : M unit :=
  let dir := match dir providedOptions with Some d => d | None => cwd env end in
  let interactive :=
    match interactive providedOptions with Some b => b | None => false end in
  missing <-
    (dirExists <- Fs.exists_ (cwd env) dir ;;
     if negb dirExists then ret true
     else manifestExists <- Fs.exists_ (cwd env) (resolve [dir; "package.json"]) ;;
          ret (negb manifestExists)) ;;
  (if missing : bool then
     Fs.console "error" ("We couldn't find a project in: " ++ dir) ;;
     process_exit 1
   else ret tt) ;;
  confirm <-
    (if negb interactive then ret (VBool true)
     else prompt "confirm"
            ("WARNING: We will now attempt to import: " ++ dq ++ dir ++ dq
             ++ ".  This will involve modifying some files, are you sure you want to continue?")) ;;
  (if negb (truthy confirm) then process_exit 1 else ret tt) ;;
  call (EGitInit dir) (initGit env dir) ;;
  packageJSON <- Fs.readPackageJSON (cwd env) dir ;;
  config <- lift (read_field "config" packageJSON) ;;
  (if truthy config && truthy (field "forge" config) then
     Fs.console "warn"
       ("It looks like this project is already configured for " ++ dq
        ++ "electron-forge" ++ dq) ;;
     shouldContinue <-
       (if negb interactive then ret (VBool true)
        else prompt "shouldContinue" "Are you sure you want to continue?") ;;
     if negb (truthy shouldContinue) then process_exit 0 else ret tt
   else ret tt) ;;
  shouldChangeMain <-
    (if interactive then
       prompt "shouldChangeMain"
         ("Do you want us to change the " ++ dq ++ "main" ++ dq
          ++ " attribute of your package.json?  If you are currently using babel and pointing to a "
          ++ dq ++ "build" ++ dq ++ " directory say yes.")
     else ret (VBool false)) ;;
  packageJSON <-
    (if truthy shouldChangeMain then
       newMain <- prompt "newMain" "Enter the relative path to your uncompiled main file" ;;
       lift (set_field "main" newMain packageJSON)
     else ret packageJSON) ;;
  opened <- lift (manifest_object packageJSON) ;;
  let '(packageJSON, as_read) := opened in
  st <- scanDependencies interactive packageJSON ;;
  pinned <- pinElectron dir st ;;
  let '(electronVersion, packageJSON) := pinned in
  writeChanges dir (as_read packageJSON) ;;
  reinstall dir st electronVersion ;;
  packageJSON <- Fs.readPackageJSON (cwd env) dir ;;
  config <- lift (read_field "config" packageJSON) ;;
  opened <- lift (manifest_object packageJSON) ;;
  let '(packageJSON, as_read) := opened in
  let packageJSON := set "config" (or_else config (VObj [])) packageJSON in
  templatePackageJSON <- Fs.readPackageJSON (cwd env) (resolve [module_dir env; "../tmpl"]) ;;
  templateConfig <- lift (read_field "config" templatePackageJSON) ;;
  forge <- lift (read_field "forge" templateConfig) ;;
  config <- lift (set_field "forge" forge (get "config" packageJSON)) ;;
  let packageJSON := set "config" config packageJSON in
  writeChanges dir (as_read packageJSON) ;;
  fixGitignore dir ;;
  let babelPath := resolve [dir; ".babelrc"] in
  babelConfig <-
    (if negb (truthy (get "babel" packageJSON)) then
       found <- Fs.exists_ (cwd env) babelPath ;;
       if found then
         content <- Fs.readFile (cwd env) babelPath ;;
         lift (Fs.JSON_parse babelPath content)
       else ret (get "babel" packageJSON)
     else ret (get "babel" packageJSON)) ;;
  (if truthy babelConfig then
     portBabelConfig dir babelConfig ;;
     Fs.console "info"
       "NOTE: You might be able to remove your `.compilerc` file completely if you are only using the `es2015` and `react` presets"
   else ret tt) ;;
  (* the closing message, abridged *)
  Fs.console "info"
    "We have ATTEMPTED to convert your app to be in a format that electron-forge understands.".

End WithEnv.

End ImportApi.

(* ================================================================== *)
(** ** [src/api/package.js] *)

Module PackageApi.

Record Options : Type := {
  dir : option string;
  interactive : option bool;
  arch : option string;
  platform : option string;
  outDir : option string
}.

Record Env : Type := {
  cwd : string;                          (* [process.cwd()] *)
  hostArch : string;
  process_platform : string;
  resolveDir : files -> string -> option string;
  require_resolve : files -> string -> option string;
  getForgeConfig : files -> string -> result value;
  runHook : value -> string -> collaborator;
  (* the packaging engine; the flag tells whether it ran the after-prune
     hooks, the first of which starts the packaging spinner *)
  packager : props -> files -> result (files * bool);
  (* the module system seen by [requireSearch] *)
  candidates : string -> string -> list string;
  load : string -> option value
}.

Section WithEnv.

Variable env : Env.

(** Modelled from the spec: [requireSearch] ([../util/require-search]) is
    not among the sources.  A name is resolved by searching a fixed set
    of candidate locations under the project directory; a failure
    surfaces as an error identifying the unresolved name (section 4.2). *)
Definition requireSearch (dir : string) (names : list string) : result value :=
  let locations := flat_map (candidates env dir) names in
  match
    find (fun found => match found with Some _ => true | None => false end)
      (map (load env) locations)
  with
  | Some (Some callable) => Ok callable
  | _ => Err (Unresolved names)
  end.

(** Whether one of the candidate locations of a name holds a module. *)
Definition resolvable (dir name : string) : bool :=
  existsb
    (fun location => match load env location with Some _ => true | None => false end)
    (candidates env dir name).

(** [resolveHooks] *)
Definition resolveHooks (hooks : value) (dir : string) : result (list value) :=
  if truthy hooks then
    match hooks with
    | VArr elems =>
        map_result
          (fun hook => if is_string hook then requireSearch dir [to_string hook]
                       else Ok hook)
          (map snd elems)
    | _ => Err (TypeError "hooks.map is not a function")
    end
  else Ok [].

(** The label shown while preparing. *)
Definition preparing (arch : string) : string :=
  "Preparing to Package Application for arch: "
  ++ (if String.eqb arch "all" then "ia32" else arch).

(** The hooks the orchestrator injects itself. *)
Definition cleanBuild : value := VFun "afterCopy: remove electron-compile tests and .bin files".
Definition compileHook : value := VFun "afterCopy: packagerCompileHook".
Definition stripForgeConfig : value := VFun "afterCopy: rewrite package.json without config.forge".
Definition rebuild : value := VFun "afterPrune: rebuildHook".

(** Lines 291-330: the options handed to the packaging engine. *)
Definition packageOpts (forgeConfig packageJSON : value)
    (dir arch platform outDir : string) : result props :=
  (electronPackagerConfig <- read_field "electronPackagerConfig" forgeConfig ;;
   afterCopy' <- read_field "afterCopy" electronPackagerConfig ;;
   afterCopy <- resolveHooks afterCopy' dir ;;
   afterExtract' <- read_field "afterExtract" electronPackagerConfig ;;
   afterExtract <- resolveHooks afterExtract' dir ;;
   afterPrune' <- read_field "afterPrune" electronPackagerConfig ;;
   afterPrune <- resolveHooks afterPrune' dir ;;
   devDependencies <- read_field "devDependencies" packageJSON ;;
   electronVersion <- read_field "electron-prebuilt-compile" devDependencies ;;
   let packageOpts :=
     Object_assign
       [("asar", VBool false); ("overwrite", VBool true)]
       [electronPackagerConfig;
        VObj [("afterCopy", array ([cleanBuild; compileHook; stripForgeConfig] ++ afterCopy)%list);
              ("afterExtract", array afterExtract);
              ("afterPrune", array (rebuild :: afterPrune));
              ("dir", VStr dir);
              ("arch", VStr arch);
              ("platform", VStr platform);
              ("out", VStr outDir);
              ("electronVersion", electronVersion)]] in
   Ok (set "quiet" (VBool true) packageOpts))%res.

(** [typeof v === 'object'] *)
Definition typeof_object (v : value) : bool :=
  match v with VNull | VArr _ | VObj _ => true | _ => false end.

(** The default export. *)
Definition packageProject (providedOptions : Options) : M unit :=
  let dir0 := match dir providedOptions with Some d => d | None => cwd env end in
  let arch := match arch providedOptions with Some a => a | None => hostArch env end in
  let platform :=
    match platform providedOptions with Some p => p | None => process_platform env end in
  let outDir :=
    match outDir providedOptions with
    | Some o => if String.eqb o "" then Path.resolve (cwd env) [dir0; "out"] else o
    | None => Path.resolve (cwd env) [dir0; "out"]
    end in
  (* the real spinner or the silent one, depending on [interactive] *)
  emit (ESpinner (preparing arch)) ;;
  t <- get_tree ;;
  match resolveDir env t dir0 with
  | None => throw (Thrown (VStr "Failed to locate compilable Electron application"))
  | Some dir =>
      if String.eqb dir "" then
        throw (Thrown (VStr "Failed to locate compilable Electron application"))
      else
        packageJSON <- Fs.readPackageJSON (cwd env) dir ;;
        main <- lift (read_field "main" packageJSON) ;;
        match main with
        | VStr main =>
            t <- get_tree ;;
            match require_resolve env t (Path.resolve (cwd env) [dir; main]) with
            | None => throw (ModuleNotFound (Path.resolve (cwd env) [dir; main]))
            | Some entry =>
                if String.eqb (Path.dirname entry) dir then
                  Fs.console "error" ("Entry point: " ++ main) ;;
                  throw (Thrown (VStr
                    ("The entry point to your application (" ++ dq ++ "packageJSON.main"
                     ++ dq ++ ") must be in a subfolder not in the top level directory")))
                else
                  t <- get_tree ;;
                  forgeConfig <- lift (getForgeConfig env t dir) ;;
                  packageOpts <-
                    lift (packageOpts forgeConfig packageJSON dir arch platform outDir) ;;
                  (let asar := get "asar" packageOpts in
                   if typeof_object asar then
                     unpack <- lift (read_field "unpack" asar) ;;
                     if truthy unpack then
                       (* [packagerSpinner] is still [undefined] here *)
                       throw (TypeError "Cannot read property fail")
                     else ret tt
                   else ret tt) ;;
                  call (EHook "generateAssets") (runHook env forgeConfig "generateAssets") ;;
                  call (EHook "prePackage") (runHook env forgeConfig "prePackage") ;;
                  emit (EPackager packageOpts) ;;
                  t <- get_tree ;;
                  packaged <- lift (packager env packageOpts t) ;;
                  put_tree (fst packaged) ;;
                  call (EHook "postPackage") (runHook env forgeConfig "postPackage") ;;
                  if snd packaged : bool then emit (ESpinner "Packaging Application")
                  else throw (TypeError "Cannot read property succeed")
            end
        | _ => throw (TypeError "Path must be a string")
        end
  end.

End WithEnv.

End PackageApi.

(* ================================================================== *)
(** ** [src/makers/generic/zip.js] *)

Module ZipMaker.

Record Env : Type := {
  cwd : string;                           (* [process.cwd()] *)
  zip : string -> string -> collaborator  (* [cross-zip] *)
}.

Section WithEnv.

Variable env : Env.

(** Modelled from the spec: [ensureFile] ([../../util/ensure-output]) is
    not among the sources; it creates the destination directory of a
    file if absent (section 4.5). *)
Definition ensureFile (file : string) : M unit :=
  Fs.mkdirs (cwd env) (Path.dirname file).

Definition zipDir (dir appName targetPlatform : string) : string :=
  if String.eqb targetPlatform "darwin"
  then Path.resolve (cwd env) [dir; appName ++ ".app"]
  else dir.

(** Reading [packageJSON.version] throws for a manifest that is
    [undefined] or [null]. *)
Definition zipPath (dir : string) (packageJSON : value) : result string :=
  (version <- read_field "version" packageJSON ;;
   Ok (Path.resolve (cwd env)
         [dir; "../make";
          Path.basename dir ++ "-" ++ to_string version ++ ".zip"]))%res.

(** The default export. *)
Definition makeZip (dir appName targetPlatform : string) (packageJSON : value)
    : M (list string) :=
  let zipDir := zipDir dir appName targetPlatform in
  zipPath <- lift (zipPath dir packageJSON) ;;
  ensureFile zipPath ;;
  call (EZip zipDir zipPath) (zip env zipDir zipPath) ;;
  ret [zipPath].

End WithEnv.

End ZipMaker.

(* ================================================================== *)
(** ** Sample inputs *)

Module Sample.

(** A shared and a maker-specific Linux configuration that disagree on
    the categories and on the icon. *)
Definition linux : ConfigResolver.configs :=
  {| ConfigResolver.shared :=
       [("categories", array [VStr "Utility"; VStr "Development"]);
        ("options", VObj [("icon", VStr "a.png"); ("bin", VStr "app")])];
     ConfigResolver.maker :=
       [("categories", array [VStr "Game"]);
        ("options", VObj [("icon", VStr "b.png")])] |}.

(** Collaborators that succeed and change nothing. *)
Definition forge : ImportApi.Env :=
  {| ImportApi.cwd := "/home/dev";
     ImportApi.module_dir := "/opt/forge/api";
     ImportApi.serialise := fun _ => "{}";
     ImportApi.initGit := fun _ t => Ok t;
     ImportApi.installDepList := fun _ _ _ _ t => Ok t;
     ImportApi.yarnOrNPMSpawn := fun _ _ t => t;
     ImportApi.hasYarn := false;
     ImportApi.deps := ["electron-compile"];
     ImportApi.devDeps := ["babel-preset-stage-0"] |}.

(** The manifest of a project that declares the legacy runtime among
    its regular dependencies. *)
Definition legacy_manifest : props :=
  [("name", VStr "app");
   ("main", VStr "index.js");
   ("dependencies",
    VObj [("electron", VStr "^1.4.0"); ("lodash", VStr "^4.17.0")]);
   ("babel", VObj [("presets", array [VStr "es2015"])])].

Definition silent (files : Sys.files) : World :=
  {| tree := files; user := fun _ => VBool true; asked := 0; trace := [] |}.

Definition legacy_project : World :=
  silent
    [("/", Dir);
     ("/proj", Dir);
     ("/proj/package.json", Json (VObj legacy_manifest));
     ("/proj/node_modules", Dir);
     ("/proj/node_modules/electron", Dir);
     ("/proj/node_modules/electron/package.json",
      Json (VObj [("name", VStr "electron"); ("version", VStr "1.4.13")]));
     ("/proj/.gitignore", Text "node_modules");
     ("/proj/.compilerc",
      Json (VObj [("text/less", VObj [("dumpLineNumbers", VStr "comments")]);
                  ("application/javascript", VObj [("sourceMaps", VBool true)])]));
     ("/opt/forge/tmpl/package.json",
      Json (VObj [("config", VObj [("forge", VObj [("make_targets", VObj [])])])]))].

(** A project whose ignore file mentions [layout.css] and nothing
    else. *)
Definition layout_project : World :=
  silent [("/", Dir); ("/proj", Dir); ("/proj/.gitignore", Text "layout.css")].

(** A project configuration that asks for [ia32] and names two
    after-copy hooks, one by path. *)
Definition project_config : value :=
  VObj [("electronPackagerConfig",
         VObj [("arch", VStr "ia32");
               ("afterCopy", array [VStr "hooks/sign.js"; VFun "notify"])])].

Definition engine : PackageApi.Env :=
  {| PackageApi.cwd := "/home/dev";
     PackageApi.hostArch := "x64";
     PackageApi.process_platform := "linux";
     PackageApi.resolveDir := fun _ d => Some d;
     PackageApi.require_resolve :=
       fun t p => match lookup p t with Some (Text _) => Some p | _ => None end;
     PackageApi.getForgeConfig := fun _ _ => Ok project_config;
     PackageApi.runHook := fun _ _ t => Ok t;
     PackageApi.packager := fun _ t => Ok (t, true);
     PackageApi.candidates :=
       fun d name => [name; d ++ "/" ++ name; d ++ "/node_modules/" ++ name];
     PackageApi.load :=
       fun location =>
         if String.eqb location "/proj/hooks/sign.js" then Some (VFun "sign") else None |}.

(** A project whose entry point lies next to its manifest. *)
Definition flat_project : World :=
  silent
    [("/", Dir);
     ("/proj", Dir);
     ("/proj/package.json",
      Json (VObj [("name", VStr "app"); ("main", VStr "index.js");
                  ("devDependencies",
                   VObj [("electron-prebuilt-compile", VStr "1.4.13")])]));
     ("/proj/index.js", Text "require('./app')")].

(** A project whose entry point lies in a subdirectory. *)
Definition nested_project : World :=
  silent
    [("/", Dir);
     ("/proj", Dir);
     ("/proj/package.json",
      Json (VObj [("name", VStr "app"); ("main", VStr "src/index.js");
                  ("devDependencies",
                   VObj [("electron-prebuilt-compile", VStr "1.4.13")])]));
     ("/proj/src", Dir);
     ("/proj/src/index.js", Text "require('./app')")].

Definition zipper : ZipMaker.Env :=
  {| ZipMaker.cwd := "/home/dev";
     ZipMaker.zip := fun _ target t => Ok (store target (Text "PK") t) |}.

End Sample.

(* ================================================================== *)
(** ** What import may do *)

Module ImportEvents.

(** The events a run of import on [dir] can cause: console output and
    progress labels; questions, in interactive mode only; writes to the
    manifest, the ignore file and the compiler configuration of the
    project; removal of the legacy runtime and its shims; and git,
    prune and install runs in the project directory. *)
Definition allowed (cwd dir : string) (interactive : bool) (e : event) : Prop :=
  match e with
  | EConsole _ _ | ESpinner _ => True
  | EPrompt _ _ => interactive = true
  | EWriteFile p _ =>
      In p (map (fun file => Fs.abs cwd (Path.resolve cwd [dir; file]))
              ["package.json"; ".gitignore"; ".compilerc"])
  | ERemove p =>
      In p (map (fun below => Fs.abs cwd (Path.resolve cwd (dir :: below)))
              [["node_modules/.bin/electron"];
               ["node_modules/.bin/electron.cmd"];
               ["node_modules"; "electron"];
               ["node_modules"; "electron-prebuilt"]])
  | EGitInit d | ESpawn _ d | EInstall d _ _ _ => d = dir
  | EMkdirs _ | EZip _ _ | EHook _ | EPackager _ => False
  end.

(** A computation only ever adds to the trace. *)
Definition grows {A} (m : M A) : Prop :=
  forall w, exists later, trace (snd (m w)) = (later ++ trace w)%list.

End ImportEvents.

(** ** Further sample inputs *)

Module Cases.

(** A user who answers no to every question. *)
Definition declining (files : Sys.files) : World :=
  {| tree := files; user := fun _ => VBool false; asked := 0; trace := [] |}.

(** A user who confirms the first question and declines the rest. *)
Definition hesitant (files : Sys.files) : World :=
  {| tree := files; user := fun n => VBool (Nat.eqb n 0); asked := 0; trace := [] |}.

(** A manifest that declares a build tool, a package named like a
    member of [Object.prototype], and the legacy runtime. *)
Definition tooling_manifest : props :=
  [("name", VStr "app");
   ("dependencies",
    VObj [("electron-builder", VStr "^11.0.0"); ("constructor", VStr "^1.0.0");
          ("lodash", VStr "^4.17.0")]);
   ("devDependencies",
    VObj [("electron-prebuilt", VStr "^1.4.0"); ("electron-packager", VStr "^8.0.0")])].

(** A project that has been imported before. *)
Definition configured_files : Sys.files :=
  [("/", Dir);
   ("/proj", Dir);
   ("/proj/package.json",
    Json (VObj [("name", VStr "app");
                ("config", VObj [("forge", VObj [("make_targets", VObj [])])])]))].

(** Surroundings in which git cannot be initialised and nothing can be
    installed. *)
Definition offline : ImportApi.Env :=
  {| ImportApi.cwd := "/home/dev";
     ImportApi.module_dir := "/opt/forge/api";
     ImportApi.serialise := fun _ => "{}";
     ImportApi.initGit := fun _ _ => Err (External "git init");
     ImportApi.installDepList := fun _ _ _ _ _ => Err (External "npm install");
     ImportApi.yarnOrNPMSpawn := fun _ _ t => t;
     ImportApi.hasYarn := true;
     ImportApi.deps := ["electron-compile"];
     ImportApi.devDeps := ["babel-preset-stage-0"] |}.

(** A project configuration that packs into an archive and sets an
    icon. *)
Definition archive_config : value :=
  VObj [("electronPackagerConfig",
         VObj [("asar", VBool true); ("icon", VStr "assets/app.icns");
               ("out", VStr "elsewhere"); ("afterPrune", array [VFun "audit"])])].

(** The manifest of an imported project. *)
Definition imported_manifest : value :=
  VObj [("name", VStr "app"); ("main", VStr "src/index.js");
        ("devDependencies", VObj [("electron-prebuilt-compile", VStr "1.4.13")])].

(** Surroundings in which no application is found. *)
Definition nowhere : PackageApi.Env :=
  {| PackageApi.cwd := "/home/dev";
     PackageApi.hostArch := "x64";
     PackageApi.process_platform := "linux";
     PackageApi.resolveDir := fun _ _ => None;
     PackageApi.require_resolve := fun _ _ => None;
     PackageApi.getForgeConfig := fun _ _ => Ok (VObj []);
     PackageApi.runHook := fun _ _ t => Ok t;
     PackageApi.packager := fun _ t => Ok (t, true);
     PackageApi.candidates := fun _ _ => [];
     PackageApi.load := fun _ => None |}.

(** The sample project before its dependencies were installed: the
    manifest declares [electron], [node_modules] is missing. *)
Definition uninstalled_project : World :=
  Sample.silent
    [("/", Dir);
     ("/proj", Dir);
     ("/proj/package.json", Json (VObj Sample.legacy_manifest));
     ("/opt/forge/tmpl/package.json",
      Json (VObj [("config", VObj [("forge", VObj [("make_targets", VObj [])])])]))].

(** Surroundings of packaging whose project configuration names no
    hooks. *)
Definition packer : PackageApi.Env :=
  {| PackageApi.cwd := "/home/dev";
     PackageApi.hostArch := "x64";
     PackageApi.process_platform := "linux";
     PackageApi.resolveDir := fun _ d => Some d;
     PackageApi.require_resolve :=
       fun t p => match lookup p t with Some (Text _) => Some p | _ => None end;
     PackageApi.getForgeConfig :=
       fun _ _ => Ok (VObj [("electronPackagerConfig", VObj [])]);
     PackageApi.runHook := fun _ _ t => Ok t;
     PackageApi.packager := fun _ t => Ok (t, true);
     PackageApi.candidates := fun _ _ => [];
     PackageApi.load := fun _ => None |}.

End Cases.

(* ================================================================== *)
(* ================================================================== *)
(** * Properties *)

(** ** Property lists *)

Section PropsFacts.

Lemma eqb_neq_sym (k k' : string) : k <> k' -> String.eqb k' k = false.
Proof. intros H. apply String.eqb_neq. congruence. Qed.

Lemma get_set_same k v o : get k (set k v o) = v.
Proof.
  induction o as [|[k' v'] o IH]; simpl.
  - now rewrite String.eqb_refl.
  - destruct (String.eqb k k') eqn:E; simpl; rewrite ?String.eqb_refl, ?E; auto.
Qed.

Lemma get_set_other k k' v o : k <> k' -> get k (set k' v o) = get k o.
Proof.
  intros N. induction o as [|[k2 v2] o IH]; simpl.
  - apply String.eqb_neq in N. now rewrite N.
  - destruct (String.eqb k' k2) eqn:E; simpl.
    + apply String.eqb_eq in E. subst k2.
      apply String.eqb_neq in N. now rewrite N.
    + now rewrite IH.
Qed.

Lemma has_set_same k v o : has k (set k v o) = true.
Proof.
  induction o as [|[k' v'] o IH]; simpl.
  - now rewrite String.eqb_refl.
  - destruct (String.eqb k k') eqn:E; simpl; rewrite ?String.eqb_refl, ?E; auto.
Qed.

Lemma has_set_other k k' v o : k <> k' -> has k (set k' v o) = has k o.
Proof.
  intros N. induction o as [|[k2 v2] o IH]; simpl.
  - apply String.eqb_neq in N. now rewrite N.
  - destruct (String.eqb k' k2) eqn:E; simpl.
    + apply String.eqb_eq in E. subst k2.
      apply String.eqb_neq in N. now rewrite N.
    + now rewrite IH.
Qed.

Lemma has_set k k' v o : has k (set k' v o) = String.eqb k k' || has k o.
Proof.
  destruct (String.eqb_spec k k') as [->|N].
  - apply has_set_same.
  - now rewrite has_set_other.
Qed.

Lemma get_absent k o : has k o = false -> get k o = VUndefined.
Proof.
  induction o as [|[k' v'] o IH]; simpl; auto.
  destruct (String.eqb k k'); auto. discriminate.
Qed.

Lemma set_absent k v o : has k o = false -> set k v o = (o ++ [(k, v)])%list.
Proof.
  induction o as [|[k' v'] o IH]; simpl; auto.
  destruct (String.eqb k k'); [discriminate|]. intros H. now rewrite IH.
Qed.

Lemma has_app k o o' : has k (o ++ o')%list = has k o || has k o'.
Proof.
  induction o as [|[k' v'] o IH]; simpl; auto.
  destruct (String.eqb k k'); auto.
Qed.

Lemma get_app k o o' :
  get k (o ++ o')%list = if has k o then get k o else get k o'.
Proof.
  induction o as [|[k' v'] o IH]; simpl; auto.
  destruct (String.eqb k k'); auto.
Qed.

Lemma has_delete_same k o : has k (delete k o) = false.
Proof.
  induction o as [|[k' v'] o IH]; simpl; auto.
  destruct (String.eqb k k') eqn:E; simpl; rewrite ?E; auto.
Qed.

Lemma has_delete_other k k' o : k <> k' -> has k (delete k' o) = has k o.
Proof.
  intros N. induction o as [|[k2 v2] o IH]; simpl; auto.
  destruct (String.eqb k' k2) eqn:E; simpl.
  - apply String.eqb_eq in E. subst k2.
    apply String.eqb_neq in N. now rewrite N.
  - now rewrite IH.
Qed.

Lemma get_delete_other k k' o : k <> k' -> get k (delete k' o) = get k o.
Proof.
  intros N. induction o as [|[k2 v2] o IH]; simpl; auto.
  destruct (String.eqb k' k2) eqn:E; simpl.
  - apply String.eqb_eq in E. subst k2.
    apply String.eqb_neq in N. now rewrite N.
  - now rewrite IH.
Qed.

Lemma has_In_keys k o : has k o = true <-> In k (keys o).
Proof.
  induction o as [|[k' v'] o IH]; simpl.
  - split; [discriminate | tauto].
  - destruct (String.eqb_spec k k') as [->|N].
    + tauto.
    + rewrite IH. split; [tauto|]. intros [E|I]; [congruence|exact I].
Qed.

End PropsFacts.

(** An induction principle that reaches the members of arrays and
    objects. *)
Lemma value_induction (P : value -> Prop) :
  P VUndefined -> P VNull -> (forall b, P (VBool b)) -> (forall n, P (VNum n)) ->
  (forall s, P (VStr s)) -> (forall f, P (VFun f)) ->
  (forall o, Forall (fun kv => P (snd kv)) o -> P (VArr o)) ->
  (forall o, Forall (fun kv => P (snd kv)) o -> P (VObj o)) ->
  forall v, P v.
Proof.
  intros Hu Hn Hb Hz Hs Hf Ha Ho.
  fix IH 1. intros [| |b|n|s|f|o|o].
  - exact Hu.
  - exact Hn.
  - apply Hb.
  - apply Hz.
  - apply Hs.
  - apply Hf.
  - apply Ha. induction o as [|[k x] o IHo]; constructor; [apply IH | exact IHo].
  - apply Ho. induction o as [|[k x] o IHo]; constructor; [apply IH | exact IHo].
Qed.

(** ** lodash's merge *)

Section MergeFacts.

Import Lodash DeepMergeSpec.

Lemma get_assignMergeValue_same k v o :
  get k (assignMergeValue o k v) = match v with VUndefined => get k o | _ => v end.
Proof.
  unfold assignMergeValue.
  destruct v; try apply get_set_same.
  destruct (has k o) eqn:H; auto.
  rewrite get_set_same. symmetry. now apply get_absent.
Qed.

Lemma get_assignMergeValue_other k k' v o :
  k <> k' -> get k (assignMergeValue o k' v) = get k o.
Proof.
  intros N. unfold assignMergeValue.
  destruct v; try (now apply get_set_other).
  destruct (has k' o); auto. now apply get_set_other.
Qed.

Lemma has_assignMergeValue k k' v o :
  has k (assignMergeValue o k' v) = String.eqb k k' || has k o.
Proof.
  unfold assignMergeValue.
  destruct v; try apply has_set.
  destruct (has k' o) eqn:H; [|apply has_set].
  destruct (String.eqb_spec k k') as [->|N]; auto.
Qed.

(** The loop inside [baseMergeDeep] is [baseMerge]. *)
Lemma baseMergeDeep_loop source : forall object,
  (fix loop (source object : props) {struct source} : props :=
     match source with
     | [] => object
     | (key, v) :: source' =>
         loop source'
           (assignMergeValue object key
              (if isObject v then baseMergeDeep (get key object) v else v))
     end) source object = baseMerge object source.
Proof.
  induction source as [|[key v] source IH]; intros object; simpl; auto.
Qed.

Lemma baseMergeDeep_array objValue source :
  baseMergeDeep objValue (VArr source) =
  match objValue with
  | VArr object => VArr (baseMerge object source)
  | _ => VArr (baseMerge [] source)
  end.
Proof.
  destruct objValue; simpl; now rewrite baseMergeDeep_loop.
Qed.

Lemma baseMergeDeep_object objValue source :
  baseMergeDeep objValue (VObj source) =
  match objValue with
  | VArr object => VArr (baseMerge object source)
  | VObj object => VObj (baseMerge object source)
  | _ => VObj (baseMerge [] source)
  end.
Proof.
  destruct objValue; simpl; now rewrite baseMergeDeep_loop.
Qed.

Lemma baseMergeDeep_other objValue v :
  isObject v = false -> baseMergeDeep objValue v = v.
Proof. destruct v; simpl; auto; discriminate. Qed.

Lemma merged_value objValue v :
  (if isObject v then baseMergeDeep objValue v else v) = baseMergeDeep objValue v.
Proof.
  destruct (isObject v) eqn:E; auto. symmetry. now apply baseMergeDeep_other.
Qed.

#[local] Arguments baseMergeDeep : simpl never.

Lemma baseMerge_cons object key v source :
  baseMerge object ((key, v) :: source) =
  baseMerge (assignMergeValue object key (baseMergeDeep (get key object) v)) source.
Proof. simpl. now rewrite merged_value. Qed.

Lemma has_baseMerge k source : forall object,
  has k (baseMerge object source) = has k object || has k source.
Proof.
  induction source as [|[key v] source IH]; intros object.
  - simpl. now rewrite orb_false_r.
  - rewrite baseMerge_cons, IH, has_assignMergeValue. simpl.
    destruct (String.eqb k key), (has k object); auto.
Qed.

Lemma get_baseMerge_absent k source : forall object,
  has k source = false -> get k (baseMerge object source) = get k object.
Proof.
  induction source as [|[key v] source IH]; intros object H; auto.
  rewrite baseMerge_cons. simpl in H.
  destruct (String.eqb_spec k key) as [->|N]; [discriminate|].
  rewrite IH by exact H. now apply get_assignMergeValue_other.
Qed.

Lemma baseMergeDeep_undefined objValue v :
  baseMergeDeep objValue v = VUndefined -> v = VUndefined.
Proof.
  destruct v; auto.
  - rewrite baseMergeDeep_array. destruct objValue; discriminate.
  - rewrite baseMergeDeep_object. destruct objValue; discriminate.
Qed.

(** What a merge leaves under a key of the source. *)
Lemma get_baseMerge_present k source : forall object,
  unique_keys source = true -> has k source = true ->
  get k (baseMerge object source) =
  match get k source with
  | VUndefined => get k object
  | v => baseMergeDeep (get k object) v
  end.
Proof.
  induction source as [|[key v] source IH]; intros object U H; [discriminate|].
  rewrite baseMerge_cons. simpl in U, H |- *.
  apply andb_prop in U. destruct U as [A U].
  destruct (String.eqb_spec k key) as [->|N].
  - rewrite get_baseMerge_absent by (now apply negb_true_iff in A).
    rewrite get_assignMergeValue_same.
    destruct v; try reflexivity.
    + rewrite baseMergeDeep_array. now destruct (get key object).
    + rewrite baseMergeDeep_object. now destruct (get key object).
  - rewrite IH by assumption.
    now rewrite get_assignMergeValue_other.
Qed.

End MergeFacts.

(** ** lodash's merge against the deep merge of the specification *)

Section MergeAgainstSpec.

Import Lodash DeepMergeSpec.

#[local] Arguments baseMergeDeep : simpl never.

Lemma assignMergeValue_defined o k v :
  v <> VUndefined -> assignMergeValue o k v = set k v o.
Proof. destruct v; auto. congruence. Qed.

Lemma baseMergeDeep_defined objValue v :
  v <> VUndefined -> baseMergeDeep objValue v <> VUndefined.
Proof. intros N E. now apply baseMergeDeep_undefined in E. Qed.

Lemma absent_keys k o :
  has k o = false -> forall kv, In kv o -> fst kv <> k.
Proof.
  intros H [k' v] I E. simpl in E. subst k'.
  assert (has k o = true) by (apply has_In_keys, in_map_iff; now exists (k, v)).
  congruence.
Qed.

Lemma onto_cons_other k v h kv :
  fst kv <> k -> onto ((k, v) :: h) kv = onto h kv.
Proof.
  intros N. unfold onto. simpl.
  apply String.eqb_neq in N. now rewrite N.
Qed.

Lemma onto_absent h kv : has (fst kv) h = false -> onto h kv = kv.
Proof. intros H. unfold onto. rewrite H. now destruct kv. Qed.

Lemma map_onto_set k v h : forall o,
  unique_keys o = true -> has k o = true -> has k h = false ->
  map (onto h) (set k (baseMergeDeep (get k o) v) o) = map (onto ((k, v) :: h)) o.
Proof.
  induction o as [|[k' v'] o IH]; intros U H A; [discriminate|].
  simpl in U, H |- *. apply andb_prop in U. destruct U as [U1 U2].
  destruct (String.eqb_spec k k') as [<-|N]; simpl.
  - f_equal.
    + rewrite onto_absent by exact A.
      unfold onto. simpl. now rewrite String.eqb_refl.
    + apply map_ext_in. intros kv I. symmetry. apply onto_cons_other.
      apply absent_keys with (o := o); auto. now apply negb_true_iff.
  - f_equal.
    + symmetry. apply onto_cons_other. simpl. congruence.
    + now apply IH.
Qed.

Lemma unique_keys_set k v : forall o,
  unique_keys o = true -> unique_keys (set k v o) = true.
Proof.
  induction o as [|[k' v'] o IH]; intros U; auto.
  simpl in U |- *. apply andb_prop in U. destruct U as [U1 U2].
  destruct (String.eqb_spec k k') as [->|N]; simpl.
  - now rewrite U1, U2.
  - rewrite has_set_other by congruence. now rewrite U1, IH.
Qed.

(** The shape of a merge whose source holds no [undefined]. *)
Lemma baseMerge_shape h : forall o,
  unique_keys o = true -> unique_keys h = true -> defined h ->
  baseMerge o h =
  (map (onto h) o ++ map fresh (filter (fun kv => negb (has (fst kv) o)) h))%list.
Proof.
  induction h as [|[k v] h IH]; intros o Uo Uh D.
  - simpl. rewrite app_nil_r. symmetry. rewrite <- (map_id o) at 2.
    apply map_ext. intros kv. now apply onto_absent.
  - rewrite baseMerge_cons.
    assert (Dv : v <> VUndefined) by (apply (D k); now left).
    assert (Dh : defined h) by (intros k' v' I; apply (D k'); now right).
    simpl in Uh. apply andb_prop in Uh. destruct Uh as [A Uh].
    apply negb_true_iff in A.
    rewrite assignMergeValue_defined by now apply baseMergeDeep_defined.
    rewrite IH by (auto using unique_keys_set).
    cbn [filter fst].
    destruct (has k o) eqn:Ho; cbn [negb].
    + rewrite map_onto_set by assumption. f_equal. f_equal.
      apply filter_ext. intros kv. rewrite has_set.
      destruct (String.eqb_spec (fst kv) k) as [->|N]; [now rewrite Ho | reflexivity].
    + rewrite set_absent by exact Ho.
      rewrite (get_absent _ _ Ho).
      rewrite map_app. cbn [map]. rewrite <- app_assoc. cbn [app].
      f_equal; [|f_equal].
      * apply map_ext_in. intros kv I. symmetry. apply onto_cons_other.
        now apply absent_keys with (o := o).
      * now apply onto_absent.
      * f_equal. apply filter_ext_in. intros kv I.
        rewrite has_app. cbn [has].
        assert (N : fst kv <> k) by now apply absent_keys with (o := h).
        apply String.eqb_neq in N. rewrite N. now rewrite orb_false_r.
Qed.

Lemma plain_object o :
  plain (VObj o) = unique_keys o && forallb (fun kv => plain (snd kv)) o.
Proof.
  cbn [plain]. f_equal.
  induction o as [|[k v] o IH]; cbn [forallb snd]; auto. now rewrite IH.
Qed.

Lemma plain_defined o : plain (VObj o) = true -> defined o.
Proof.
  rewrite plain_object. intros H k v I E. subst v.
  apply andb_prop in H. destruct H as [_ H].
  rewrite forallb_forall in H. now specialize (H _ I).
Qed.

Lemma plain_member k o :
  plain (VObj o) = true -> has k o = true -> plain (get k o) = true.
Proof.
  rewrite plain_object. intros H. apply andb_prop in H. destruct H as [_ H].
  induction o as [|[k' v'] o IH]; [discriminate|].
  cbn [forallb snd] in H. apply andb_prop in H. destruct H as [H1 H2].
  simpl. destruct (String.eqb k k'); auto.
Qed.

(** Merging a plain value over something that is no array or object
    copies it. *)
Lemma baseMergeDeep_copy v :
  plain v = true ->
  forall objValue, isObject objValue = false \/ (exists f, objValue = VFun f) ->
  baseMergeDeep objValue v = v.
Proof.
  induction v as [| |b|n|s|f|o IH|o IH] using value_induction;
    intros P objValue Hobj; try reflexivity; try discriminate.
  rewrite baseMergeDeep_object.
  assert (E : baseMerge [] o = o).
  { rewrite baseMerge_shape; auto using plain_defined.
    - cbn [map app has negb].
      assert (F : filter (fun _ : string * value => true) o = o)
        by (clear; induction o; simpl; congruence).
      rewrite F. rewrite <- (map_id o) at 2.
      apply map_ext_in. intros [k x] I. unfold fresh. cbn [fst snd]. f_equal.
      rewrite Forall_forall in IH. apply (IH _ I); [|left; reflexivity].
      rewrite plain_object in P. apply andb_prop in P. destruct P as [_ P].
      rewrite forallb_forall in P. now apply (P _ I).
    - rewrite plain_object in P. now apply andb_prop in P. }
  destruct Hobj as [Hobj|[g ->]]; [|now rewrite E].
  destruct objValue; try discriminate; now rewrite E.
Qed.

Lemma deepMerge_objects l h :
  deepMerge (VObj l) (VObj h) =
  VObj (map (fun kv => (fst kv, if has (fst kv) h
                                then deepMerge (snd kv) (get (fst kv) h)
                                else snd kv)) l
        ++ filter (fun kv => negb (has (fst kv) l)) h)%list.
Proof.
  cbn [deepMerge]. do 2 f_equal.
  induction l as [|[k v] l IH]; cbn [map fst snd]; auto. now rewrite IH.
Qed.

(** On plain values lodash's merge is the deep merge of the
    specification. *)
Lemma baseMergeDeep_deepMerge low :
  plain low = true -> forall high, plain high = true ->
  baseMergeDeep low high = deepMerge low high.
Proof.
  induction low as [| |b|n|s|f|o IH|l IH] using value_induction;
    intros Pl high Ph; try discriminate;
    try (rewrite baseMergeDeep_copy by (auto; right; eauto); reflexivity).
  destruct high as [| |b|n|s|f|o|h]; try reflexivity; try discriminate.
  rewrite baseMergeDeep_object, deepMerge_objects. f_equal.
  pose proof Pl as Pl'. pose proof Ph as Ph'.
  rewrite plain_object in Pl', Ph'.
  apply andb_prop in Pl', Ph'. destruct Pl' as [Ul Al], Ph' as [Uh Ah].
  rewrite baseMerge_shape; auto using plain_defined. f_equal.
  - apply map_ext_in. intros [k v] I. unfold onto. cbn [fst snd]. f_equal.
    destruct (has k h) eqn:Hk; auto.
    rewrite Forall_forall in IH. apply (IH _ I).
    + rewrite forallb_forall in Al. now apply (Al _ I).
    + now apply plain_member.
  - rewrite <- (map_id (filter _ h)) at 2.
    apply map_ext_in. intros [k v] I. unfold fresh. cbn [fst snd]. f_equal.
    apply baseMergeDeep_copy; [|left; reflexivity].
    apply filter_In in I. destruct I as [I _].
    rewrite forallb_forall in Ah. now apply (Ah _ I).
Qed.

End MergeAgainstSpec.

(** ** The config resolver *)

Section ResolveConfig.

Import Lodash DeepMergeSpec ConfigResolver Sample.

#[local] Arguments baseMergeDeep : simpl never.

(** Whatever [configFn] returns, a configuration that could be
    populated is an object or an array and has a truthy [options]. *)
Lemma populateConfig_options configFn forgeConfig configKey targetArch populated :
  populateConfig configFn forgeConfig configKey targetArch = Ok populated ->
  has "options" (own_props populated) = true
  /\ truthy (get "options" (own_props populated)) = true.
Proof.
  unfold populateConfig.
  destruct (read_field configKey forgeConfig) as [section|]; cbn [rbind]; [|discriminate].
  destruct (read_field "options" _) as [options|]; cbn [rbind]; [|discriminate].
  assert (T : truthy (or_else options (VObj [])) = true).
  { unfold or_else. destruct (truthy options) eqn:E; auto. }
  destruct (configFn _ targetArch); cbn [set_field]; intros H; inversion H;
    cbn [own_props]; now rewrite has_set_same, get_set_same.
Qed.

Lemma resolveConfig_unfold config pkgArch dir outPath :
  resolveConfig config pkgArch dir outPath =
  baseMerge (baseMerge (baseMerge [] (shared config)) (maker config))
    (own_props (runtime pkgArch dir outPath)).
Proof. reflexivity. Qed.

Lemma get_baseMerge_defined k source object :
  unique_keys source = true -> has k source = true ->
  get k source <> VUndefined ->
  get k (baseMerge object source) = baseMergeDeep (get k object) (get k source).
Proof.
  intros U H D. rewrite get_baseMerge_present by assumption.
  destruct (get k source); auto. congruence.
Qed.

Lemma plain_not_undefined v : plain v = true -> v <> VUndefined.
Proof. intros P E. now subst v. Qed.

Lemma deepMerge_replaces low high :
  is_mapping low && is_mapping high = false -> deepMerge low high = high.
Proof. destruct low, high; auto; discriminate. Qed.

(** C1 (as amended).  The merged configuration has every key of the
    shared and of the maker-specific configuration; the fields [arch],
    [dest] and [src] injected at run time override both; and on any
    other key that both configurations have, with values that hold no
    array and no [undefined], the maker-specific value replaces the
    shared one wholesale when either of the two is no mapping, and two
    mappings are merged recursively key by key. *)
Theorem resolveConfig_merged (config : configs) (pkgArch dir outPath : string) :
  unique_keys (shared config) = true ->
  unique_keys (maker config) = true ->
  let merged := resolveConfig config pkgArch dir outPath in
  (forall k, has k (shared config) = true \/ has k (maker config) = true ->
             has k merged = true)
  /\ (get "arch" merged = VStr pkgArch
      /\ get "dest" merged = VStr (Path.dirname outPath)
      /\ get "src" merged = VStr dir)
  /\ (forall k,
        k <> "arch" -> k <> "dest" -> k <> "src" ->
        has k (shared config) = true -> has k (maker config) = true ->
        plain (get k (shared config)) = true ->
        plain (get k (maker config)) = true ->
        get k merged =
        if is_mapping (get k (shared config)) && is_mapping (get k (maker config))
        then deepMerge (get k (shared config)) (get k (maker config))
        else get k (maker config)).
Proof.
  intros Us Um merged. subst merged. rewrite resolveConfig_unfold.
  split; [|split].
  - intros k H. rewrite !has_baseMerge.
    destruct H as [-> | ->]; rewrite ?orb_true_r; reflexivity.
  - repeat split; rewrite get_baseMerge_present by reflexivity; reflexivity.
  - intros k Na Nd Ns Hs Hm Ps Pm.
    rewrite get_baseMerge_absent.
    2:{ cbn. apply String.eqb_neq in Na, Nd, Ns. now rewrite Na, Nd, Ns. }
    rewrite get_baseMerge_defined by (auto using plain_not_undefined).
    rewrite get_baseMerge_defined by (auto using plain_not_undefined).
    cbn [get].
    rewrite (baseMergeDeep_copy _ Ps) by now left.
    rewrite baseMergeDeep_deepMerge by assumption.
    destruct (is_mapping (get k (shared config)) && is_mapping (get k (maker config)))
      eqn:E; auto using deepMerge_replaces.
Qed.

Lemma resolveConfig_merged_witness :
  get "options" (resolveConfig linux "x64" "/out/app" "/out/make/app.deb")
  = VObj [("icon", VStr "b.png"); ("bin", VStr "app")].
Proof.
  pose proof (resolveConfig_merged linux "x64" "/out/app" "/out/make/app.deb"
                eq_refl eq_refl) as H.
  destruct H as (_ & _ & H).
  rewrite (H "options"); try reflexivity; discriminate.
Defined.

(** C1 (as stated) fails on arrays: the shared and the maker-specific
    configuration both give [categories], the maker's value is no
    mapping, and yet the merged value is not the maker's: lodash merges
    arrays index by index, so the second shared element survives. *)
Lemma resolveConfig_array_counterexample :
  let merged := resolveConfig linux "x64" "/out/app" "/out/make/app.deb" in
  has "categories" (shared linux) = true
  /\ has "categories" (maker linux) = true
  /\ is_mapping (get "categories" (maker linux)) = false
  /\ get "categories" (maker linux) = array [VStr "Game"]
  /\ get "categories" merged = array [VStr "Game"; VStr "Development"]
  /\ get "categories" merged <> get "categories" (maker linux).
Proof. cbv zeta. repeat split. discriminate. Qed.

End ResolveConfig.

(** ** Paths *)

Section PathFacts.

Import Path.

Lemma append_assoc (a b c : string) : (a ++ b) ++ c = a ++ (b ++ c).
Proof. induction a; simpl; congruence. Qed.

Lemma append_empty (a : string) : a ++ "" = a.
Proof. induction a; simpl; congruence. Qed.

Lemma chars_append (a b : string) :
  list_ascii_of_string (a ++ b)
  = (list_ascii_of_string a ++ list_ascii_of_string b)%list.
Proof. induction a; simpl; congruence. Qed.

Lemma no_slash_append a b : no_slash (a ++ b) = no_slash a && no_slash b.
Proof. unfold no_slash. now rewrite chars_append, forallb_app. Qed.

Lemma segment_no_slash s : segment s = true -> no_slash s = true.
Proof.
  unfold segment. intros H.
  repeat (apply andb_prop in H; destruct H as [H ?]). exact H.
Qed.

Lemma segment_nonempty s : segment s = true -> s <> "".
Proof.
  unfold segment. intros H E. subst s. discriminate.
Qed.

(** A slash-free string of three characters or more is a segment. *)
Lemma long_segment s :
  no_slash s = true -> 3 <= String.length s -> segment s = true.
Proof.
  intros N L. unfold segment. rewrite N.
  destruct s as [|a [|b [|c s]]]; simpl in L; try lia.
  cbn. destruct (Ascii.eqb a "."); [|reflexivity].
  destruct (Ascii.eqb b "."); reflexivity.
Qed.

Lemma length_append a b : String.length (a ++ b) = String.length a + String.length b.
Proof. induction a; simpl; congruence. Qed.

(** *** Splitting *)

Lemma split_nonempty s : split s <> [].
Proof.
  destruct s as [|c s]; simpl; [discriminate|].
  destruct (is_slash c); [discriminate|].
  destruct (split s); discriminate.
Qed.

Lemma split_no_slash s : no_slash s = true -> split s = [s].
Proof.
  unfold no_slash. induction s as [|c s IH]; simpl; auto.
  intros H. apply andb_prop in H. destruct H as [C H].
  apply negb_true_iff in C. rewrite C. now rewrite IH.
Qed.

Lemma split_append_slash a b :
  no_slash a = true -> split (a ++ "/" ++ b) = a :: split b.
Proof.
  change ("/" ++ b) with (String "/" b).
  unfold no_slash. induction a as [|c a IH]; simpl; auto.
  intros H. apply andb_prop in H. destruct H as [C H].
  apply negb_true_iff in C. rewrite C. now rewrite IH.
Qed.

Lemma split_concat segs :
  segs <> [] -> forallb no_slash segs = true ->
  split (String.concat "/" segs) = segs.
Proof.
  induction segs as [|a segs IH]; [congruence|]. intros _ H.
  simpl in H. apply andb_prop in H. destruct H as [A H].
  destruct segs as [|b segs].
  - simpl. now apply split_no_slash.
  - change (String.concat "/" (a :: b :: segs))
      with (a ++ "/" ++ String.concat "/" (b :: segs)).
    rewrite split_append_slash by exact A.
    rewrite IH; auto. discriminate.
Qed.

Lemma concat_app (l1 l2 : list string) :
  l1 <> [] -> l2 <> [] ->
  String.concat "/" (l1 ++ l2)
  = String.concat "/" l1 ++ "/" ++ String.concat "/" l2.
Proof.
  induction l1 as [|a l1 IH]; [congruence|]. intros _ N.
  destruct l1 as [|b l1].
  - destruct l2; [congruence|]. reflexivity.
  - change (String.concat "/" ((a :: b :: l1) ++ l2))
      with (a ++ "/" ++ String.concat "/" ((b :: l1) ++ l2)).
    rewrite IH by (auto; discriminate).
    change (String.concat "/" (a :: b :: l1))
      with (a ++ "/" ++ String.concat "/" (b :: l1)).
    now rewrite !append_assoc.
Qed.

(** *** Normalizing *)

Lemma push_segment_good allow stack seg :
  segment seg = true -> push_segment allow stack seg = seg :: stack.
Proof.
  unfold segment, push_segment. intros H.
  repeat (apply andb_prop in H; destruct H as [H ?]).
  repeat match goal with
         | X : negb _ = true |- _ => apply negb_true_iff in X; rewrite X
         end.
  reflexivity.
Qed.

Lemma push_segments_good allow segs : forall stack,
  forallb segment segs = true ->
  fold_left (push_segment allow) segs stack = (rev segs ++ stack)%list.
Proof.
  induction segs as [|a segs IH]; intros stack H; auto.
  simpl in H. apply andb_prop in H. destruct H as [A H].
  simpl. rewrite push_segment_good by exact A.
  rewrite IH by exact H. now rewrite <- app_assoc.
Qed.

Lemma push_segment_empty allow stack : push_segment allow stack "" = stack.
Proof. reflexivity. Qed.

Lemma push_segment_up allow top below :
  segment top = true -> push_segment allow (top :: below) ".." = below.
Proof.
  unfold segment, push_segment. intros H.
  repeat (apply andb_prop in H; destruct H as [H ?]).
  cbn [String.eqb Ascii.eqb Bool.eqb orb].
  match goal with
  | X : negb (String.eqb top "..") = true |- _ => apply negb_true_iff in X; rewrite X
  end.
  reflexivity.
Qed.

Lemma split_concat_append segs rest :
  forallb no_slash segs = true ->
  split (String.concat "/" segs ++ "/" ++ rest)
  = ((match segs with [] => [""] | _ => segs end) ++ split rest)%list.
Proof.
  induction segs as [|a segs IH]; intros H.
  - reflexivity.
  - simpl in H. apply andb_prop in H. destruct H as [A H].
    destruct segs as [|b segs].
    + cbn [String.concat app]. now apply split_append_slash.
    + change (String.concat "/" (a :: b :: segs))
        with (a ++ "/" ++ String.concat "/" (b :: segs)).
      rewrite !append_assoc.
      rewrite <- (append_assoc (String.concat "/" (b :: segs))).
      change ("/" ++ String.concat "/" (b :: segs) ++ "/" ++ rest)
        with ("/" ++ (String.concat "/" (b :: segs) ++ "/" ++ rest)).
      rewrite split_append_slash by exact A.
      rewrite append_assoc, IH by exact H. reflexivity.
Qed.

Lemma segments_no_slash segs :
  forallb segment segs = true -> forallb no_slash segs = true.
Proof.
  rewrite !forallb_forall. intros H s I. apply segment_no_slash. now apply H.
Qed.

Lemma segment_not_absolute s : segment s = true -> isAbsolute s = false.
Proof.
  intros H. pose proof (segment_no_slash _ H) as N.
  destruct s as [|c s]; auto. unfold no_slash in N. simpl in N.
  apply andb_prop in N. destruct N as [N _]. now apply negb_true_iff in N.
Qed.

Lemma segment_eqb_empty s : segment s = true -> String.eqb s "" = false.
Proof. intros H. apply String.eqb_neq. now apply segment_nonempty. Qed.

(** The segments of a normalized absolute path followed by more. *)
Lemma normalize_absolute segs rest :
  forallb segment segs = true ->
  fold_left (push_segment false) (split (absolute segs ++ "/" ++ rest)) []
  = fold_left (push_segment false) (split rest) (rev segs).
Proof.
  intros H. unfold absolute.
  change ("/" ++ String.concat "/" segs) with ("" ++ "/" ++ String.concat "/" segs).
  rewrite !append_assoc.
  rewrite split_append_slash by reflexivity.
  rewrite split_concat_append by now apply segments_no_slash.
  cbn [fold_left]. rewrite push_segment_empty.
  rewrite fold_left_app. f_equal.
  destruct segs as [|a segs]; [reflexivity|].
  rewrite push_segments_good by exact H. apply app_nil_r.
Qed.

Lemma absolute_eqb_empty segs : String.eqb (absolute segs) "" = false.
Proof. reflexivity. Qed.

Lemma absolute_isAbsolute segs : isAbsolute (absolute segs) = true.
Proof. reflexivity. Qed.

Lemma split_up_make rest :
  split ("../make" ++ "/" ++ rest) = ".." :: "make" :: split rest.
Proof.
  change ("../make" ++ "/" ++ rest) with (".." ++ "/" ++ ("make" ++ "/" ++ rest)).
  now rewrite !split_append_slash by reflexivity.
Qed.

(** Resolving a child of a normalized absolute path. *)
Lemma resolve_child cwd segs name :
  forallb segment segs = true -> segment name = true ->
  resolve cwd [absolute segs; name] = absolute (segs ++ [name]).
Proof.
  intros H N. unfold resolve. cbn [rev app resolve_loop].
  rewrite (segment_eqb_empty _ N), (segment_not_absolute _ N).
  rewrite absolute_eqb_empty, absolute_isAbsolute.
  cbv beta iota. change (negb true) with false.
  unfold normalizeString.
  rewrite normalize_absolute by exact H.
  rewrite split_append_slash by now apply segment_no_slash.
  cbn [split fold_left]. rewrite (push_segment_good _ _ name) by exact N.
  rewrite push_segment_empty. cbn [rev]. now rewrite rev_involutive.
Qed.

(** Resolving [../make/<file>] against a normalized absolute path. *)
Lemma resolve_sibling cwd segs name file :
  forallb segment (segs ++ [name]) = true -> segment file = true ->
  resolve cwd [absolute (segs ++ [name]); "../make"; file]
  = absolute (segs ++ ["make"; file]).
Proof.
  intros H F. unfold resolve. cbn [rev app resolve_loop].
  rewrite (segment_eqb_empty _ F), (segment_not_absolute _ F).
  change (String.eqb "../make" "") with false.
  change (isAbsolute "../make") with false.
  rewrite absolute_eqb_empty, absolute_isAbsolute.
  cbv beta iota. change (negb true) with false.
  unfold normalizeString.
  rewrite normalize_absolute by exact H.
  rewrite split_up_make.
  rewrite split_append_slash by now apply segment_no_slash.
  cbn [split fold_left]. rewrite rev_app_distr. cbn [rev app].
  rewrite forallb_app in H. apply andb_prop in H. destruct H as [_ H].
  cbn [forallb] in H. rewrite andb_true_r in H.
  rewrite push_segment_up by exact H.
  rewrite (push_segment_good _ _ "make") by reflexivity.
  rewrite (push_segment_good _ _ file) by exact F.
  rewrite push_segment_empty. cbn [rev]. rewrite rev_involutive.
  now rewrite <- !app_assoc.
Qed.

Lemma resolve_self cwd segs :
  forallb segment segs = true -> resolve cwd [absolute segs] = absolute segs.
Proof.
  intros H. unfold resolve. cbn [rev app resolve_loop].
  rewrite absolute_eqb_empty, absolute_isAbsolute.
  cbv beta iota. change (negb true) with false.
  unfold normalizeString.
  rewrite normalize_absolute by exact H.
  cbn [split fold_left]. rewrite push_segment_empty. now rewrite rev_involutive.
Qed.

(** *** Parent and last segment *)

Lemma no_slash_chars s :
  no_slash s = true -> Forall (fun c => is_slash c = false) (list_ascii_of_string s).
Proof.
  unfold no_slash. rewrite forallb_forall, Forall_forall.
  intros H c I. apply negb_true_iff. now apply H.
Qed.

Lemma chars_absolute_child segs name :
  list_ascii_of_string (absolute (segs ++ [name]))
  = (match segs with
     | [] => []
     | _ => list_ascii_of_string (absolute segs)
     end ++ slash :: list_ascii_of_string name)%list.
Proof.
  unfold absolute. destruct segs as [|a segs]; [reflexivity|].
  rewrite concat_app by discriminate.
  change ("/" ++ String.concat "/" (a :: segs) ++ "/" ++ String.concat "/" [name])
    with (("/" ++ String.concat "/" (a :: segs)) ++ "/" ++ name).
  now rewrite chars_append.
Qed.

Lemma dirname_scan_segment l : forall rest matched,
  Forall (fun c => is_slash c = false) l -> l <> [] ->
  dirname_scan (l ++ rest) matched = dirname_scan rest false.
Proof.
  induction l as [|c l IH]; intros rest matched F N; [congruence|].
  inversion F as [|? ? C F']; subst. cbn [app dirname_scan]. rewrite C.
  destruct l as [|c' l]; [reflexivity|]. apply IH; auto. discriminate.
Qed.

Lemma chars_nonempty s : s <> "" -> list_ascii_of_string s <> [].
Proof. destruct s; [congruence | discriminate]. Qed.

Lemma rev_nonempty {A} (l : list A) : l <> [] -> rev l <> [].
Proof.
  intros N E. apply N. rewrite <- (rev_involutive l), E. reflexivity.
Qed.

Lemma Forall_rev_chars s :
  no_slash s = true -> Forall (fun c => is_slash c = false) (rev (list_ascii_of_string s)).
Proof. intros H. apply Forall_rev. now apply no_slash_chars. Qed.

(** The parent of a normalized absolute path. *)
Lemma dirname_child segs name :
  forallb segment (segs ++ [name]) = true ->
  dirname (absolute (segs ++ [name])) = absolute segs.
Proof.
  intros H. rewrite forallb_app in H. apply andb_prop in H. destruct H as [Hs Hn].
  cbn [forallb] in Hn. rewrite andb_true_r in Hn.
  pose proof (Forall_rev_chars _ (segment_no_slash _ Hn)) as F.
  pose proof (rev_nonempty _ (chars_nonempty _ (segment_nonempty _ Hn))) as N.
  destruct segs as [|a segs].
  - unfold absolute, dirname. cbn [app String.concat append].
    rewrite <- (app_nil_r (rev (list_ascii_of_string name))).
    rewrite dirname_scan_segment by assumption. reflexivity.
  - assert (NC : String.concat "/" (a :: segs) <> "").
    { cbn [forallb] in Hs. apply andb_prop in Hs. destruct Hs as [Ha _].
      pose proof (segment_nonempty _ Ha) as Na.
      destruct segs; cbn [String.concat]; [exact Na|].
      destruct a; [congruence | discriminate]. }
    unfold absolute. rewrite concat_app by discriminate.
    change (String.concat "/" [name]) with name.
    remember (String.concat "/" (a :: segs)) as C eqn:EC. clear EC.
    change ("/" ++ C ++ "/" ++ name) with (String "/" (C ++ String "/" name)).
    unfold dirname. cbv beta iota.
    rewrite chars_append. cbn [list_ascii_of_string].
    rewrite rev_app_distr. cbn [rev]. rewrite <- app_assoc. cbn [app].
    rewrite dirname_scan_segment by assumption.
    cbn [dirname_scan]. change (is_slash "/") with true. cbv iota.
    destruct (rev (list_ascii_of_string C)) eqn:E.
    + exfalso. apply rev_nonempty in E; auto. now apply chars_nonempty.
    + rewrite <- E, rev_involutive, string_of_list_ascii_of_string. reflexivity.
Qed.

Lemma take_segment_app l rest :
  Forall (fun c => is_slash c = false) l ->
  take_segment (l ++ slash :: rest) = l.
Proof.
  induction 1 as [|c l C F IH]; cbn [app take_segment].
  - reflexivity.
  - rewrite C. now rewrite IH.
Qed.

Lemma drop_slashes_segment l rest :
  Forall (fun c => is_slash c = false) l -> l <> [] ->
  drop_slashes (l ++ rest) = (l ++ rest)%list.
Proof.
  intros F N. destruct l as [|c l]; [congruence|].
  inversion F; subst. cbn [app drop_slashes]. now rewrite H1.
Qed.

(** The last segment of a normalized absolute path. *)
Lemma basename_child segs name :
  segment name = true -> basename (absolute (segs ++ [name])) = name.
Proof.
  intros Hn.
  pose proof (Forall_rev_chars _ (segment_no_slash _ Hn)) as F.
  pose proof (rev_nonempty _ (chars_nonempty _ (segment_nonempty _ Hn))) as N.
  unfold basename. rewrite chars_absolute_child, rev_app_distr.
  cbn [rev]. rewrite <- app_assoc. cbn [app].
  rewrite drop_slashes_segment by assumption.
  rewrite take_segment_app by assumption.
  now rewrite rev_involutive, string_of_list_ascii_of_string.
Qed.

End PathFacts.

(** ** The file tree *)

Section TreeFacts.

Import Path.

Lemma lookup_store_same p n t : lookup p (store p n t) = Some n.
Proof.
  induction t as [|[p' n'] t IH]; simpl.
  - now rewrite String.eqb_refl.
  - destruct (String.eqb p p') eqn:E; simpl; rewrite ?String.eqb_refl, ?E; auto.
Qed.

Lemma lookup_store_other p q n t : p <> q -> lookup p (store q n t) = lookup p t.
Proof.
  intros N. induction t as [|[p' n'] t IH]; simpl.
  - apply String.eqb_neq in N. now rewrite N.
  - destruct (String.eqb q p') eqn:E; simpl.
    + apply String.eqb_eq in E. subst p'.
      apply String.eqb_neq in N. now rewrite N.
    + now rewrite IH.
Qed.

Lemma is_dir_store p q t : is_dir p t = true -> is_dir p (store q Dir t) = true.
Proof.
  unfold is_dir. intros H.
  destruct (String.eqb_spec p q) as [->|N].
  - now rewrite lookup_store_same.
  - now rewrite lookup_store_other.
Qed.

Lemma make_dirs_keeps ps : forall t t' p,
  make_dirs ps t = Ok t' -> is_dir p t = true -> is_dir p t' = true.
Proof.
  induction ps as [|q ps IH]; intros t t' p H D.
  - inversion H. now subst.
  - simpl in H. destruct (lookup q t) as [[| |]|] eqn:E; try discriminate.
    + eapply IH; eauto.
    + eapply IH; eauto. now apply is_dir_store.
Qed.

(** [mkdirs] leaves every path it was asked for as a directory. *)
Lemma make_dirs_makes ps : forall t t' p,
  make_dirs ps t = Ok t' -> In p ps -> is_dir p t' = true.
Proof.
  induction ps as [|q ps IH]; intros t t' p H I; [contradiction|].
  simpl in H. destruct I as [->|I].
  - destruct (lookup p t) as [[| |]|] eqn:E; try discriminate.
    + eapply make_dirs_keeps; eauto. unfold is_dir. now rewrite E.
    + eapply make_dirs_keeps; eauto. unfold is_dir. now rewrite lookup_store_same.
  - destruct (lookup q t) as [[| |]|] eqn:E; try discriminate; eapply IH; eauto.
Qed.

Lemma prefixes_last segs : forall base,
  segs <> [] -> In (base ++ "/" ++ String.concat "/" segs) (prefixes base segs).
Proof.
  induction segs as [|a segs IH]; intros base N; [congruence|].
  destruct segs as [|b segs].
  - now left.
  - right.
    change (String.concat "/" (a :: b :: segs))
      with (a ++ "/" ++ String.concat "/" (b :: segs)).
    replace (base ++ "/" ++ a ++ "/" ++ String.concat "/" (b :: segs))
      with ((base ++ "/" ++ a) ++ "/" ++ String.concat "/" (b :: segs)).
    + apply IH. discriminate.
    + rewrite !append_assoc. reflexivity.
Qed.

Lemma filter_segments segs :
  forallb segment segs = true ->
  filter (fun seg => negb (String.eqb seg "")) segs = segs.
Proof.
  induction segs as [|a segs IH]; intros H; auto.
  cbn [forallb] in H. apply andb_prop in H. destruct H as [A H].
  cbn [filter]. rewrite (segment_eqb_empty _ A). cbn [negb]. now rewrite IH.
Qed.

Lemma lineage_self segs :
  forallb segment segs = true -> In (absolute segs) (lineage (absolute segs)).
Proof.
  intros H. unfold lineage.
  destruct segs as [|a segs]; [now left|]. right.
  unfold absolute at 2.
  change ("/" ++ String.concat "/" (a :: segs))
    with ("" ++ "/" ++ String.concat "/" (a :: segs)).
  rewrite split_append_slash by reflexivity.
  rewrite split_concat by (try discriminate; now apply segments_no_slash).
  change (filter (fun seg => negb (String.eqb seg "")) ("" :: a :: segs))
    with (filter (fun seg => negb (String.eqb seg "")) (a :: segs)).
  rewrite filter_segments by exact H.
  apply (prefixes_last (a :: segs) ""). discriminate.
Qed.

End TreeFacts.

(** ** The zip maker *)

Section ZipMakerFacts.

Import Path ZipMaker.

Lemma zip_name_segment name version :
  segment name = true -> no_slash version = true ->
  segment (name ++ "-" ++ version ++ ".zip") = true.
Proof.
  intros N V. apply long_segment.
  - rewrite !no_slash_append, (segment_no_slash _ N), V. reflexivity.
  - rewrite !length_append. cbn [String.length]. lia.
Qed.

Lemma app_name_segment appName :
  no_slash appName = true -> segment (appName ++ ".app") = true.
Proof.
  intros N. apply long_segment.
  - now rewrite no_slash_append, N.
  - rewrite length_append. cbn [String.length]. lia.
Qed.

Lemma last_segment segs name :
  forallb segment (segs ++ [name]) = true -> segment name = true.
Proof.
  rewrite forallb_app. intros H. apply andb_prop in H. destruct H as [_ H].
  cbn [forallb] in H. now rewrite andb_true_r in H.
Qed.

Lemma init_segments segs name :
  forallb segment (segs ++ [name]) = true -> forallb segment segs = true.
Proof.
  rewrite forallb_app. intros H. now apply andb_prop in H.
Qed.

(** C5.  For a staged build directory given as a normalized absolute
    path [<parent>/<name>] and a manifest whose version is a string (or
    another primitive that prints) without a separator, the maker's
    output path is [<parent>/make/<name>-<version>.zip], where
    [<parent>] is the parent of the directory and [<name>] its base
    name; the archive root is [<dir>/<appName>.app] on darwin and the
    directory itself otherwise; the [make] directory is created first,
    the archive is written into a tree where it exists, and the output
    path is returned (unless one of the two steps fails).  A manifest
    that is [undefined] or [null] has no version to read: the maker
    throws a type error before it creates anything. *)
Theorem makeZip_output (env : Env) (segs : list string)
    (name appName targetPlatform : string) (packageJSON : value) (w : World) :
  forallb segment (segs ++ [name]) = true ->
  no_slash appName = true ->
  let dir := absolute (segs ++ [name]) in
  let makeDir := absolute (segs ++ ["make"]) in
  let root :=
    if String.eqb targetPlatform "darwin"
    then absolute (segs ++ [name; appName ++ ".app"])
    else dir in
  (dirname dir = absolute segs /\ basename dir = name)
  /\ zipDir env dir appName targetPlatform = root
  /\ (packageJSON = VUndefined \/ packageJSON = VNull ->
      exists what,
        zipPath env dir packageJSON = Err (TypeError what)
        /\ makeZip env dir appName targetPlatform packageJSON w
           = (Throw (TypeError what), w))
  /\ (packageJSON <> VUndefined -> packageJSON <> VNull ->
      let version := field "version" packageJSON in
      printable version = true ->
      no_slash (to_string version) = true ->
      let out :=
        absolute (segs ++ ["make"; name ++ "-" ++ to_string version ++ ".zip"]) in
      zipPath env dir packageJSON = Ok out
      /\ makeZip env dir appName targetPlatform packageJSON w =
           match make_dirs (lineage makeDir) (tree w) with
           | Err e =>
               (Throw e,
                {| tree := tree w; user := user w; asked := asked w;
                   trace := EMkdirs makeDir :: trace w |})
           | Ok made =>
               match zip env root out made with
               | Err e =>
                   (Throw e,
                    {| tree := made; user := user w; asked := asked w;
                       trace := EZip root out :: EMkdirs makeDir :: trace w |})
               | Ok zipped =>
                   (Ret [out],
                    {| tree := zipped; user := user w; asked := asked w;
                       trace := EZip root out :: EMkdirs makeDir :: trace w |})
               end
           end
      /\ (forall made, make_dirs (lineage makeDir) (tree w) = Ok made ->
                       is_dir makeDir made = true)).
Proof.
  intros Hd Ha dir makeDir root.
  pose proof (last_segment _ _ Hd) as Hn.
  pose proof (init_segments _ _ Hd) as Hs.
  assert (Hmake : forallb segment (segs ++ ["make"]) = true).
  { rewrite forallb_app, Hs. reflexivity. }
  assert (Eroot : zipDir env dir appName targetPlatform = root).
  { unfold zipDir, root, dir. destruct (String.eqb targetPlatform "darwin"); auto.
    rewrite resolve_child by auto using app_name_segment.
    now rewrite <- app_assoc. }
  split; [split|split; [|split]].
  - now apply dirname_child.
  - now apply basename_child.
  - exact Eroot.
  - intros [-> | ->]; eexists; (split; [reflexivity|]);
      unfold makeZip, zipPath, bind; reflexivity.
  - intros N1 N2 version Hp Hv out.
    assert (Eread : read_field "version" packageJSON = Ok version).
    { destruct packageJSON; try reflexivity; congruence. }
    assert (Epath : zipPath env dir packageJSON = Ok out).
    { unfold zipPath. rewrite Eread. cbn [rbind]. f_equal.
      unfold dir. rewrite basename_child by exact Hn.
      apply resolve_sibling; auto using zip_name_segment. }
    assert (Emake : dirname out = makeDir).
    { unfold out, makeDir.
      change (segs ++ ["make"; (name ++ "-" ++ to_string version ++ ".zip")%string])%list
        with (segs ++ ["make"] ++ [(name ++ "-" ++ to_string version ++ ".zip")%string])%list.
      rewrite app_assoc. apply dirname_child.
      rewrite forallb_app, Hmake. cbn [forallb].
      rewrite zip_name_segment by assumption. reflexivity. }
    split; [exact Epath|]. split.
    + unfold makeZip. rewrite Epath, Eroot.
      unfold bind at 1. cbn [lift]. unfold ret at 1.
      unfold ensureFile, Fs.mkdirs, Fs.abs. rewrite Emake.
      unfold makeDir at 1 2. rewrite resolve_self by exact Hmake. fold makeDir.
      unfold call, bind, emit, get_tree, put_tree, lift, ret, throw.
      cbn [tree trace user asked].
      destruct (make_dirs (lineage makeDir) (tree w)) as [made|e]; [|reflexivity].
      cbn [tree trace user asked].
      destruct (zip env root out made) as [zipped|e]; reflexivity.
    + intros made H. eapply make_dirs_makes; eauto. now apply lineage_self.
Qed.

End ZipMakerFacts.

(** Witness of C5: the example of the specification. *)
Lemma makeZip_output_witness :
  let packageJSON := VObj [("name", VStr "MyApp"); ("version", VStr "1.2.3")] in
  let run :=
    ZipMaker.makeZip Sample.zipper "/tmp/build/MyApp" "MyApp" "darwin" packageJSON
      (Sample.silent [("/", Dir)]) in
  ZipMaker.zipPath Sample.zipper "/tmp/build/MyApp" packageJSON
  = Ok "/tmp/build/make/MyApp-1.2.3.zip"
  /\ ZipMaker.zipDir Sample.zipper "/tmp/build/MyApp" "MyApp" "darwin"
     = "/tmp/build/MyApp/MyApp.app"
  /\ fst run = Ret ["/tmp/build/make/MyApp-1.2.3.zip"]
  /\ trace (snd run)
     = [EZip "/tmp/build/MyApp/MyApp.app" "/tmp/build/make/MyApp-1.2.3.zip";
        EMkdirs "/tmp/build/make"].
Proof.
  cbv zeta.
  destruct (makeZip_output Sample.zipper ["tmp"; "build"] "MyApp" "MyApp" "darwin"
              (VObj [("name", VStr "MyApp"); ("version", VStr "1.2.3")])
              (Sample.silent [("/", Dir)]) eq_refl eq_refl)
    as (_ & R & _ & Main).
  destruct Main as (P & E & _); [discriminate | discriminate | reflexivity | reflexivity |].
  repeat apply conj.
  - exact P.
  - exact R.
  - change (ZipMaker.makeZip Sample.zipper "/tmp/build/MyApp")
      with (ZipMaker.makeZip Sample.zipper (Path.absolute (["tmp"; "build"] ++ ["MyApp"]))).
    rewrite E. reflexivity.
  - change (ZipMaker.makeZip Sample.zipper "/tmp/build/MyApp")
      with (ZipMaker.makeZip Sample.zipper (Path.absolute (["tmp"; "build"] ++ ["MyApp"]))).
    rewrite E. reflexivity.
Defined.

Section StringFacts.

Lemma prefix_append needle : forall a b,
  String.prefix needle a = true -> String.prefix needle (a ++ b) = true.
Proof.
  induction needle as [|n needle IH]; intros a b H;
    [destruct (a ++ b); reflexivity|].
  destruct a as [|c a]; [discriminate|].
  simpl in H |- *. destruct (ascii_dec n c); [now apply IH | discriminate].
Qed.

Lemma prefix_self needle : String.prefix needle needle = true.
Proof.
  induction needle as [|n needle IH]; [reflexivity|].
  simpl. destruct (ascii_dec n n); congruence.
Qed.

Lemma includes_append needle a b :
  includes needle a = true -> includes needle (a ++ b) = true.
Proof.
  induction a as [|c a IH]; intros H.
  - simpl in H. rewrite orb_false_r in H.
    pose proof (prefix_append needle "" b H) as P. cbn [append] in P |- *.
    destruct b; cbn [includes]; rewrite P; reflexivity.
  - cbn [includes] in H. apply orb_prop in H. cbn [append includes].
    destruct H as [H|H].
    + pose proof (prefix_append needle (String c a) b H) as P.
      cbn [append] in P. now rewrite P.
    + rewrite IH by exact H. apply orb_true_r.
Qed.

Lemma includes_self needle s : includes needle (s ++ needle) = true.
Proof.
  induction s as [|c s IH].
  - cbn [append]. destruct needle as [|n needle]; [reflexivity|].
    cbn [includes]. now rewrite prefix_self.
  - cbn [append includes]. rewrite IH. apply orb_true_r.
Qed.

(** Text without [out] has no [out/] either, not even across the
    appended line break. *)
Lemma no_out_prefix s :
  includes "out" s = false ->
  String.prefix "out/" (s ++ String "010"%char "out/") = false.
Proof.
  intros H.
  destruct s as [|a [|b [|c s]]]; cbn [append].
  - reflexivity.
  - cbn -[ascii_dec]. destruct (ascii_dec "o" a); reflexivity.
  - cbn -[ascii_dec]. destruct (ascii_dec "o" a); [|reflexivity].
    destruct (ascii_dec "u" b); reflexivity.
  - cbn [includes] in H. apply orb_false_elim in H. destruct H as [H _].
    cbn -[ascii_dec] in H |- *.
    destruct (ascii_dec "o" a); [|reflexivity].
    destruct (ascii_dec "u" b); [|reflexivity].
    destruct (ascii_dec "t" c); [|reflexivity].
    destruct s; discriminate.
Qed.

Lemma occurrences_appended s :
  includes "out" s = false ->
  occurrences "out/" (s ++ String "010"%char "out/") = 1.
Proof.
  induction s as [|c s IH]; intros H.
  - reflexivity.
  - pose proof (no_out_prefix _ H) as P.
    cbn [includes] in H. apply orb_false_elim in H. destruct H as [_ H].
    cbn [append occurrences]. cbn [append] in P. rewrite P. now rewrite IH.
Qed.

End StringFacts.

(** ** Running file-system calls *)

Section FsFacts.

Variable cwd : string.

Lemma run_exists p w :
  Fs.exists_ cwd p w
  = (Ret (match lookup (Fs.abs cwd p) (tree w) with Some _ => true | None => false end), w).
Proof. reflexivity. Qed.

Lemma run_readFile p w content :
  lookup (Fs.abs cwd p) (tree w) = Some content -> content <> Dir ->
  Fs.readFile cwd p w = (Ret content, w).
Proof.
  intros H N. unfold Fs.readFile, bind, get_tree. rewrite H.
  destruct content; auto. congruence.
Qed.

Lemma run_writeFile p content w :
  is_dir (Path.dirname (Fs.abs cwd p)) (tree w) = true ->
  is_dir (Fs.abs cwd p) (tree w) = false ->
  Fs.writeFile cwd p content w
  = (Ret tt,
     {| tree := store (Fs.abs cwd p) content (tree w); user := user w;
        asked := asked w;
        trace := EWriteFile (Fs.abs cwd p) content :: trace w |}).
Proof.
  intros D F. unfold Fs.writeFile, bind, emit, get_tree, put_tree, throw.
  cbn [tree trace user asked]. now rewrite D, F.
Qed.

Lemma run_readPackageJSON dir v w :
  lookup (Fs.abs cwd (Path.resolve cwd [dir; "package.json"])) (tree w)
  = Some (Json v) ->
  Fs.readPackageJSON cwd dir w = (Ret v, w).
Proof.
  intros H. unfold Fs.readPackageJSON, bind.
  rewrite (run_readFile _ _ _ H) by discriminate. reflexivity.
Qed.

End FsFacts.

Section GitignoreFacts.

Import ImportApi.

Variable env : Env.

Lemma includes_out_appended s :
  includes "out" (s ++ String "010"%char "out/") = true.
Proof.
  change (String "010"%char "out/") with (String "010"%char "" ++ "out" ++ "/").
  rewrite <- append_assoc, <- append_assoc.
  apply includes_append. apply includes_self.
Qed.

(** What the step does to a world in which the ignore file holds the
    text [s]. *)
Lemma run_fixGitignore dir s w :
  let path := Fs.abs (cwd env) (Path.resolve (cwd env) [dir; ".gitignore"]) in
  lookup path (tree w) = Some (Text s) ->
  is_dir (Path.dirname path) (tree w) = true ->
  fixGitignore env dir w =
  (Ret tt,
   if includes "out" s then
     {| tree := tree w; user := user w; asked := asked w;
        trace := ESpinner "Fixing .gitignore" :: trace w |}
   else
     {| tree := store path (Text (s ++ String "010"%char "out/")) (tree w);
        user := user w; asked := asked w;
        trace := EWriteFile path (Text (s ++ String "010"%char "out/"))
                 :: ESpinner "Fixing .gitignore" :: trace w |}).
Proof.
  intros path H D.
  unfold fixGitignore, Fs.asyncOra.
  unfold bind at 1. unfold emit at 1.
  unfold bind at 1. rewrite run_exists. cbn [tree]. fold path. rewrite H.
  unfold bind at 1. erewrite run_readFile; [|cbn [tree]; fold path; exact H|discriminate].
  cbn [Fs.text_of].
  destruct (includes "out" s) eqn:E; cbn [negb]; [reflexivity|].
  rewrite run_writeFile; cbn [tree trace user asked]; fold path; auto.
  unfold is_dir. now rewrite H.
Qed.

(** C6 (as amended).  When the ignore file exists, import appends a line
    [out/] if the text of the file does not contain [out] anywhere, and
    leaves the file as it is otherwise; a second run changes nothing, so
    a file with at most one [out/] still has at most one. *)
Theorem fixGitignore_appends_once (dir s : string) (w : World) :
  let path := Fs.abs (cwd env) (Path.resolve (cwd env) [dir; ".gitignore"]) in
  lookup path (tree w) = Some (Text s) ->
  is_dir (Path.dirname path) (tree w) = true ->
  let once := fixGitignore env dir w in
  let twice := fixGitignore env dir (snd once) in
  fst once = Ret tt
  /\ lookup path (tree (snd once))
     = Some (Text (if includes "out" s then s else s ++ String "010"%char "out/"))
  /\ (includes "out" s = true -> tree (snd once) = tree w)
  /\ fst twice = Ret tt
  /\ tree (snd twice) = tree (snd once)
  /\ (occurrences "out/" s <= 1 ->
      forall s', lookup path (tree (snd twice)) = Some (Text s') ->
                 occurrences "out/" s' <= 1).
Proof.
  intros path H D once twice.
  assert (E1 : once = fixGitignore env dir w) by reflexivity.
  rewrite (run_fixGitignore dir s w H D) in E1. fold path in E1.
  destruct (includes "out" s) eqn:I.
  - assert (E2 : twice = fixGitignore env dir (snd once)) by reflexivity.
    rewrite E1 in E2. cbn [snd] in E2.
    rewrite (run_fixGitignore dir s) in E2 by (cbn [tree]; assumption).
    rewrite I in E2. rewrite E2, E1. cbn [fst snd tree].
    repeat split; auto.
    intros L s' H'. rewrite H in H'. inversion H'. now subst.
  - assert (E2 : twice = fixGitignore env dir (snd once)) by reflexivity.
    rewrite E1 in E2. cbn [snd] in E2.
    rewrite (run_fixGitignore dir (s ++ String "010"%char "out/")) in E2.
    + rewrite includes_out_appended in E2. rewrite E2, E1. cbn [fst snd tree].
      fold path. rewrite lookup_store_same.
      repeat split; auto; try discriminate.
      intros L s' H'. inversion H'. subst s'.
      now rewrite occurrences_appended.
    + cbn [tree]. fold path. apply lookup_store_same.
    + cbn [tree]. fold path. unfold is_dir in D |- *.
      destruct (String.eqb_spec (Path.dirname path) path) as [Eq|N].
      * rewrite Eq, H in D. discriminate.
      * now rewrite lookup_store_other.
Qed.

End GitignoreFacts.

(** Witness of C6: an ignore file without [out]. *)
Lemma fixGitignore_appends_once_witness :
  let once := ImportApi.fixGitignore Sample.forge "/proj" Sample.legacy_project in
  let twice := ImportApi.fixGitignore Sample.forge "/proj" (snd once) in
  lookup "/proj/.gitignore" (tree (snd once))
  = Some (Text ("node_modules" ++ String "010"%char "out/"))
  /\ tree (snd twice) = tree (snd once).
Proof.
  destruct (fixGitignore_appends_once Sample.forge "/proj" "node_modules"
              Sample.legacy_project eq_refl eq_refl)
    as (_ & L & _ & _ & T & _).
  cbv zeta. split; [exact L | exact T].
Defined.

(** C6 (as stated) fails on an ignore file that has no [out/] entry but
    contains the letters [out] elsewhere: nothing is appended. *)
Lemma fixGitignore_substring_counterexample :
  let run := ImportApi.fixGitignore Sample.forge "/proj" Sample.layout_project in
  lookup "/proj/.gitignore" (tree Sample.layout_project) = Some (Text "layout.css")
  /\ includes "out/" "layout.css" = false
  /\ fst run = Ret tt
  /\ tree (snd run) = tree Sample.layout_project.
Proof. cbv zeta. repeat split. Qed.

(** ** Import *)

Section ImportFacts.

Import ImportApi.

Variable env : Env.

(** C2.  When the directory does not exist, or exists without a
    [package.json], import exits with status 1; all it has done by then
    is print one error line: the file tree is the one it started from
    and no file-changing event has taken place. *)
Theorem import_missing_project (options : Options) (w : World) :
  let dir := match dir options with Some d => d | None => cwd env end in
  let manifest := Path.resolve (cwd env) [dir; "package.json"] in
  lookup (Fs.abs (cwd env) dir) (tree w) = None
  \/ lookup (Fs.abs (cwd env) manifest) (tree w) = None ->
  exists w',
    importProject env options w = (Exit 1, w')
    /\ tree w' = tree w
    /\ trace w' = EConsole "error" ("We couldn't find a project in: " ++ dir) :: trace w
    /\ mutates (EConsole "error" ("We couldn't find a project in: " ++ dir)) = false.
Proof.
  intros dir manifest H.
  unfold importProject. fold dir. fold manifest.
  unfold bind at 1. unfold bind at 1. unfold bind at 1.
  unfold Fs.exists_ at 1. unfold bind at 1, get_tree at 1, ret at 1.
  destruct (lookup (Fs.abs (cwd env) dir) (tree w)) eqn:Ed.
  - destruct H as [H|H]; [discriminate|].
    cbn [negb]. unfold bind at 1. unfold Fs.exists_ at 1.
    unfold bind at 1, get_tree at 1, ret at 1. fold manifest. rewrite H.
    unfold ret at 1. cbn [negb].
    eexists. split; [reflexivity|]. cbn. auto.
  - cbn [negb]. unfold ret at 1.
    eexists. split; [reflexivity|]. cbn. auto.
Qed.

End ImportFacts.

(** Witness of C2: importing a directory that does not exist. *)
Lemma import_missing_project_witness :
  let run :=
    ImportApi.importProject Sample.forge
      {| ImportApi.dir := Some "/elsewhere"; ImportApi.interactive := Some true |}
      Sample.legacy_project in
  fst run = Exit 1 /\ tree (snd run) = tree Sample.legacy_project.
Proof.
  destruct (import_missing_project Sample.forge
              {| ImportApi.dir := Some "/elsewhere"; ImportApi.interactive := Some true |}
              Sample.legacy_project (or_introl eq_refl))
    as (w' & E & T & _).
  cbv zeta. rewrite E. split; [reflexivity | exact T].
Defined.

Section ScanFacts.

Import ImportApi DeepMergeSpec.

Lemma get_drop_dependencies key packageJSON :
  get "dependencies" (drop key packageJSON)
  = delete_field key (get "dependencies" packageJSON).
Proof.
  unfold drop. rewrite get_set_other by discriminate. apply get_set_same.
Qed.

Lemma get_drop_devDependencies key packageJSON :
  get "devDependencies" (drop key packageJSON)
  = delete_field key (get "devDependencies" packageJSON).
Proof.
  unfold drop. rewrite get_set_same. now rewrite get_set_other by discriminate.
Qed.

Lemma has_delete k key o : has k (delete key o) = negb (String.eqb k key) && has k o.
Proof.
  destruct (String.eqb_spec k key) as [->|N].
  - apply has_delete_same.
  - now apply has_delete_other.
Qed.

(** One round of the loop: it always completes, touches no file, and
    either leaves the manifest alone or drops the key. *)
Lemma run_scan_key interactive st key w :
  exists st' w',
    scan_key interactive st key w = (Ret st', w')
    /\ tree w' = tree w
    /\ (manifest st' = manifest st
        \/ (manifest st' = drop key (manifest st)
            /\ (is_legacy key = true \/ truthy (member key buildToolPackages) = true)))
    /\ (is_legacy key = true -> manifest st' = drop key (manifest st))
    /\ electronName st' = (if is_legacy key then Some key else electronName st).
Proof.
  unfold scan_key.
  destruct (is_legacy key) eqn:L.
  - do 2 eexists. split; [reflexivity|]. cbn [manifest electronName]. auto 6.
  - destruct (truthy (member key buildToolPackages)) eqn:B.
    + destruct interactive; cbn [negb].
      * unfold bind, prompt.
        destruct (truthy (user w (asked w))); unfold ret;
          do 2 eexists; (split; [reflexivity|]); cbn [manifest electronName tree];
          intuition congruence.
      * unfold bind, ret. cbn [truthy].
        do 2 eexists. split; [reflexivity|]. cbn [manifest electronName].
        intuition congruence.
    + do 2 eexists. split; [reflexivity|]. intuition congruence.
Qed.

Lemma find_legacy_snoc names key :
  find is_legacy (rev (key :: names))
  = match find is_legacy (rev names) with
    | Some k => Some k
    | None => if is_legacy key then Some key else None
    end.
Proof.
  cbn [rev]. generalize (rev names) as l.
  induction l as [|a l IH]; cbn [app find]; [reflexivity|].
  destruct (is_legacy a); auto.
Qed.

(** The whole loop, for a manifest whose two dependency sections are
    mappings [d] and [v]. *)
Lemma run_scan_keys interactive names : forall st w d v,
  get "dependencies" (manifest st) = VObj d ->
  get "devDependencies" (manifest st) = VObj v ->
  exists st' w' d' v',
    scan_keys interactive names st w = (Ret st', w')
    /\ tree w' = tree w
    /\ get "dependencies" (manifest st') = VObj d'
    /\ get "devDependencies" (manifest st') = VObj v'
    /\ (forall k, has k d' = true -> has k d = true)
    /\ (forall k, has k v' = true -> has k v = true)
    /\ (forall k, is_legacy k = true -> In k names ->
                  has k d' = false /\ has k v' = false)
    /\ (forall k, is_legacy k = false ->
                  truthy (member k buildToolPackages) = false ->
                  get k d' = get k d /\ get k v' = get k v)
    /\ electronName st'
       = match find is_legacy (rev names) with
         | Some k => Some k
         | None => electronName st
         end.
Proof.
  induction names as [|key names IH]; intros st w d v Hd Hv.
  - exists st, w, d, v. cbn [scan_keys rev find]. unfold ret.
    repeat split; auto. all: contradiction.
  - destruct (run_scan_key interactive st key w)
      as (st1 & w1 & E1 & T1 & M1 & L1 & N1).
    assert (S1 : exists d1 v1,
               get "dependencies" (manifest st1) = VObj d1
               /\ get "devDependencies" (manifest st1) = VObj v1
               /\ (forall k, has k d1 = true -> has k d = true)
               /\ (forall k, has k v1 = true -> has k v = true)
               /\ (is_legacy key = true -> has key d1 = false /\ has key v1 = false)
               /\ (forall k, is_legacy k = false ->
                             truthy (member k buildToolPackages) = false ->
                             get k d1 = get k d /\ get k v1 = get k v)).
    { destruct M1 as [M1|[M1 B1]].
      - exists d, v. rewrite M1. repeat apply conj; auto.
        intros L. specialize (L1 L). rewrite M1 in L1.
        assert (Ed : get "dependencies" (drop key (manifest st)) = VObj d) by congruence.
        assert (Ev : get "devDependencies" (drop key (manifest st)) = VObj v) by congruence.
        rewrite get_drop_dependencies, Hd in Ed. cbn [delete_field] in Ed.
        rewrite get_drop_devDependencies, Hv in Ev. cbn [delete_field] in Ev.
        inversion Ed as [Ed']. inversion Ev as [Ev'].
        rewrite <- Ed' at 1. rewrite <- Ev' at 1. auto using has_delete_same.
      - exists (delete key d), (delete key v). rewrite M1.
        rewrite get_drop_dependencies, get_drop_devDependencies, Hd, Hv.
        cbn [delete_field]. repeat apply conj; auto using has_delete_same.
        + intros k H. rewrite has_delete in H. now apply andb_prop in H.
        + intros k H. rewrite has_delete in H. now apply andb_prop in H.
        + intros k L B.
          assert (N : k <> key) by (intros ->; destruct B1; congruence).
          split; now apply get_delete_other. }
    destruct S1 as (d1 & v1 & Hd1 & Hv1 & Sd & Sv & Lk & Fk).
    destruct (IH st1 w1 d1 v1 Hd1 Hv1)
      as (st' & w' & d' & v' & E & T & Hd' & Hv' & Sd' & Sv' & Lk' & Fk' & N').
    exists st', w', d', v'.
    split; [|split; [|split; [|split; [|split; [|split; [|split; [|split]]]]]]]; auto.
    + cbn [scan_keys]. unfold bind. now rewrite E1.
    + congruence.
    + intros k L [->|I]; [|now apply Lk'].
      destruct (Lk L) as [A B]. split.
      * destruct (has k d') eqn:X; auto. apply Sd' in X. congruence.
      * destruct (has k v') eqn:X; auto. apply Sv' in X. congruence.
    + intros k L B. destruct (Fk' k L B) as [A1 A2], (Fk k L B) as [B1 B2].
      split; congruence.
    + rewrite N', N1, find_legacy_snoc.
      destruct (find is_legacy (rev names)); auto.
      destruct (is_legacy key); auto.
Qed.

End ScanFacts.

Section DependencyFacts.

Import ImportApi DeepMergeSpec.

Variable env : Env.


Lemma is_mapping_inv v : is_mapping v = true -> exists o, v = VObj o.
Proof. destruct v; try discriminate. eauto. Qed.

(** What the scan starts from and what it is run on. *)
Lemma scanDependencies_unfold interactive packageJSON d v :
  or_else (get "dependencies" packageJSON) (VObj []) = VObj d ->
  or_else (get "devDependencies" packageJSON) (VObj []) = VObj v ->
  exists start,
    scanDependencies interactive packageJSON
    = scan_keys interactive (keys d ++ keys v)
        {| manifest := start; electronName := None |}
    /\ get "dependencies" start = VObj d
    /\ get "devDependencies" start = VObj v.
Proof.
  intros Hd Hv. unfold scanDependencies.
  rewrite Hd.
  rewrite (get_set_other "devDependencies" "dependencies") by discriminate.
  rewrite Hv. rewrite get_set_same.
  rewrite (get_set_other "dependencies" "devDependencies") by discriminate.
  rewrite get_set_same. cbn [own_props].
  eexists. split; [reflexivity|].
  rewrite get_set_same.
  rewrite (get_set_other "dependencies" "devDependencies") by discriminate.
  now rewrite get_set_same.
Qed.


(** C9.  Pinning writes [electron-prebuilt-compile] into the
    dev-dependencies only: whatever the outcome of scan and pin, the
    regular dependencies after them are the ones the scan left, which
    have no name the manifest did not declare there, and the pinned
    version sits in the dev-dependencies whenever a legacy runtime was
    found. *)
Theorem import_pins_dev_dependency_only
    (interactive : bool) (dir : string) (packageJSON : props) (w w1 w2 : World)
    (st : scan) (electronVersion : value) (pinned : props) :
  is_mapping (or_else (get "dependencies" packageJSON) (VObj [])) = true ->
  is_mapping (or_else (get "devDependencies" packageJSON) (VObj [])) = true ->
  scanDependencies interactive packageJSON w = (Ret st, w1) ->
  pinElectron env dir st w1 = (Ret (electronVersion, pinned), w2) ->
  get "dependencies" pinned = get "dependencies" (manifest st)
  /\ (forall k,
        has k (own_props (get "dependencies" pinned)) = true ->
        has k (own_props (or_else (get "dependencies" packageJSON) (VObj []))) = true)
  /\ (electronName st <> None ->
      has "electron-prebuilt-compile" (own_props (get "devDependencies" pinned)) = true
      /\ field "electron-prebuilt-compile" (get "devDependencies" pinned)
         = electronVersion).
Proof.
  intros Md Mv Hscan Hpin.
  destruct (is_mapping_inv _ Md) as [d Hd], (is_mapping_inv _ Mv) as [v Hv].
  destruct (scanDependencies_unfold interactive packageJSON d v Hd Hv)
    as (start & E & Sd & Sv).
  destruct (run_scan_keys interactive (keys d ++ keys v)
              {| manifest := start; electronName := None |} w d v Sd Sv)
    as (st' & w' & d' & v' & R & T & Hd' & Hv' & Kd & Kv & L & F & N).
  rewrite E, R in Hscan. inversion Hscan. subst st' w'. clear Hscan.
  rewrite Hd.
  unfold pinElectron in Hpin.
  destruct (electronName st) as [name|] eqn:En.
  - unfold bind at 1 in Hpin.
    destruct (Fs.readPackageJSON (cwd env)
                (Path.resolve (cwd env) [dir; "node_modules"; name]) w1)
      as [[installed| |] w3]; try discriminate.
    unfold bind at 1 in Hpin.
    destruct (lift (read_field "version" installed) w3)
      as [[version| |] w4] eqn:Ev; try discriminate.
    rewrite Hv' in Hpin. cbn in Hpin. inversion Hpin. subst. clear Hpin.
    rewrite get_set_same.
    rewrite (get_set_other "dependencies" "devDependencies") by discriminate.
    rewrite Hd'. unfold field. cbn [own_props].
    rewrite get_set_same, has_set_same. repeat apply conj; auto.
  - unfold ret in Hpin. inversion Hpin. subst. clear Hpin.
    rewrite Hd'. cbn [own_props]. repeat apply conj; auto. congruence.
Qed.

End DependencyFacts.


(** Witness of C9: the same project; the pin goes to the
    dev-dependencies and the regular dependencies gain nothing. *)
Lemma import_pins_dev_dependency_only_witness :
  exists st w1 pinned w2,
    ImportApi.scanDependencies false Sample.legacy_manifest Sample.legacy_project
    = (Ret st, w1)
    /\ ImportApi.pinElectron Sample.forge "/proj" st w1 = (Ret (VStr "1.4.13", pinned), w2)
    /\ has "electron-prebuilt-compile" (own_props (get "dependencies" pinned)) = false
    /\ has "electron-prebuilt-compile" (own_props (get "devDependencies" pinned)) = true.
Proof.
  do 4 eexists. split; [reflexivity|]. split; [reflexivity|].
  match goal with
  | |- has _ (own_props (get _ ?p)) = false /\ _ =>
      destruct (import_pins_dev_dependency_only Sample.forge false "/proj"
                  Sample.legacy_manifest Sample.legacy_project _ _ _ (VStr "1.4.13") p
                  eq_refl eq_refl eq_refl eq_refl) as (_ & K & D)
  end.
  split.
  - match goal with |- ?h = false => destruct h eqn:X; [|reflexivity] end.
    apply K in X. discriminate X.
  - apply D. discriminate.
Defined.

Section JsonFacts.

Lemma is_json_members o :
  is_json (VObj o) = forallb (fun kv => is_json (snd kv)) o.
Proof.
  cbn [is_json]. induction o as [|[k x] o IH]; cbn [forallb snd]; auto.
  now rewrite IH.
Qed.

Lemma is_json_elements o :
  is_json (VArr o) = forallb (fun kv => is_index (fst kv) && is_json (snd kv)) o.
Proof.
  cbn [is_json]. induction o as [|[k x] o IH]; cbn [forallb fst snd]; auto.
  now rewrite IH.
Qed.

Lemma is_json_serialisable v : is_json v = true -> unserialisable v = false.
Proof. destruct v; auto; discriminate. Qed.

(** Writing a JSON value and reading it back gives the value. *)
Lemma jsonify_json v : is_json v = true -> jsonify v = v.
Proof.
  induction v as [| |b|n|s|f|o IH|o IH] using value_induction;
    intros J; try reflexivity.
  - rewrite is_json_elements in J. cbn [jsonify]. f_equal.
    induction o as [|[k x] o IHo]; auto.
    cbn [forallb fst snd] in J. apply andb_prop in J. destruct J as [Jx J].
    apply andb_prop in Jx. destruct Jx as [Jk Jx].
    inversion IH as [|? ? Hx Ho]; subst. cbn [snd] in Hx.
    rewrite Jk, (is_json_serialisable _ Jx), (Hx Jx), (IHo Ho J). reflexivity.
  - rewrite is_json_members in J. cbn [jsonify]. f_equal.
    induction o as [|[k x] o IHo]; auto.
    cbn [forallb snd] in J. apply andb_prop in J. destruct J as [Jx J].
    inversion IH as [|? ? Hx Ho]; subst. cbn [snd] in Hx.
    rewrite (is_json_serialisable _ Jx), (Hx Jx), (IHo Ho J). reflexivity.
Qed.

Lemma is_json_set k v o :
  is_json v = true -> is_json (VObj o) = true -> is_json (VObj (set k v o)) = true.
Proof.
  rewrite !is_json_members. intros Jv.
  induction o as [|[k' v'] o IH]; cbn [set forallb snd].
  - now rewrite Jv.
  - intros J. apply andb_prop in J. destruct J as [J1 J2].
    destruct (String.eqb k k'); cbn [forallb snd].
    + now rewrite Jv, J2.
    + now rewrite J1, IH.
Qed.

End JsonFacts.

Section BabelFacts.

Import ImportApi.

Variable env : Env.

(** C10.  When [.compilerc] holds a JSON object, the babel step writes
    that object back with [application/javascript] set to the legacy
    babel configuration itself (whatever the key held before), every
    other top-level key keeping its value. *)
Theorem portBabelConfig_assigns
    (dir : string) (compileConfig : props) (babelConfig : value) (w : World) :
  let compilePath :=
    Fs.abs (cwd env) (Path.resolve (cwd env) [dir; ".compilerc"]) in
  lookup compilePath (tree w) = Some (Json (VObj compileConfig)) ->
  is_dir (Path.dirname compilePath) (tree w) = true ->
  is_json (VObj compileConfig) = true ->
  is_json babelConfig = true ->
  exists written,
    portBabelConfig env dir babelConfig w
    = (Ret tt,
       {| tree := store compilePath (Json (VObj written)) (tree w);
          user := user w; asked := asked w;
          trace := EWriteFile compilePath (Json (VObj written))
                   :: ESpinner "Porting original babel config" :: trace w |})
    /\ get "application/javascript" written = babelConfig
    /\ (forall k, k <> "application/javascript" ->
          get k written = get k compileConfig
          /\ has k written = has k compileConfig).
Proof.
  intros compilePath H D Jc Jb.
  exists (set "application/javascript" babelConfig compileConfig).
  split; [|split].
  - unfold portBabelConfig, Fs.asyncOra.
    unfold bind at 1. unfold emit at 1.
    unfold bind at 1. rewrite run_exists. cbn [tree]. fold compilePath. rewrite H.
    unfold bind at 1. unfold bind at 1.
    rewrite (run_readFile _ _ _ (Json (VObj compileConfig)))
      by (cbn [tree]; fold compilePath; auto; discriminate).
    cbn [Fs.JSON_parse lift]. unfold ret at 1.
    unfold bind at 1.
    cbn [Object_assign_value lift Object_assign fold_left assign1 own_props fst snd].
    unfold ret at 1.
    rewrite jsonify_json by now apply is_json_set.
    rewrite run_writeFile; cbn [tree trace user asked]; fold compilePath; auto.
    unfold is_dir. now rewrite H.
  - apply get_set_same.
  - intros k N. split; [now apply get_set_other | now apply has_set_other].
Qed.

End BabelFacts.

(** Witness of C10: a sidecar file with a previous value under the
    key. *)
Lemma portBabelConfig_assigns_witness :
  let babelConfig := VObj [("presets", array [VStr "es2015"])] in
  exists written,
    lookup "/proj/.compilerc"
      (tree (snd (ImportApi.portBabelConfig Sample.forge "/proj" babelConfig
                    Sample.legacy_project)))
    = Some (Json (VObj written))
    /\ get "application/javascript" written = babelConfig
    /\ get "text/less" written = VObj [("dumpLineNumbers", VStr "comments")].
Proof.
  cbv zeta.
  destruct (portBabelConfig_assigns Sample.forge "/proj"
              [("text/less", VObj [("dumpLineNumbers", VStr "comments")]);
               ("application/javascript", VObj [("sourceMaps", VBool true)])]
              (VObj [("presets", array [VStr "es2015"])])
              Sample.legacy_project eq_refl eq_refl eq_refl eq_refl)
    as (written & E & A & K).
  exists written. rewrite E. cbn [snd tree]. rewrite lookup_store_same.
  repeat apply conj; auto.
  destruct (K "text/less") as [G _]; [discriminate|]. exact G.
Defined.

Section HookFacts.

Import PackageApi.

Variable env : Env.
Variable dir : string.

Lemma elements_array l : forall n, map snd (index_from n l) = l.
Proof. induction l as [|v l IH]; intros n; cbn [index_from map snd]; congruence. Qed.

Lemma find_loaded (found : list (option value)) :
  match find (fun x => match x with Some _ => true | None => false end) found with
  | Some (Some _) => existsb (fun x => match x with Some _ => true | None => false end) found = true
  | Some None => False
  | None => existsb (fun x => match x with Some _ => true | None => false end) found = false
  end.
Proof.
  induction found as [|[c|] found IH]; cbn [find existsb]; auto.
Qed.

Lemma existsb_map {A B} (f : A -> B) (p : B -> bool) l :
  existsb p (map f l) = existsb (fun a => p (f a)) l.
Proof. induction l; cbn [map existsb]; congruence. Qed.

Lemma requireSearch_one name :
  if resolvable env dir name
  then exists callable, requireSearch env dir [name] = Ok callable
  else requireSearch env dir [name] = Err (Unresolved [name]).
Proof.
  unfold requireSearch, resolvable. cbn [flat_map]. rewrite app_nil_r.
  pose proof (find_loaded (map (load env) (candidates env dir name))) as F.
  rewrite existsb_map in F.
  destruct (find _ (map (load env) (candidates env dir name))) as [[c|]|].
  - rewrite F. eauto.
  - contradiction.
  - now rewrite F.
Qed.

Lemma resolveHooks_array hooks :
  resolveHooks env (array hooks) dir
  = map_result
      (fun hook => if is_string hook then requireSearch env dir [to_string hook]
                   else Ok hook)
      hooks.
Proof. unfold resolveHooks, array. cbn [truthy]. now rewrite elements_array. Qed.

(** C8.  A hook list is resolved entry by entry, in order: an entry
    that is not a string is passed through as it is, a string is
    replaced by what the search finds; and if some string cannot be
    resolved, the call fails with an error that names an unresolved
    entry of the list, so nothing is skipped. *)
Theorem resolveHooks_surfaces_unresolved (hooks : list value) :
  (forall resolved,
     resolveHooks env (array hooks) dir = Ok resolved ->
     Forall2 (fun hook out =>
                if is_string hook then requireSearch env dir [to_string hook] = Ok out
                else out = hook)
       hooks resolved)
  /\ ((exists name, In (VStr name) hooks /\ resolvable env dir name = false) ->
      exists name,
        In (VStr name) hooks /\ resolvable env dir name = false
        /\ resolveHooks env (array hooks) dir = Err (Unresolved [name]))
  /\ ((forall name, In (VStr name) hooks -> resolvable env dir name = true) ->
      exists resolved, resolveHooks env (array hooks) dir = Ok resolved).
Proof.
  rewrite resolveHooks_array.
  induction hooks as [|hook hooks IH].
  - repeat apply conj.
    + intros resolved H. inversion H. constructor.
    + intros (name & [] & _).
    + intros _. now exists [].
  - destruct IH as (IH1 & IH2 & IH3).
    cbn [map_result]. repeat apply conj.
    + intros resolved H.
      destruct (is_string hook) eqn:S.
      * destruct (requireSearch env dir [to_string hook]) as [out|e] eqn:R;
          [|discriminate]. cbn [rbind] in H.
        destruct (map_result _ hooks) as [outs|e] eqn:Rs; [|discriminate].
        cbn [rbind] in H. inversion H. subst resolved.
        constructor; [now rewrite S | now apply IH1].
      * cbn [rbind] in H.
        destruct (map_result _ hooks) as [outs|e] eqn:Rs; [|discriminate].
        cbn [rbind] in H. inversion H. subst resolved.
        constructor; [now rewrite S | now apply IH1].
    + intros (name & I & U).
      destruct hook as [| |b|n|s|f|o|o]; cbn [is_string rbind];
        try (destruct I as [I|I]; [discriminate|];
             destruct (IH2 (ex_intro _ name (conj I U))) as (name' & I' & U' & E');
             exists name'; rewrite E'; now auto using in_cons).
      cbn [to_string]. pose proof (requireSearch_one s) as R.
      destruct (resolvable env dir s) eqn:Rs.
      * destruct R as [callable R]. rewrite R. cbn [rbind].
        destruct I as [I|I]; [inversion I; congruence|].
        destruct (IH2 (ex_intro _ name (conj I U))) as (name' & I' & U' & E').
        exists name'. rewrite E'. auto using in_cons.
      * rewrite R. exists s. cbn [rbind]. auto using in_eq.
    + intros A.
      destruct (IH3 (fun name I => A name (in_cons _ _ _ I))) as [outs E].
      rewrite E.
      destruct hook as [| |b|n|s|f|o|o]; cbn [is_string rbind]; eauto.
      cbn [to_string]. pose proof (requireSearch_one s) as R.
      rewrite (A s (in_eq _ _)) in R. destruct R as [callable R].
      rewrite R. cbn [rbind]. eauto.
Qed.

End HookFacts.

(** Witness of C8: a hook named by path next to a function, and a name
    that resolves nowhere. *)
Lemma resolveHooks_surfaces_unresolved_witness :
  PackageApi.resolveHooks Sample.engine (array [VStr "hooks/sign.js"; VFun "notify"]) "/proj"
  = Ok [VFun "sign"; VFun "notify"]
  /\ exists name,
       In (VStr name) [VFun "notify"; VStr "hooks/missing.js"]
       /\ PackageApi.resolveHooks Sample.engine
            (array [VFun "notify"; VStr "hooks/missing.js"]) "/proj"
          = Err (Unresolved [name]).
Proof.
  split; [reflexivity|].
  destruct (resolveHooks_surfaces_unresolved Sample.engine "/proj"
              [VFun "notify"; VStr "hooks/missing.js"]) as (_ & U & _).
  destruct U as (name & I & _ & E).
  - exists "hooks/missing.js". split; [right; left; reflexivity | reflexivity].
  - exists name. split; [exact I | exact E].
Defined.

(** ** Events of a computation *)

Section EventFacts.

Variable P : event -> Prop.

Lemma emits_only_ret {A} (a : A) : emits_only P (ret a).
Proof. intros w e H. now left. Qed.

Lemma emits_only_throw {A} x : emits_only P (@throw A x).
Proof. intros w e H. now left. Qed.

Lemma emits_only_lift {A} (r : result A) : emits_only P (lift r).
Proof. destruct r; [apply emits_only_ret | apply emits_only_throw]. Qed.

Lemma emits_only_get_tree : emits_only P get_tree.
Proof. intros w e H. now left. Qed.

Lemma emits_only_put_tree t : emits_only P (put_tree t).
Proof. intros w e H. now left. Qed.

Lemma emits_only_emit e : P e -> emits_only P (emit e).
Proof. intros Pe w e' [<-|H]; auto. Qed.

Lemma emits_only_bind {A B} (m : M A) (k : A -> M B) :
  emits_only P m -> (forall a, emits_only P (k a)) -> emits_only P (bind m k).
Proof.
  intros Hm Hk w e. unfold bind.
  specialize (Hm w e). destruct (m w) as [[a|c|x] w1]; cbn [snd] in Hm |- *; auto.
  intros H. destruct (Hk a w1 e H); auto.
Qed.

(** The continuation of a pure step only runs on its result. *)
Lemma emits_only_bind_lift {A B} (r : result A) (k : A -> M B) :
  (forall a, r = Ok a -> emits_only P (k a)) -> emits_only P (bind (lift r) k).
Proof.
  intros Hk. destruct r as [a|x]; intros w e; unfold bind, lift, ret, throw.
  - now apply Hk.
  - now left.
Qed.

Lemma emits_only_call e c : P e -> emits_only P (call e c).
Proof.
  intros Pe. unfold call.
  apply emits_only_bind; [now apply emits_only_emit|]. intros _.
  apply emits_only_bind; [apply emits_only_get_tree|]. intros t.
  destruct (c t); [apply emits_only_put_tree | apply emits_only_throw].
Qed.

Lemma emits_only_readPackageJSON cwd dir : emits_only P (Fs.readPackageJSON cwd dir).
Proof.
  unfold Fs.readPackageJSON, Fs.readFile.
  apply emits_only_bind.
  - apply emits_only_bind; [apply emits_only_get_tree|]. intros t.
    destruct (lookup _ t) as [[| |]|];
      auto using emits_only_ret, emits_only_throw.
  - intros content. apply emits_only_lift.
Qed.

End EventFacts.

Section PackageFacts.

Import PackageApi.

Variable env : Env.

(** In the options the literal with [arch] comes after the project
    configuration. *)
Lemma packageOpts_arch forgeConfig packageJSON dir arch platform outDir options :
  packageOpts env forgeConfig packageJSON dir arch platform outDir = Ok options ->
  get "arch" options = VStr arch.
Proof.
  intros H. unfold packageOpts in H.
  repeat match type of H with
         | rbind ?r _ = Ok _ => destruct r; cbn [rbind] in H; [|discriminate]
         end.
  inversion H. subst options. clear H.
  rewrite get_set_other by discriminate.
  cbn [Object_assign fold_left]. unfold assign1 at 1.
  cbn [own_props fold_left fst snd].
  repeat (rewrite get_set_other by discriminate).
  apply get_set_same.
Qed.

Lemma packageProject_emits (options : Options) :
  let arch := match arch options with Some a => a | None => hostArch env end in
  emits_only
    (fun e => match e with
              | EPackager packageOpts => get "arch" packageOpts = VStr arch
              | _ => True
              end)
    (packageProject env options).
Proof.
  intros arch. unfold packageProject. fold arch.
  apply emits_only_bind; [now apply emits_only_emit|]. intros _.
  apply emits_only_bind; [apply emits_only_get_tree|]. intros t.
  destruct (resolveDir env t _) as [root|]; [|apply emits_only_throw].
  destruct (String.eqb root ""); [apply emits_only_throw|].
  apply emits_only_bind; [apply emits_only_readPackageJSON|]. intros packageJSON.
  apply emits_only_bind; [apply emits_only_lift|]. intros main.
  destruct main; try apply emits_only_throw.
  apply emits_only_bind; [apply emits_only_get_tree|]. intros t'.
  destruct (require_resolve env t' _) as [entry|]; [|apply emits_only_throw].
  destruct (String.eqb (Path.dirname entry) root).
  { apply emits_only_bind; [now apply emits_only_emit|]. intros _.
    apply emits_only_throw. }
  apply emits_only_bind; [apply emits_only_get_tree|]. intros t''.
  apply emits_only_bind; [apply emits_only_lift|]. intros forgeConfig.
  apply emits_only_bind_lift. intros opts E.
  repeat first
    [ apply emits_only_ret | apply emits_only_throw | apply emits_only_lift
    | apply emits_only_get_tree | apply emits_only_put_tree
    | apply emits_only_call; exact I
    | apply emits_only_emit;
      first [exact I | eapply packageOpts_arch; eassumption]
    | apply emits_only_bind; [|intros ?]
    | match goal with
      | |- emits_only _ (if ?b then _ else _) => destruct b
      end ].
Qed.

(** C7.  The label shown while preparing replaces the architecture
    [all] by [ia32] and shows any other architecture as given, whereas
    every options object that a run of packaging hands to the packaging
    engine carries the architecture as given, [all] included, whatever
    the project configuration says. *)
Theorem packageProject_arch_literal (options : Options) (w : World) :
  let arch := match arch options with Some a => a | None => hostArch env end in
  (forall packageOpts,
     In (EPackager packageOpts) (trace (snd (packageProject env options w))) ->
     In (EPackager packageOpts) (trace w) \/ get "arch" packageOpts = VStr arch)
  /\ preparing "all" = "Preparing to Package Application for arch: ia32"
  /\ (arch <> "all" ->
      preparing arch = "Preparing to Package Application for arch: " ++ arch).
Proof.
  intros arch. repeat apply conj.
  - intros packageOpts H.
    exact (packageProject_emits options w (EPackager packageOpts) H).
  - reflexivity.
  - intros N. unfold preparing. apply String.eqb_neq in N. now rewrite N.
Qed.


End PackageFacts.

(** Witness of C7: packaging for [all] a project whose configuration
    asks for [ia32]. *)
Lemma packageProject_arch_literal_witness :
  let run :=
    PackageApi.packageProject Sample.engine
      {| PackageApi.dir := Some "/proj"; PackageApi.interactive := None;
         PackageApi.arch := Some "all"; PackageApi.platform := None;
         PackageApi.outDir := None |}
      Sample.nested_project in
  fst run = Ret tt
  /\ In (ESpinner "Preparing to Package Application for arch: ia32") (trace (snd run))
  /\ field "arch" (field "electronPackagerConfig" Sample.project_config) = VStr "ia32"
  /\ exists packageOpts,
       In (EPackager packageOpts) (trace (snd run))
       /\ get "arch" packageOpts = VStr "all".
Proof.
  cbv zeta. split; [reflexivity|]. split; [vm_compute; tauto|]. split; [reflexivity|].
  eexists. split.
  - vm_compute. right. right. left. reflexivity.
  - match goal with
    | |- get "arch" ?o = _ =>
        destruct (proj1 (packageProject_arch_literal Sample.engine
                           {| PackageApi.dir := Some "/proj";
                              PackageApi.interactive := None;
                              PackageApi.arch := Some "all";
                              PackageApi.platform := None;
                              PackageApi.outDir := None |}
                           Sample.nested_project) o) as [[]|H]
    end.
    + vm_compute. right. right. left. reflexivity.
    + exact H.
Defined.


(* ================================================================== *)
(** * Further properties *)

(** ** The config resolver, beyond the conflict rule *)

Section ResolveConfigMore.

Import Lodash DeepMergeSpec ConfigResolver.

#[local] Arguments baseMergeDeep : simpl never.

(** X2.  A key that only one of the two configurations has, with a
    value free of arrays and [undefined], is carried over unchanged. *)
Theorem resolveConfig_one_sided (config : configs) (pkgArch dir outPath k : string) :
  unique_keys (shared config) = true ->
  unique_keys (maker config) = true ->
  k <> "arch" -> k <> "dest" -> k <> "src" ->
  let merged := resolveConfig config pkgArch dir outPath in
  (has k (shared config) = true -> has k (maker config) = false ->
   plain (get k (shared config)) = true ->
   get k merged = get k (shared config))
  /\ (has k (shared config) = false -> has k (maker config) = true ->
      plain (get k (maker config)) = true ->
      get k merged = get k (maker config)).
Proof.
  intros Us Um Na Nd Ns merged. subst merged. rewrite resolveConfig_unfold.
  assert (R : has k (own_props (runtime pkgArch dir outPath)) = false).
  { cbn. apply String.eqb_neq in Na, Nd, Ns. now rewrite Na, Nd, Ns. }
  split.
  - intros Hs Hm P.
    rewrite get_baseMerge_absent by exact R.
    rewrite get_baseMerge_absent by exact Hm.
    rewrite get_baseMerge_defined by (auto using plain_not_undefined).
    cbn [get]. apply baseMergeDeep_copy; auto.
  - intros Hs Hm P.
    rewrite get_baseMerge_absent by exact R.
    rewrite get_baseMerge_defined by (auto using plain_not_undefined).
    rewrite get_baseMerge_absent by exact Hs.
    cbn [get]. apply baseMergeDeep_copy; auto.
Qed.

(** X3.  A maker-specific value [undefined] does not override: the
    merged configuration keeps the shared value under that key. *)
Theorem resolveConfig_undefined_skipped
    (config : configs) (pkgArch dir outPath k : string) :
  unique_keys (shared config) = true ->
  unique_keys (maker config) = true ->
  k <> "arch" -> k <> "dest" -> k <> "src" ->
  has k (shared config) = true ->
  plain (get k (shared config)) = true ->
  has k (maker config) = true ->
  get k (maker config) = VUndefined ->
  get k (resolveConfig config pkgArch dir outPath) = get k (shared config).
Proof.
  intros Us Um Na Nd Ns Hs P Hm U. rewrite resolveConfig_unfold.
  rewrite get_baseMerge_absent.
  2:{ cbn. apply String.eqb_neq in Na, Nd, Ns. now rewrite Na, Nd, Ns. }
  rewrite get_baseMerge_present by assumption. rewrite U.
  rewrite get_baseMerge_defined by (auto using plain_not_undefined).
  cbn [get]. apply baseMergeDeep_copy; auto.
Qed.

End ResolveConfigMore.

Lemma resolveConfig_one_sided_witness :
  get "bin"
    (ConfigResolver.resolveConfig
       {| ConfigResolver.shared := [("bin", VStr "app")];
          ConfigResolver.maker := [("icon", VStr "b.png")] |}
       "x64" "/out/app" "/out/make/app.deb") = VStr "app".
Proof.
  exact (proj1 (resolveConfig_one_sided
                  {| ConfigResolver.shared := [("bin", VStr "app")];
                     ConfigResolver.maker := [("icon", VStr "b.png")] |}
                  "x64" "/out/app" "/out/make/app.deb" "bin"
                  eq_refl eq_refl
                  ltac:(discriminate) ltac:(discriminate) ltac:(discriminate))
           eq_refl eq_refl eq_refl).
Defined.

Lemma resolveConfig_undefined_skipped_witness :
  get "icon"
    (ConfigResolver.resolveConfig
       {| ConfigResolver.shared := [("icon", VStr "a.png")];
          ConfigResolver.maker := [("icon", VUndefined)] |}
       "x64" "/out/app" "/out/make/app.deb") = VStr "a.png".
Proof.
  exact (resolveConfig_undefined_skipped
           {| ConfigResolver.shared := [("icon", VStr "a.png")];
              ConfigResolver.maker := [("icon", VUndefined)] |}
           "x64" "/out/app" "/out/make/app.deb" "icon"
           eq_refl eq_refl
           ltac:(discriminate) ltac:(discriminate) ltac:(discriminate)
           eq_refl eq_refl eq_refl eq_refl).
Defined.

(** ** The dependency scan, mode by mode *)

Section ScanModes.

Import ImportApi DeepMergeSpec.

Lemma get_delete_same k o : get k (delete k o) = VUndefined.
Proof. apply get_absent, has_delete_same. Qed.

(** What dropping the names picked by [removable] does to the two
    dependency sections. *)
Lemma drop_selected (removable : string -> bool) names : forall packageJSON d v,
  get "dependencies" packageJSON = VObj d ->
  get "devDependencies" packageJSON = VObj v ->
  let dropped :=
    fold_left (fun pj key => if removable key then drop key pj else pj)
      names packageJSON in
  let gone k := removable k && existsb (String.eqb k) names in
  exists d' v',
    get "dependencies" dropped = VObj d'
    /\ get "devDependencies" dropped = VObj v'
    /\ (forall k, has k d' = has k d && negb (gone k))
    /\ (forall k, has k v' = has k v && negb (gone k))
    /\ (forall k, gone k = false -> get k d' = get k d /\ get k v' = get k v).
Proof.
  induction names as [|key names IH]; intros packageJSON d v Hd Hv dropped gone.
  - exists d, v. subst dropped gone. cbn [fold_left existsb].
    repeat apply conj; auto; intros k; rewrite andb_false_r; cbn [negb];
      now rewrite andb_true_r.
  - subst dropped gone. cbn [fold_left existsb].
    destruct (removable key) eqn:R.
    + destruct (IH (drop key packageJSON) (delete key d) (delete key v))
        as (d' & v' & Hd' & Hv' & Sd & Sv & G).
      { now rewrite get_drop_dependencies, Hd. }
      { now rewrite get_drop_devDependencies, Hv. }
      exists d', v'. repeat apply conj; auto.
      * intros k. rewrite Sd, has_delete.
        destruct (String.eqb_spec k key) as [Ek|N]; cbn [negb orb andb].
        -- subst k. rewrite R. cbn. now rewrite andb_false_r.
        -- reflexivity.
      * intros k. rewrite Sv, has_delete.
        destruct (String.eqb_spec k key) as [Ek|N]; cbn [negb orb andb].
        -- subst k. rewrite R. cbn. now rewrite andb_false_r.
        -- reflexivity.
      * intros k Gk. cbv beta in Gk.
        destruct (String.eqb_spec k key) as [Ek|N].
        -- subst k. rewrite R in Gk. discriminate.
        -- cbn [orb] in Gk. destruct (G k Gk) as [A B].
           rewrite A, B. split; now apply get_delete_other.
    + destruct (IH packageJSON d v Hd Hv) as (d' & v' & Hd' & Hv' & Sd & Sv & G).
      exists d', v'.
      assert (E : forall k,
                 removable k && (String.eqb k key || existsb (String.eqb k) names)
                 = removable k && existsb (String.eqb k) names).
      { intros k. destruct (String.eqb_spec k key) as [->|N]; [|reflexivity].
        now rewrite R. }
      repeat apply conj; auto.
      * intros k. now rewrite E.
      * intros k. now rewrite E.
      * intros k Gk. rewrite E in Gk. now apply G.
Qed.

(** The scan in non-interactive mode: no question is asked, and every
    legacy or build-tool name is dropped. *)
Lemma run_scan_keys_silent names : forall st w,
  exists found,
    scan_keys false names st w
    = (Ret {| manifest :=
                fold_left
                  (fun pj key =>
                     if is_legacy key || truthy (member key buildToolPackages)
                     then drop key pj else pj)
                  names (manifest st);
              electronName := found |}, w).
Proof.
  induction names as [|key names IH]; intros st w.
  - exists (electronName st). destruct st. reflexivity.
  - cbn [scan_keys fold_left]. unfold bind, scan_key.
    destruct (is_legacy key) eqn:L; cbn [orb].
    + unfold ret at 1.
      destruct (IH {| manifest := drop key (manifest st); electronName := Some key |} w)
        as [found E]. exists found. exact E.
    + destruct (truthy (member key buildToolPackages)) eqn:B.
      * cbn [negb]. unfold bind, ret. cbn [truthy].
        destruct (IH {| manifest := drop key (manifest st);
                        electronName := electronName st |} w) as [found E].
        exists found. exact E.
      * unfold ret at 1. destruct (IH st w) as [found E]. exists found. exact E.
Qed.

(** The scan in interactive mode with a user who declines every
    removal: one question per declared build tool, and only the legacy
    names are dropped. *)
Lemma run_scan_keys_declined names : forall st w,
  (forall n, asked w <= n -> truthy (user w n) = false) ->
  exists found w',
    scan_keys true names st w
    = (Ret {| manifest :=
                fold_left (fun pj key => if is_legacy key then drop key pj else pj)
                  names (manifest st);
              electronName := found |}, w')
    /\ tree w' = tree w
    /\ user w' = user w
    /\ asked w'
       = asked w
         + List.length (filter (fun key => negb (is_legacy key)
                                      && truthy (member key buildToolPackages))
                     names).
Proof.
  induction names as [|key names IH]; intros st w U.
  - exists (electronName st), w. destruct st. cbn. auto.
  - cbn [scan_keys fold_left filter]. unfold bind at 1. unfold scan_key.
    destruct (is_legacy key) eqn:L; cbn [negb andb].
    + unfold ret at 1.
      destruct (IH {| manifest := drop key (manifest st); electronName := Some key |} w U)
        as (found & w' & E & T & Us & A).
      exists found, w'. auto.
    + destruct (truthy (member key buildToolPackages)) eqn:B.
      * cbn [negb]. unfold bind at 1, prompt at 1.
        rewrite (U (asked w)) by apply Nat.le_refl. unfold ret at 1.
        match goal with
        | |- context [scan_keys true names st ?w1] =>
            destruct (IH st w1) as (found & w' & E & T & Us & A)
        end.
        { intros n Hn. cbn [asked user] in Hn |- *. apply U.
          now apply Nat.lt_le_incl. }
        exists found, w'. rewrite E. cbn [tree user asked] in T, Us, A.
        cbn [List.length]. repeat split; auto. lia.
      * unfold ret at 1.
        destruct (IH st w U) as (found & w' & E & T & Us & A).
        exists found, w'. auto.
Qed.

Lemma build_tool_truthy k :
  has k buildToolPackages = true -> truthy (member k buildToolPackages) = true.
Proof.
  intros H. unfold member. rewrite H. revert H.
  unfold buildToolPackages. cbn [has get].
  repeat match goal with
         | |- context [String.eqb k ?s] => destruct (String.eqb k s); [reflexivity|]
         end.
  discriminate.
Qed.

Lemma inherited_truthy k :
  In k inherited -> truthy (member k buildToolPackages) = true.
Proof.
  intros I. unfold inherited in I. cbn [In] in I.
  repeat (destruct I as [<-|I]; [reflexivity|]). contradiction.
Qed.

Lemma build_tool_not_legacy k : has k buildToolPackages = true -> is_legacy k = false.
Proof.
  unfold is_legacy. destruct (String.eqb_spec k "electron") as [->|_]; [discriminate|].
  destruct (String.eqb_spec k "electron-prebuilt") as [->|_]; [discriminate|].
  reflexivity.
Qed.

Lemma declared_exists k d v :
  has k d = true \/ has k v = true ->
  existsb (String.eqb k) (keys d ++ keys v) = true.
Proof.
  intros H. apply existsb_exists. exists k. split; [|apply String.eqb_refl].
  apply in_or_app. destruct H as [H|H]; [left|right]; now apply has_In_keys.
Qed.

(** X4.  In non-interactive mode the scan asks nothing and changes
    nothing outside the manifest, and afterwards none of the nine known
    build-tool packages is left in either dependency section. *)
Theorem scan_removes_build_tools (packageJSON : props) (w : World) :
  is_mapping (or_else (get "dependencies" packageJSON) (VObj [])) = true ->
  is_mapping (or_else (get "devDependencies" packageJSON) (VObj [])) = true ->
  exists st,
    scanDependencies false packageJSON w = (Ret st, w)
    /\ (forall k, has k buildToolPackages = true ->
          has k (own_props (get "dependencies" (manifest st))) = false
          /\ has k (own_props (get "devDependencies" (manifest st))) = false).
Proof.
  intros Md Mv.
  destruct (is_mapping_inv _ Md) as [d Hd], (is_mapping_inv _ Mv) as [v Hv].
  destruct (scanDependencies_unfold false packageJSON d v Hd Hv)
    as (start & E & Sd & Sv).
  destruct (run_scan_keys_silent (keys d ++ keys v)
              {| manifest := start; electronName := None |} w) as [found R].
  cbn [manifest] in R.
  destruct (drop_selected
              (fun key => is_legacy key || truthy (member key buildToolPackages))
              (keys d ++ keys v) start d v Sd Sv)
    as (d' & v' & Hd' & Hv' & Kd & Kv & _).
  eexists. split; [rewrite E; exact R|].
  cbn [manifest]. rewrite Hd', Hv'. cbn [own_props].
  intros k B. rewrite Kd, Kv.
  rewrite (build_tool_truthy k B), orb_true_r. cbn [andb].
  destruct (has k d) eqn:Xd, (has k v) eqn:Xv; cbn [andb negb];
    rewrite ?declared_exists by auto; auto.
Qed.

(** X5.  The build-tool test is a property lookup on an object literal,
    so a dependency named like a member of [Object.prototype]
    ([constructor], [toString], ...) counts as a build tool: in
    non-interactive mode it is removed from both sections. *)
Theorem scan_removes_inherited_names (packageJSON : props) (w : World) :
  is_mapping (or_else (get "dependencies" packageJSON) (VObj [])) = true ->
  is_mapping (or_else (get "devDependencies" packageJSON) (VObj [])) = true ->
  exists st,
    scanDependencies false packageJSON w = (Ret st, w)
    /\ (forall k, In k inherited ->
          has k buildToolPackages = false
          /\ has k (own_props (get "dependencies" (manifest st))) = false
          /\ has k (own_props (get "devDependencies" (manifest st))) = false).
Proof.
  intros Md Mv.
  destruct (is_mapping_inv _ Md) as [d Hd], (is_mapping_inv _ Mv) as [v Hv].
  destruct (scanDependencies_unfold false packageJSON d v Hd Hv)
    as (start & E & Sd & Sv).
  destruct (run_scan_keys_silent (keys d ++ keys v)
              {| manifest := start; electronName := None |} w) as [found R].
  cbn [manifest] in R.
  destruct (drop_selected
              (fun key => is_legacy key || truthy (member key buildToolPackages))
              (keys d ++ keys v) start d v Sd Sv)
    as (d' & v' & Hd' & Hv' & Kd & Kv & _).
  eexists. split; [rewrite E; exact R|].
  cbn [manifest]. rewrite Hd', Hv'. cbn [own_props].
  intros k I. split.
  - unfold inherited in I. cbn [In] in I.
    repeat (destruct I as [<-|I]; [reflexivity|]). contradiction.
  - rewrite Kd, Kv. rewrite (inherited_truthy k I), orb_true_r. cbn [andb].
    destruct (has k d) eqn:Xd, (has k v) eqn:Xv; cbn [andb negb];
      rewrite ?declared_exists by auto; auto.
Qed.

(** In interactive mode the loop asks once for every name that tests
    as a build tool, whatever is answered, and touches no file. *)
Lemma run_scan_keys_asks names : forall st w,
  exists st' w',
    scan_keys true names st w = (Ret st', w')
    /\ tree w' = tree w
    /\ user w' = user w
    /\ asked w'
       = asked w
         + List.length (filter (fun key => negb (is_legacy key)
                                      && truthy (member key buildToolPackages))
                     names).
Proof.
  induction names as [|key names IH]; intros st w.
  - exists st, w. cbn. auto.
  - cbn [scan_keys filter]. unfold bind at 1. unfold scan_key.
    destruct (is_legacy key) eqn:L; cbn [negb andb].
    + unfold ret at 1.
      destruct (IH {| manifest := drop key (manifest st); electronName := Some key |} w)
        as (st' & w' & E & T & Us & A).
      exists st', w'. auto.
    + destruct (truthy (member key buildToolPackages)) eqn:B.
      * cbn [negb]. unfold bind at 1, prompt at 1.
        destruct (truthy (user w (asked w))); unfold ret at 1;
          match goal with
          | |- context [scan_keys true names ?s ?w1] =>
              destruct (IH s w1) as (st' & w' & E & T & Us & A)
          end;
          exists st', w'; rewrite E; cbn [tree user asked] in T, Us, A;
          cbn [List.length]; repeat split; auto; lia.
      * unfold ret at 1.
        destruct (IH st w) as (st' & w' & E & T & Us & A).
        exists st', w'. auto.
Qed.

(** X6.  In interactive mode the scan asks exactly one question for
    every declared name that tests as a build tool (a name declared in
    both sections is asked about twice) and none for [electron] or
    [electron-prebuilt], and changes no file, whatever the answers.  If
    the user declines them all, every name other than these two keeps
    its entry, and these two are removed all the same. *)
Theorem scan_keeps_declined_build_tools (packageJSON : props) (w : World) :
  let dependencies := or_else (get "dependencies" packageJSON) (VObj []) in
  let devDependencies := or_else (get "devDependencies" packageJSON) (VObj []) in
  let declared := (keys (own_props dependencies) ++ keys (own_props devDependencies))%list in
  exists st w',
    scanDependencies true packageJSON w = (Ret st, w')
    /\ tree w' = tree w
    /\ asked w'
       = asked w
         + List.length (filter (fun key => negb (is_legacy key)
                                      && truthy (member key buildToolPackages))
                     declared)
    /\ (is_mapping dependencies = true ->
        is_mapping devDependencies = true ->
        (forall n, asked w <= n -> truthy (user w n) = false) ->
        (forall k, is_legacy k = false ->
           field k (get "dependencies" (manifest st)) = field k dependencies
           /\ field k (get "devDependencies" (manifest st)) = field k devDependencies)
        /\ (forall k, is_legacy k = true ->
              has k (own_props (get "dependencies" (manifest st))) = false
              /\ has k (own_props (get "devDependencies" (manifest st))) = false)).
Proof.
  intros dependencies devDependencies declared.
  assert (S : exists start,
            scanDependencies true packageJSON
            = scan_keys true declared {| manifest := start; electronName := None |}).
  { unfold scanDependencies, declared, dependencies, devDependencies.
    rewrite get_set_same.
    rewrite (get_set_other "dependencies" "devDependencies") by discriminate.
    rewrite get_set_same.
    rewrite (get_set_other "devDependencies" "dependencies") by discriminate.
    eexists. reflexivity. }
  destruct S as [start0 E0].
  destruct (run_scan_keys_asks declared {| manifest := start0; electronName := None |} w)
    as (st & w' & R0 & T0 & _ & A0).
  exists st, w'. rewrite E0. repeat apply conj; auto.
  intros Md Mv U.
  destruct (is_mapping_inv _ Md) as [d Hd], (is_mapping_inv _ Mv) as [v Hv].
  destruct (scanDependencies_unfold true packageJSON d v Hd Hv)
    as (start & E & Sd & Sv).
  destruct (run_scan_keys_declined (keys d ++ keys v)
              {| manifest := start; electronName := None |} w U)
    as (found & w1 & R & _).
  cbn [manifest] in R.
  assert (Est : st = {| manifest :=
                          fold_left (fun pj key => if is_legacy key then drop key pj else pj)
                            (keys d ++ keys v) start;
                        electronName := found |}).
  { rewrite <- E0, E, R in R0. now inversion R0. }
  destruct (drop_selected is_legacy (keys d ++ keys v) start d v Sd Sv)
    as (d' & v' & Hd' & Hv' & Kd & Kv & G).
  fold dependencies in Hd. fold devDependencies in Hv.
  rewrite Est, Hd, Hv. cbn [manifest]. rewrite Hd', Hv'. unfold field. cbn [own_props].
  split.
  - intros k L. apply G. now rewrite L.
  - intros k L. rewrite Kd, Kv, L. cbn [andb].
    destruct (has k d) eqn:Xd, (has k v) eqn:Xv; cbn [andb negb];
      rewrite ?declared_exists by auto; auto.
Qed.

End ScanModes.

(** Witness of X4: [electron-builder] and [electron-packager] go. *)
Lemma scan_removes_build_tools_witness :
  exists st,
    ImportApi.scanDependencies false Cases.tooling_manifest Sample.legacy_project
    = (Ret st, Sample.legacy_project)
    /\ has "electron-builder" (own_props (get "dependencies" (ImportApi.manifest st))) = false
    /\ has "electron-packager" (own_props (get "devDependencies" (ImportApi.manifest st))) = false.
Proof.
  destruct (scan_removes_build_tools Cases.tooling_manifest Sample.legacy_project
              eq_refl eq_refl) as (st & E & K).
  exists st. split; [exact E|].
  split; [exact (proj1 (K "electron-builder" eq_refl))
         | exact (proj2 (K "electron-packager" eq_refl))].
Defined.

(** Witness of X5: a dependency named [constructor] goes as well. *)
Lemma scan_removes_inherited_names_witness :
  exists st,
    ImportApi.scanDependencies false Cases.tooling_manifest Sample.legacy_project
    = (Ret st, Sample.legacy_project)
    /\ has "constructor" (own_props (get "dependencies" Cases.tooling_manifest)) = true
    /\ has "constructor" (own_props (get "dependencies" (ImportApi.manifest st))) = false.
Proof.
  destruct (scan_removes_inherited_names Cases.tooling_manifest Sample.legacy_project
              eq_refl eq_refl) as (st & E & K).
  exists st. split; [exact E|]. split; [reflexivity|].
  exact (proj1 (proj2 (K "constructor" (or_introl eq_refl)))).
Defined.

(** Witness of X6: three questions (one of them for [constructor]),
    whether the user accepts or declines; a user who declines them all
    keeps [electron-builder] and still loses [electron-prebuilt]. *)
Lemma scan_keeps_declined_build_tools_witness :
  (exists st w',
     ImportApi.scanDependencies true Cases.tooling_manifest Sample.legacy_project
     = (Ret st, w')
     /\ asked w' = 3)
  /\ exists st w',
       ImportApi.scanDependencies true Cases.tooling_manifest (Cases.declining [])
       = (Ret st, w')
       /\ asked w' = 3
       /\ field "electron-builder" (get "dependencies" (ImportApi.manifest st))
          = VStr "^11.0.0"
       /\ has "electron-prebuilt"
            (own_props (get "devDependencies" (ImportApi.manifest st))) = false.
Proof.
  split.
  - destruct (scan_keeps_declined_build_tools Cases.tooling_manifest Sample.legacy_project)
      as (st & w' & E & _ & A & _).
    exists st, w'. split; [exact E | exact A].
  - destruct (scan_keeps_declined_build_tools Cases.tooling_manifest (Cases.declining []))
      as (st & w' & E & _ & A & D).
    destruct (D eq_refl eq_refl (fun n _ => eq_refl)) as [K L].
    exists st, w'. split; [exact E|]. split; [exact A|].
    split; [exact (proj1 (K "electron-builder" eq_refl))
           | exact (proj2 (L "electron-prebuilt" eq_refl))].
Defined.


(** ** Events of the file-system calls *)

Section FsEvents.

Variable P : event -> Prop.
Variable cwd : string.

Lemma emits_only_exit {A} code : emits_only P (@process_exit A code).
Proof. intros w e H. now left. Qed.

Lemma emits_only_prompt name message :
  P (EPrompt name message) -> emits_only P (prompt name message).
Proof. intros Pe w e [<-|H]; auto. Qed.

Lemma emits_only_exists p : emits_only P (Fs.exists_ cwd p).
Proof.
  unfold Fs.exists_. apply emits_only_bind; [apply emits_only_get_tree|].
  intros t. apply emits_only_ret.
Qed.

Lemma emits_only_readFile p : emits_only P (Fs.readFile cwd p).
Proof.
  unfold Fs.readFile. apply emits_only_bind; [apply emits_only_get_tree|].
  intros t. destruct (lookup _ t) as [[| |]|];
    auto using emits_only_ret, emits_only_throw.
Qed.

Lemma emits_only_writeFile p content :
  P (EWriteFile (Fs.abs cwd p) content) -> emits_only P (Fs.writeFile cwd p content).
Proof.
  intros Pe. unfold Fs.writeFile.
  apply emits_only_bind; [now apply emits_only_emit|]. intros _.
  apply emits_only_bind; [apply emits_only_get_tree|]. intros t.
  destruct (negb _); [apply emits_only_throw|].
  destruct (is_dir _ t); [apply emits_only_throw | apply emits_only_put_tree].
Qed.

Lemma emits_only_remove p :
  P (ERemove (Fs.abs cwd p)) -> emits_only P (Fs.remove cwd p).
Proof.
  intros Pe. unfold Fs.remove.
  apply emits_only_bind; [now apply emits_only_emit|]. intros _.
  apply emits_only_bind; [apply emits_only_get_tree|]. intros t.
  apply emits_only_put_tree.
Qed.

Lemma emits_only_console level text :
  P (EConsole level text) -> emits_only P (Fs.console level text).
Proof. apply emits_only_emit. Qed.

Lemma emits_only_asyncOra label step :
  P (ESpinner label) -> emits_only P step -> emits_only P (Fs.asyncOra label step).
Proof.
  intros Pe Hs. unfold Fs.asyncOra.
  apply emits_only_bind; [now apply emits_only_emit | intros _; exact Hs].
Qed.

(** A continuation may rely on what its predecessor returns. *)
Lemma emits_only_bind_post {A B} (Q : A -> Prop) (m : M A) (k : A -> M B) :
  (forall w a w', m w = (Ret a, w') -> Q a) ->
  emits_only P m -> (forall a, Q a -> emits_only P (k a)) ->
  emits_only P (bind m k).
Proof.
  intros Hq Hm Hk w e. unfold bind.
  specialize (Hm w e). specialize (Hq w).
  destruct (m w) as [[a|c|x] w1]; cbn [snd] in Hm |- *; auto.
  intros H. destruct (Hk a (Hq a w1 eq_refl) w1 e H); auto.
Qed.

End FsEvents.

Section ImportEventFacts.

Import ImportApi ImportEvents.

Variable env : Env.

Lemma scan_keys_legacy interactive names : forall st w st' w',
  scan_keys interactive names st w = (Ret st', w') ->
  (forall n, electronName st = Some n -> is_legacy n = true) ->
  forall n, electronName st' = Some n -> is_legacy n = true.
Proof.
  induction names as [|key names IH]; intros st w st' w' H Q.
  - inversion H. now subst.
  - cbn [scan_keys] in H. unfold bind at 1 in H.
    destruct (run_scan_key interactive st key w) as (st1 & w1 & E & _ & _ & _ & N).
    rewrite E in H. apply (IH _ _ _ _ H).
    intros n. rewrite N. destruct (is_legacy key) eqn:L; [|now apply Q].
    intros X. inversion X. now subst.
Qed.

Lemma scanDependencies_legacy interactive packageJSON w st w' :
  scanDependencies interactive packageJSON w = (Ret st, w') ->
  forall n, electronName st = Some n -> is_legacy n = true.
Proof.
  intros H. eapply scan_keys_legacy; [exact H|]. discriminate.
Qed.

Section Steps.

Variable dir : string.
Variable interactive : bool.

Let P := allowed (cwd env) dir interactive.

Lemma emits_only_scan_keys names : forall st,
  emits_only P (scan_keys interactive names st).
Proof.
  induction names as [|key names IH]; intros st; cbn [scan_keys].
  - apply emits_only_ret.
  - apply emits_only_bind; [|intros st'; apply IH].
    unfold scan_key.
    destruct (is_legacy key); [apply emits_only_ret|].
    destruct (truthy _); [|apply emits_only_ret].
    apply emits_only_bind.
    + destruct interactive eqn:Ei; cbn [negb]; [|apply emits_only_ret].
      apply emits_only_prompt. reflexivity.
    + intros a. destruct (truthy a); apply emits_only_ret.
Qed.

Lemma emits_only_writeChanges packageJSON :
  emits_only P (writeChanges env dir packageJSON).
Proof.
  unfold writeChanges. apply emits_only_asyncOra; [exact I|].
  apply emits_only_writeFile. cbn. auto.
Qed.

Lemma emits_only_pinElectron st : emits_only P (pinElectron env dir st).
Proof.
  unfold pinElectron. destruct (electronName st); [|apply emits_only_ret].
  apply emits_only_bind; [apply emits_only_readPackageJSON|]. intros a.
  apply emits_only_bind; [apply emits_only_lift|]. intros b.
  apply emits_only_bind; [apply emits_only_lift|]. intros c.
  apply emits_only_ret.
Qed.

Lemma emits_only_reinstall st electronVersion :
  (forall n, electronName st = Some n -> is_legacy n = true) ->
  emits_only P (reinstall env dir st electronVersion).
Proof.
  intros Q. unfold reinstall.
  destruct (electronName st) as [name|]; [|apply emits_only_ret].
  assert (L : name = "electron" \/ name = "electron-prebuilt").
  { specialize (Q name eq_refl). unfold is_legacy in Q.
    apply orb_prop in Q. destruct Q as [Q|Q]; apply String.eqb_eq in Q; auto. }
  apply emits_only_bind.
  - apply emits_only_asyncOra; [exact I|].
    apply emits_only_bind; [apply emits_only_emit; reflexivity|]. intros _.
    apply emits_only_bind; [apply emits_only_get_tree|]. intros t.
    apply emits_only_put_tree.
  - intros _. apply emits_only_asyncOra; [exact I|].
    apply emits_only_bind; [apply emits_only_remove; cbn; auto|]. intros _.
    apply emits_only_bind; [apply emits_only_remove; cbn; auto|]. intros _.
    apply emits_only_bind.
    { apply emits_only_remove. destruct L as [-> | ->]; cbn; auto. }
    intros _.
    apply emits_only_bind; [apply emits_only_call; reflexivity|]. intros _.
    apply emits_only_bind; [apply emits_only_call; reflexivity|]. intros _.
    apply emits_only_call; reflexivity.
Qed.

Lemma emits_only_fixGitignore : emits_only P (fixGitignore env dir).
Proof.
  unfold fixGitignore. apply emits_only_asyncOra; [exact I|].
  apply emits_only_bind; [apply emits_only_exists|]. intros found.
  destruct found; [|apply emits_only_ret].
  apply emits_only_bind; [apply emits_only_readFile|]. intros content.
  destruct (negb _); [|apply emits_only_ret].
  apply emits_only_writeFile. cbn. auto.
Qed.

Lemma emits_only_portBabelConfig babelConfig :
  emits_only P (portBabelConfig env dir babelConfig).
Proof.
  unfold portBabelConfig. apply emits_only_asyncOra; [exact I|].
  apply emits_only_bind; [apply emits_only_exists|]. intros found.
  apply emits_only_bind.
  - destruct found; [|apply emits_only_ret].
    apply emits_only_bind; [apply emits_only_readFile|]. intros content.
    apply emits_only_lift.
  - intros compileConfig.
    apply emits_only_bind; [apply emits_only_lift|]. intros merged.
    apply emits_only_writeFile. cbn. auto.
Qed.

End Steps.

Lemma importProject_emits (options : Options) :
  let dir := match dir options with Some d => d | None => cwd env end in
  let interactive := match interactive options with Some b => b | None => false end in
  emits_only (allowed (cwd env) dir interactive) (importProject env options).
Proof.
  intros dir interactive. unfold importProject. fold dir. fold interactive.
  apply emits_only_bind.
  { apply emits_only_bind; [apply emits_only_exists|]. intros dirExists.
    destruct (negb dirExists); [apply emits_only_ret|].
    apply emits_only_bind; [apply emits_only_exists|]. intros m. apply emits_only_ret. }
  intros missing.
  apply emits_only_bind.
  { destruct missing; [|apply emits_only_ret].
    apply emits_only_bind; [apply emits_only_console; exact I|]. intros _.
    apply emits_only_exit. }
  intros _.
  apply emits_only_bind.
  { destruct interactive eqn:Ei; cbn [negb]; [|apply emits_only_ret].
    apply emits_only_prompt. reflexivity. }
  intros confirm.
  apply emits_only_bind.
  { destruct (negb (truthy confirm)); [apply emits_only_exit | apply emits_only_ret]. }
  intros _.
  apply emits_only_bind; [apply emits_only_call; reflexivity|]. intros _.
  apply emits_only_bind; [apply emits_only_readPackageJSON|]. intros packageJSON.
  apply emits_only_bind; [apply emits_only_lift|]. intros config0.
  apply emits_only_bind.
  { destruct (_ && _); [|apply emits_only_ret].
    apply emits_only_bind; [apply emits_only_console; exact I|]. intros _.
    apply emits_only_bind.
    - destruct interactive eqn:Ei; cbn [negb]; [|apply emits_only_ret].
      apply emits_only_prompt. reflexivity.
    - intros a. destruct (negb (truthy a)); [apply emits_only_exit | apply emits_only_ret]. }
  intros _.
  apply emits_only_bind_post
    with (Q := fun a => interactive = false -> a = VBool false).
  { intros w a w'. destruct interactive; [discriminate|].
    intros E _. now inversion E. }
  { destruct interactive eqn:Ei; [|apply emits_only_ret].
    apply emits_only_prompt. reflexivity. }
  intros shouldChangeMain Hmain.
  apply emits_only_bind.
  { destruct interactive eqn:Ei.
    - destruct (truthy shouldChangeMain); [|apply emits_only_ret].
      apply emits_only_bind; [|intros a; apply emits_only_lift].
      apply emits_only_prompt. reflexivity.
    - rewrite (Hmain eq_refl). apply emits_only_ret. }
  intros packageJSON1.
  apply emits_only_bind; [apply emits_only_lift|]. intros [packageJSON2 as_read].
  apply emits_only_bind_post
    with (Q := fun st => forall n, electronName st = Some n -> is_legacy n = true).
  { intros w a w'. apply scanDependencies_legacy. }
  { apply emits_only_scan_keys. }
  intros st Hst.
  apply emits_only_bind; [apply emits_only_pinElectron|]. intros [electronVersion packageJSON3].
  apply emits_only_bind; [apply emits_only_writeChanges|]. intros _.
  apply emits_only_bind; [now apply emits_only_reinstall|]. intros _.
  apply emits_only_bind; [apply emits_only_readPackageJSON|]. intros packageJSON4.
  apply emits_only_bind; [apply emits_only_lift|]. intros config1.
  apply emits_only_bind; [apply emits_only_lift|]. intros [packageJSON5 as_read'].
  apply emits_only_bind; [apply emits_only_readPackageJSON|]. intros templatePackageJSON.
  apply emits_only_bind; [apply emits_only_lift|]. intros templateConfig.
  apply emits_only_bind; [apply emits_only_lift|]. intros forge.
  apply emits_only_bind; [apply emits_only_lift|]. intros config.
  apply emits_only_bind; [apply emits_only_writeChanges|]. intros _.
  apply emits_only_bind; [apply emits_only_fixGitignore|]. intros _.
  apply emits_only_bind.
  { destruct (negb _); [|apply emits_only_ret].
    apply emits_only_bind; [apply emits_only_exists|]. intros found.
    destruct found; [|apply emits_only_ret].
    apply emits_only_bind; [apply emits_only_readFile|]. intros content.
    apply emits_only_lift. }
  intros babelConfig.
  apply emits_only_bind.
  { destruct (truthy babelConfig); [|apply emits_only_ret].
    apply emits_only_bind; [apply emits_only_portBabelConfig|]. intros _.
    apply emits_only_console. exact I. }
  intros _. apply emits_only_console. exact I.
Qed.

End ImportEventFacts.

(** X7.  Whatever the project, the answers and the collaborators do, a
    run of import only adds events that are [allowed]: it writes no
    file other than the project's [package.json], [.gitignore] and
    [.compilerc], removes nothing but the legacy runtime and its two
    shims under [node_modules], runs git, prune and the installs in the
    project directory, and asks questions in interactive mode only. *)
Theorem import_footprint (env : ImportApi.Env) (options : ImportApi.Options) (w : World) :
  let dir :=
    match ImportApi.dir options with Some d => d | None => ImportApi.cwd env end in
  let interactive :=
    match ImportApi.interactive options with Some b => b | None => false end in
  Forall (fun e => In e (trace w) \/ ImportEvents.allowed (ImportApi.cwd env) dir interactive e)
    (trace (snd (ImportApi.importProject env options w))).
Proof.
  intros dir interactive. apply Forall_forall. intros e H.
  exact (importProject_emits env options w e H).
Qed.

(** X8.  Without [interactive: true] import never asks: every question
    in the trace of a run was there before the run. *)
Theorem import_silent_asks_nothing
    (env : ImportApi.Env) (options : ImportApi.Options) (w : World) :
  ImportApi.interactive options <> Some true ->
  Forall (fun e => match e with
                   | EPrompt _ _ => In e (trace w)
                   | _ => True
                   end)
    (trace (snd (ImportApi.importProject env options w))).
Proof.
  intros N. apply Forall_forall. intros e H.
  destruct e; auto.
  destruct (importProject_emits env options w _ H) as [Old|New]; [exact Old|].
  cbn in New. destruct (ImportApi.interactive options) as [[|]|]; congruence.
Qed.

(** Witness of X8: a full run on the sample project with default
    options. *)
Lemma import_silent_asks_nothing_witness :
  Forall (fun e => match e with
                   | EPrompt _ _ => In e []
                   | _ => True
                   end)
    (trace (snd (ImportApi.importProject Sample.forge
                   {| ImportApi.dir := Some "/proj"; ImportApi.interactive := None |}
                   Sample.legacy_project))).
Proof.
  apply (import_silent_asks_nothing Sample.forge
           {| ImportApi.dir := Some "/proj"; ImportApi.interactive := None |}
           Sample.legacy_project).
  discriminate.
Defined.

(** ** Import: the ways out before anything is written *)

Section ImportExits.

Import ImportApi.

Variable env : Env.

Lemma run_call_ok e c w t :
  c (tree w) = Ok t ->
  call e c w
  = (Ret tt, {| tree := t; user := user w; asked := asked w; trace := e :: trace w |}).
Proof.
  intros H. unfold call, bind, emit, get_tree, put_tree. cbn [tree]. now rewrite H.
Qed.

Lemma run_call_fails e c w x :
  c (tree w) = Err x ->
  call e c w
  = (Throw x, {| tree := tree w; user := user w; asked := asked w;
                 trace := e :: trace w |}).
Proof.
  intros H. unfold call, bind, emit, get_tree, throw. cbn [tree]. now rewrite H.
Qed.

(** The first test of import, on a project that is there. *)
Lemma import_found dir w :
  lookup (Fs.abs (cwd env) dir) (tree w) <> None ->
  lookup (Fs.abs (cwd env) (Path.resolve (cwd env) [dir; "package.json"])) (tree w)
  <> None ->
  (dirExists <- Fs.exists_ (cwd env) dir ;;
   if negb dirExists then ret true
   else manifestExists <-
          Fs.exists_ (cwd env) (Path.resolve (cwd env) [dir; "package.json"]) ;;
        ret (negb manifestExists)) w
  = (Ret false, w).
Proof.
  intros D F. unfold bind at 1. rewrite run_exists.
  destruct (lookup (Fs.abs (cwd env) dir) (tree w)); [|congruence].
  cbn [negb]. unfold bind at 1. rewrite run_exists.
  destruct (lookup _ (tree w)); [reflexivity | congruence].
Qed.

(** X9.  In interactive mode, declining the opening question ends the
    run with exit status 1 before git is initialised or any file is
    touched: one question has been asked and nothing else has
    happened. *)
Theorem import_declined (options : Options) (w : World) :
  let dir := match dir options with Some d => d | None => cwd env end in
  let manifest := Path.resolve (cwd env) [dir; "package.json"] in
  interactive options = Some true ->
  lookup (Fs.abs (cwd env) dir) (tree w) <> None ->
  lookup (Fs.abs (cwd env) manifest) (tree w) <> None ->
  truthy (user w (asked w)) = false ->
  exists w' message,
    importProject env options w = (Exit 1, w')
    /\ tree w' = tree w
    /\ asked w' = S (asked w)
    /\ trace w' = EPrompt "confirm" message :: trace w.
Proof.
  intros dir manifest I D F U.
  unfold importProject. fold dir. rewrite I.
  unfold bind at 1. rewrite (import_found dir w D F).
  unfold bind at 1. unfold ret at 1.
  unfold bind at 1. cbn [negb]. unfold prompt at 1. cbn [user asked].
  unfold bind at 1. rewrite U. cbn [negb]. unfold process_exit at 1.
  eexists. eexists. split; [reflexivity|]. cbn [tree asked trace]. auto.
Qed.

(** X10.  A failure of [initGit] ends a non-interactive import with that
    error before the manifest is read: no file has been written. *)
Theorem import_git_failure (options : Options) (w : World) (x : exn) :
  let dir := match dir options with Some d => d | None => cwd env end in
  let manifest := Path.resolve (cwd env) [dir; "package.json"] in
  interactive options <> Some true ->
  lookup (Fs.abs (cwd env) dir) (tree w) <> None ->
  lookup (Fs.abs (cwd env) manifest) (tree w) <> None ->
  initGit env dir (tree w) = Err x ->
  exists w',
    importProject env options w = (Throw x, w')
    /\ tree w' = tree w
    /\ asked w' = asked w
    /\ trace w' = EGitInit dir :: trace w.
Proof.
  intros dir manifest I D F G.
  assert (Ei : match interactive options with Some b => b | None => false end = false).
  { destruct (interactive options) as [[|]|]; congruence. }
  unfold importProject. fold dir. rewrite Ei.
  unfold bind at 1. rewrite (import_found dir w D F).
  unfold bind at 1. unfold ret at 1.
  unfold bind at 1. cbn [negb]. unfold ret at 1.
  unfold bind at 1. cbn [truthy negb]. unfold ret at 1.
  unfold bind at 1. rewrite (run_call_fails _ _ _ _ G).
  eexists. split; [reflexivity|]. cbn [tree asked trace]. auto.
Qed.

(** X11.  A project that already has [config.forge]: in interactive
    mode the user is warned and asked again, and declining ends the run
    with exit status 0.  By then git has been initialised, and nothing
    has been written by import itself. *)
Theorem import_configured_declined
    (options : Options) (w : World) (t : files) (packageJSON : props) :
  let dir := match dir options with Some d => d | None => cwd env end in
  let manifest := Path.resolve (cwd env) [dir; "package.json"] in
  interactive options = Some true ->
  lookup (Fs.abs (cwd env) dir) (tree w) <> None ->
  lookup (Fs.abs (cwd env) manifest) (tree w) <> None ->
  truthy (user w (asked w)) = true ->
  initGit env dir (tree w) = Ok t ->
  lookup (Fs.abs (cwd env) manifest) t = Some (Json (VObj packageJSON)) ->
  truthy (get "config" packageJSON) = true ->
  truthy (field "forge" (get "config" packageJSON)) = true ->
  truthy (user w (S (asked w))) = false ->
  exists w' message,
    importProject env options w = (Exit 0, w')
    /\ tree w' = t
    /\ asked w' = S (S (asked w))
    /\ trace w'
       = EPrompt "shouldContinue" "Are you sure you want to continue?"
         :: EConsole "warn"
              ("It looks like this project is already configured for " ++ dq
               ++ "electron-forge" ++ dq)
         :: EGitInit dir
         :: EPrompt "confirm" message
         :: trace w.
Proof.
  intros dir manifest I D F U G J Tc C U'.
  unfold importProject. fold dir. rewrite I.
  unfold bind at 1. rewrite (import_found dir w D F).
  unfold bind at 1. unfold ret at 1.
  unfold bind at 1. cbn [negb]. unfold prompt at 1. cbn [user asked].
  unfold bind at 1. rewrite U. cbn [negb]. unfold ret at 1.
  unfold bind at 1. rewrite (run_call_ok _ _ _ t) by exact G.
  unfold bind at 1. rewrite (run_readPackageJSON _ _ (VObj packageJSON)) by exact J.
  unfold bind at 1. cbn [read_field lift]. unfold ret at 1.
  change (field "config" (VObj packageJSON)) with (get "config" packageJSON).
  unfold bind at 1. rewrite Tc, C. cbn [andb].
  unfold bind at 1. unfold Fs.console, emit at 1.
  unfold bind at 1. unfold prompt at 1. cbn [user asked].
  rewrite U'. cbn [negb]. unfold process_exit at 1.
  eexists. eexists. split; [reflexivity|]. cbn [tree asked trace app]. auto.
Qed.

Lemma run_remove p w :
  Fs.remove (cwd env) p w
  = (Ret tt, {| tree := prune_path (Fs.abs (cwd env) p) (tree w); user := user w;
                asked := asked w; trace := ERemove (Fs.abs (cwd env) p) :: trace w |}).
Proof. reflexivity. Qed.

Lemma lookup_prune_path p q t :
  within p q = true -> lookup q (prune_path p t) = None.
Proof.
  intros W. unfold prune_path.
  induction t as [|[q' n] t IH]; [reflexivity|].
  cbn [filter fst]. destruct (within p q') eqn:E; cbn [negb]; [exact IH|].
  cbn [lookup]. destruct (String.eqb_spec q q') as [->|N]; [congruence | exact IH].
Qed.

(** X13.  A project without an ignore file gets none: the step succeeds
    and leaves the tree as it was.  If [.gitignore] is a directory the
    read fails and the step ends with that error, the tree again
    untouched. *)
Theorem fixGitignore_without_file (dir : string) (w : World) :
  let path := Fs.abs (cwd env) (Path.resolve (cwd env) [dir; ".gitignore"]) in
  (lookup path (tree w) = None ->
   exists w', fixGitignore env dir w = (Ret tt, w')
              /\ tree w' = tree w
              /\ trace w' = ESpinner "Fixing .gitignore" :: trace w)
  /\ (lookup path (tree w) = Some Dir ->
      exists w', fixGitignore env dir w
                 = (Throw (IOError "EISDIR" (Path.resolve (cwd env) [dir; ".gitignore"])), w')
                 /\ tree w' = tree w
                 /\ trace w' = ESpinner "Fixing .gitignore" :: trace w).
Proof.
  intros path. split; intros H.
  - unfold fixGitignore, Fs.asyncOra.
    unfold bind at 1. unfold emit at 1.
    unfold bind at 1. rewrite run_exists. cbn [tree]. fold path. rewrite H.
    unfold ret. eexists. split; [reflexivity|]. cbn [tree trace]. auto.
  - unfold fixGitignore, Fs.asyncOra.
    unfold bind at 1. unfold emit at 1.
    unfold bind at 1. rewrite run_exists. cbn [tree]. fold path. rewrite H.
    unfold bind at 1. unfold Fs.readFile, bind, get_tree. cbn [tree]. fold path.
    rewrite H. unfold throw.
    eexists. split; [reflexivity|]. cbn [tree trace]. auto.
Qed.

(** X14.  Without a [.compilerc] the babel configuration is ported into
    a new one that holds nothing else; a [.compilerc] that is no JSON
    document makes the step fail with a syntax error and stays as it
    is. *)
Theorem portBabelConfig_fresh (dir : string) (babelConfig : value) (w : World) :
  let compilePath := Fs.abs (cwd env) (Path.resolve (cwd env) [dir; ".compilerc"]) in
  is_json babelConfig = true ->
  (lookup compilePath (tree w) = None ->
   is_dir (Path.dirname compilePath) (tree w) = true ->
   exists w',
     portBabelConfig env dir babelConfig w = (Ret tt, w')
     /\ lookup compilePath (tree w')
        = Some (Json (VObj [("application/javascript", babelConfig)]))
     /\ (forall q, q <> compilePath -> lookup q (tree w') = lookup q (tree w)))
  /\ (forall s, lookup compilePath (tree w) = Some (Text s) ->
      exists w',
        portBabelConfig env dir babelConfig w
        = (Throw (SyntaxError (Path.resolve (cwd env) [dir; ".compilerc"])), w')
        /\ tree w' = tree w).
Proof.
  intros compilePath J. split.
  - intros H D. unfold portBabelConfig, Fs.asyncOra.
    unfold bind at 1. unfold emit at 1.
    unfold bind at 1. rewrite run_exists. cbn [tree]. fold compilePath. rewrite H.
    unfold bind at 1. unfold ret at 1.
    unfold bind at 1. cbn [Object_assign_value lift]. unfold ret at 1.
    assert (E : jsonify (VObj (Object_assign [] [VObj [("application/javascript", babelConfig)]]))
                = VObj [("application/javascript", babelConfig)]).
    { apply jsonify_json. rewrite is_json_members. cbn. now rewrite J. }
    rewrite E.
    rewrite run_writeFile; cbn [tree trace user asked]; fold compilePath; auto.
    + eexists. split; [reflexivity|]. cbn [tree]. split.
      * apply lookup_store_same.
      * intros q N. now apply lookup_store_other.
    + unfold is_dir. now rewrite H.
  - intros s H. unfold portBabelConfig, Fs.asyncOra.
    unfold bind at 1. unfold emit at 1.
    unfold bind at 1. rewrite run_exists. cbn [tree]. fold compilePath. rewrite H.
    unfold bind at 1. unfold bind at 1.
    erewrite run_readFile; [|cbn [tree]; fold compilePath; exact H|discriminate].
    cbn [Fs.JSON_parse lift]. unfold throw.
    eexists. split; [reflexivity|]. reflexivity.
Qed.

(** X15.  When a legacy runtime was found, its module directory and the
    two shims are deleted before anything is installed: if the first
    install fails, the step ends with that error and nothing is left at
    or below the legacy module's path. *)
Theorem reinstall_removes_before_install
    (dir name : string) (st : scan) (electronVersion : value) (w : World) (x : exn) :
  let at_ := fun below => Fs.abs (cwd env) (Path.resolve (cwd env) (dir :: below)) in
  let pruned :=
    prune_path (at_ ["node_modules"; name])
      (prune_path (at_ ["node_modules/.bin/electron.cmd"])
         (prune_path (at_ ["node_modules/.bin/electron"])
            (yarnOrNPMSpawn env (if hasYarn env then [] else ["prune"]) dir (tree w)))) in
  electronName st = Some name ->
  installDepList env dir (deps env) false false pruned = Err x ->
  exists w',
    reinstall env dir st electronVersion w = (Throw x, w')
    /\ tree w' = pruned
    /\ (forall q, within (at_ ["node_modules"; name]) q = true ->
          lookup q (tree w') = None).
Proof.
  intros at_ pruned N G. unfold reinstall. rewrite N.
  unfold Fs.asyncOra.
  unfold bind at 1. unfold bind at 1. unfold emit at 1.
  unfold bind at 1. unfold emit at 1.
  unfold bind at 1. unfold get_tree at 1. cbn [tree].
  unfold put_tree at 1. cbn [tree user asked trace].
  unfold bind at 1. unfold emit at 1. cbn [tree user asked trace].
  unfold bind at 1. rewrite run_remove. cbn [tree user asked trace].
  unfold bind at 1. rewrite run_remove. cbn [tree user asked trace].
  unfold bind at 1. rewrite run_remove. cbn [tree user asked trace].
  unfold bind at 1. rewrite (run_call_fails _ _ _ x) by exact G.
  eexists. split; [reflexivity|]. cbn [tree]. split; [reflexivity|].
  intros q W. now apply lookup_prune_path.
Qed.

End ImportExits.

(** Witness of X9: the sample project, imported interactively by a user
    who says no. *)
Lemma import_declined_witness :
  exists w' message,
    ImportApi.importProject Sample.forge
      {| ImportApi.dir := Some "/proj"; ImportApi.interactive := Some true |}
      (Cases.declining (tree Sample.legacy_project))
    = (Exit 1, w')
    /\ tree w' = tree Sample.legacy_project
    /\ asked w' = 1
    /\ trace w' = [EPrompt "confirm" message].
Proof.
  apply (import_declined Sample.forge
           {| ImportApi.dir := Some "/proj"; ImportApi.interactive := Some true |}
           (Cases.declining (tree Sample.legacy_project)));
    [reflexivity | vm_compute; discriminate | vm_compute; discriminate | reflexivity].
Defined.

(** Witness of X10: git cannot be initialised. *)
Lemma import_git_failure_witness :
  exists w',
    ImportApi.importProject Cases.offline
      {| ImportApi.dir := Some "/proj"; ImportApi.interactive := None |}
      Sample.legacy_project
    = (Throw (External "git init"), w')
    /\ tree w' = tree Sample.legacy_project
    /\ asked w' = 0
    /\ trace w' = [EGitInit "/proj"].
Proof.
  apply (import_git_failure Cases.offline
           {| ImportApi.dir := Some "/proj"; ImportApi.interactive := None |}
           Sample.legacy_project (External "git init"));
    [discriminate | vm_compute; discriminate | vm_compute; discriminate | reflexivity].
Defined.

(** Witness of X11: a configured project and a user who confirms the
    import and then declines to continue. *)
Lemma import_configured_declined_witness :
  exists w' message,
    ImportApi.importProject Sample.forge
      {| ImportApi.dir := Some "/proj"; ImportApi.interactive := Some true |}
      (Cases.hesitant Cases.configured_files)
    = (Exit 0, w')
    /\ tree w' = Cases.configured_files
    /\ asked w' = 2
    /\ trace w'
       = [EPrompt "shouldContinue" "Are you sure you want to continue?";
          EConsole "warn"
            ("It looks like this project is already configured for " ++ dq
             ++ "electron-forge" ++ dq);
          EGitInit "/proj";
          EPrompt "confirm" message].
Proof.
  apply (import_configured_declined Sample.forge
           {| ImportApi.dir := Some "/proj"; ImportApi.interactive := Some true |}
           (Cases.hesitant Cases.configured_files) Cases.configured_files
           [("name", VStr "app");
            ("config", VObj [("forge", VObj [("make_targets", VObj [])])])]);
    [reflexivity | vm_compute; discriminate | vm_compute; discriminate
    | reflexivity | reflexivity | reflexivity | reflexivity | reflexivity | reflexivity].
Defined.

(** Witness of X13: a project without an ignore file. *)
Lemma fixGitignore_without_file_witness :
  exists w',
    ImportApi.fixGitignore Sample.forge "/proj" Sample.flat_project = (Ret tt, w')
    /\ tree w' = tree Sample.flat_project
    /\ trace w' = [ESpinner "Fixing .gitignore"].
Proof.
  exact (proj1 (fixGitignore_without_file Sample.forge "/proj" Sample.flat_project)
           eq_refl).
Defined.

(** Witness of X14: a project without a [.compilerc]. *)
Lemma portBabelConfig_fresh_witness :
  exists w',
    ImportApi.portBabelConfig Sample.forge "/proj"
      (VObj [("presets", array [VStr "es2015"])]) Sample.flat_project
    = (Ret tt, w')
    /\ lookup "/proj/.compilerc" (tree w')
       = Some (Json (VObj [("application/javascript",
                            VObj [("presets", array [VStr "es2015"])])])).
Proof.
  destruct (proj1 (portBabelConfig_fresh Sample.forge "/proj"
                     (VObj [("presets", array [VStr "es2015"])]) Sample.flat_project
                     eq_refl) eq_refl eq_refl) as (w' & E & L & _).
  exists w'. split; [exact E | exact L].
Defined.

(** Witness of X15: nothing can be installed. *)
Lemma reinstall_removes_before_install_witness :
  exists w',
    ImportApi.reinstall Cases.offline "/proj"
      {| ImportApi.manifest := Sample.legacy_manifest;
         ImportApi.electronName := Some "electron" |}
      (VStr "1.4.13") Sample.legacy_project
    = (Throw (External "npm install"), w')
    /\ lookup "/proj/node_modules/electron/package.json" (tree w') = None.
Proof.
  destruct (reinstall_removes_before_install Cases.offline "/proj" "electron"
              {| ImportApi.manifest := Sample.legacy_manifest;
                 ImportApi.electronName := Some "electron" |}
              (VStr "1.4.13") Sample.legacy_project (External "npm install")
              eq_refl eq_refl) as (w' & E & _ & L).
  exists w'. split; [exact E|].
  exact (L "/proj/node_modules/electron/package.json" eq_refl).
Defined.

(** ** Packaging: the options of the engine *)

Section AssignFacts.

Import DeepMergeSpec.

Lemma has_rev k (o : props) : has k (rev o) = has k o.
Proof.
  induction o as [|[k' v] o IH]; [reflexivity|].
  cbn [rev]. rewrite has_app, IH. cbn [has].
  destruct (String.eqb k k'), (has k o); reflexivity.
Qed.

(** Assigning the properties of a list one by one: the last value given
    for a key wins. *)
Lemma get_assigned (source : props) : forall target k,
  get k (fold_left (fun t kv => set (fst kv) (snd kv) t) source target)
  = if has k source then get k (rev source) else get k target.
Proof.
  induction source as [|[k' v] source IH]; intros target k; [reflexivity|].
  cbn [fold_left fst snd rev]. rewrite IH, get_app, has_rev. cbn [has get].
  destruct (has k source); [now destruct (String.eqb k k')|].
  destruct (String.eqb_spec k k') as [->|N].
  - apply get_set_same.
  - now apply get_set_other.
Qed.

Lemma get_rev_unique k (o : props) :
  unique_keys o = true -> get k (rev o) = get k o.
Proof.
  induction o as [|[k' v] o IH]; [reflexivity|].
  cbn [unique_keys rev]. intros U. apply andb_prop in U. destruct U as [N U].
  rewrite get_app, has_rev, (IH U). cbn [get].
  destruct (has k o) eqn:H.
  - destruct (String.eqb_spec k k') as [->|_]; [|reflexivity].
    rewrite H in N. discriminate.
  - rewrite (get_absent _ _ H). reflexivity.
Qed.

End AssignFacts.

Section PackageOptions.

Import PackageApi DeepMergeSpec.

Variable env : Env.

(** How a successful call of [packageOpts] came about. *)
Lemma packageOpts_shape forgeConfig packageJSON dir arch platform outDir options :
  packageOpts env forgeConfig packageJSON dir arch platform outDir = Ok options ->
  let config := field "electronPackagerConfig" forgeConfig in
  exists afterCopy afterExtract afterPrune,
    resolveHooks env (field "afterCopy" config) dir = Ok afterCopy
    /\ resolveHooks env (field "afterExtract" config) dir = Ok afterExtract
    /\ resolveHooks env (field "afterPrune" config) dir = Ok afterPrune
    /\ options
       = set "quiet" (VBool true)
           (assign1
              (assign1 [("asar", VBool false); ("overwrite", VBool true)] config)
              (VObj [("afterCopy",
                      array ([cleanBuild; compileHook; stripForgeConfig] ++ afterCopy)%list);
                     ("afterExtract", array afterExtract);
                     ("afterPrune", array (rebuild :: afterPrune));
                     ("dir", VStr dir);
                     ("arch", VStr arch);
                     ("platform", VStr platform);
                     ("out", VStr outDir);
                     ("electronVersion",
                      field "electron-prebuilt-compile"
                        (field "devDependencies" packageJSON))])).
Proof.
  intros H config. unfold packageOpts in H.
  assert (R : forall k v x, read_field k v = Ok x -> x = field k v).
  { intros k v x E. destruct v; inversion E; reflexivity. }
  destruct (read_field "electronPackagerConfig" forgeConfig) as [c|] eqn:E0;
    cbn [rbind] in H; [|discriminate].
  apply R in E0. subst c. fold config in H.
  destruct (read_field "afterCopy" config) as [h1|] eqn:E1; cbn [rbind] in H; [|discriminate].
  apply R in E1. subst h1.
  destruct (resolveHooks env (field "afterCopy" config) dir) as [afterCopy|] eqn:H1;
    cbn [rbind] in H; [|discriminate].
  destruct (read_field "afterExtract" config) as [h2|] eqn:E2; cbn [rbind] in H; [|discriminate].
  apply R in E2. subst h2.
  destruct (resolveHooks env (field "afterExtract" config) dir) as [afterExtract|] eqn:H2;
    cbn [rbind] in H; [|discriminate].
  destruct (read_field "afterPrune" config) as [h3|] eqn:E3; cbn [rbind] in H; [|discriminate].
  apply R in E3. subst h3.
  destruct (resolveHooks env (field "afterPrune" config) dir) as [afterPrune|] eqn:H3;
    cbn [rbind] in H; [|discriminate].
  destruct (read_field "devDependencies" packageJSON) as [dd|] eqn:E4;
    cbn [rbind] in H; [|discriminate].
  apply R in E4. subst dd.
  destruct (read_field "electron-prebuilt-compile" (field "devDependencies" packageJSON))
    as [ev|] eqn:E5; cbn [rbind] in H; [|discriminate].
  apply R in E5. subst ev.
  inversion H. exists afterCopy, afterExtract, afterPrune. auto.
Qed.

(** X16.  Whatever the project configuration says, the options of the
    packaging engine carry the project directory, the platform and the
    output directory of this run, the version of
    [electron-prebuilt-compile] from the manifest's development
    dependencies, and [quiet: true]. *)
Theorem packageOpts_fixed_fields
    (forgeConfig packageJSON : value) (dir arch platform outDir : string)
    (options : props) :
  packageOpts env forgeConfig packageJSON dir arch platform outDir = Ok options ->
  get "dir" options = VStr dir
  /\ get "platform" options = VStr platform
  /\ get "out" options = VStr outDir
  /\ get "electronVersion" options
     = field "electron-prebuilt-compile" (field "devDependencies" packageJSON)
  /\ get "quiet" options = VBool true.
Proof.
  intros H. destruct (packageOpts_shape _ _ _ _ _ _ _ H) as (a & b & c & _ & _ & _ & E).
  subst options. clear H.
  remember (assign1 [("asar", VBool false); ("overwrite", VBool true)]
              (field "electronPackagerConfig" forgeConfig)) as base.
  unfold assign1. cbn [own_props fold_left fst snd].
  repeat apply conj;
    repeat (rewrite get_set_other by discriminate); apply get_set_same.
Qed.

(** X17.  The hook lists of the project configuration never replace the
    built-in hooks: the three after-copy hooks and the rebuild hook come
    first, followed by the project's hooks as resolved, in order. *)
Theorem packageOpts_builtin_hooks_first
    (forgeConfig packageJSON : value) (dir arch platform outDir : string)
    (options : props) :
  packageOpts env forgeConfig packageJSON dir arch platform outDir = Ok options ->
  let config := field "electronPackagerConfig" forgeConfig in
  exists afterCopy afterExtract afterPrune,
    resolveHooks env (field "afterCopy" config) dir = Ok afterCopy
    /\ resolveHooks env (field "afterExtract" config) dir = Ok afterExtract
    /\ resolveHooks env (field "afterPrune" config) dir = Ok afterPrune
    /\ get "afterCopy" options
       = array (cleanBuild :: compileHook :: stripForgeConfig :: afterCopy)
    /\ get "afterExtract" options = array afterExtract
    /\ get "afterPrune" options = array (rebuild :: afterPrune).
Proof.
  intros H config.
  destruct (packageOpts_shape _ _ _ _ _ _ _ H) as (a & b & c & Ha & Hb & Hc & E).
  exists a, b, c. subst options. clear H.
  remember (assign1 [("asar", VBool false); ("overwrite", VBool true)] config) as base.
  unfold assign1. cbn [own_props fold_left fst snd].
  repeat apply conj; auto;
    repeat (rewrite get_set_other by discriminate); apply get_set_same.
Qed.

(** X18.  Every other key is the project's: an option that the project
    configuration sets reaches the engine with the configured value
    (also [asar] and [overwrite]), and one it does not set is absent but
    for the defaults [asar: false] and [overwrite: true]. *)
Theorem packageOpts_passes_config
    (forgeConfig packageJSON : value) (dir arch platform outDir k : string)
    (options : props) :
  packageOpts env forgeConfig packageJSON dir arch platform outDir = Ok options ->
  ~ In k ["afterCopy"; "afterExtract"; "afterPrune"; "dir"; "arch"; "platform";
          "out"; "electronVersion"; "quiet"] ->
  let config := own_props (field "electronPackagerConfig" forgeConfig) in
  (has k config = false ->
   get k options = get k [("asar", VBool false); ("overwrite", VBool true)])
  /\ (has k config = true -> unique_keys config = true ->
      get k options = get k config).
Proof.
  intros H N config.
  destruct (packageOpts_shape _ _ _ _ _ _ _ H) as (a & b & c & _ & _ & _ & E).
  assert (G : get k options
              = if has k config then get k (rev config)
                else get k [("asar", VBool false); ("overwrite", VBool true)]).
  { subst options. unfold assign1 at 1. cbn [own_props fold_left fst snd].
    cbn [In] in N.
    repeat (rewrite get_set_other by (intros ->; tauto)).
    unfold assign1. apply get_assigned. }
  split.
  - intros A. now rewrite G, A.
  - intros A U. rewrite G, A. now apply get_rev_unique.
Qed.

(** X19.  The options cannot be built for a forge configuration without
    [electronPackagerConfig] (reading its hook lists is a type error),
    nor for a manifest without [devDependencies]. *)
Theorem packageOpts_requires_sections
    (forgeConfig packageJSON : value) (dir arch platform outDir : string) :
  (field "electronPackagerConfig" forgeConfig = VUndefined ->
   exists what,
     packageOpts env forgeConfig packageJSON dir arch platform outDir
     = Err (TypeError what))
  /\ (field "devDependencies" packageJSON = VUndefined ->
      exists e,
        packageOpts env forgeConfig packageJSON dir arch platform outDir = Err e).
Proof.
  split; intros U.
  - unfold packageOpts.
    destruct (read_field "electronPackagerConfig" forgeConfig) as [c|e] eqn:E.
    + assert (c = VUndefined) as ->.
      { destruct forgeConfig; inversion E; subst; exact U. }
      cbn [rbind read_field]. eauto.
    + destruct forgeConfig; inversion E; cbn [rbind]; eauto.
  - destruct (packageOpts env forgeConfig packageJSON dir arch platform outDir)
      as [options|e] eqn:E; [|eauto].
    exfalso. unfold packageOpts in E.
    repeat match type of E with
           | rbind ?r _ = Ok _ => destruct r eqn:?; cbn [rbind] in E; [|discriminate]
           end.
    match goal with
    | D : read_field "devDependencies" packageJSON = Ok ?d,
      V : read_field "electron-prebuilt-compile" ?d = Ok _ |- _ =>
        assert (d = VUndefined) by (destruct packageJSON; inversion D; subst; exact U);
        subst d; discriminate V
    end.
Qed.

End PackageOptions.

(** ** Packaging: the runs *)

Section PackageRuns.

Import PackageApi.

Variable env : Env.

(** What holds of the options built in a run holds of the options the
    engine is started with. *)
Lemma packageProject_emits_options (options : Options) (Q : props -> Prop) :
  let dir0 := match dir options with Some d => d | None => cwd env end in
  let arch := match arch options with Some a => a | None => hostArch env end in
  let platform :=
    match platform options with Some p => p | None => process_platform env end in
  let outDir :=
    match outDir options with
    | Some o => if String.eqb o "" then Path.resolve (cwd env) [dir0; "out"] else o
    | None => Path.resolve (cwd env) [dir0; "out"]
    end in
  (forall forgeConfig packageJSON dir packageOpts,
     PackageApi.packageOpts env forgeConfig packageJSON dir arch platform outDir
     = Ok packageOpts ->
     (typeof_object (get "asar" packageOpts) = true ->
      truthy (field "unpack" (get "asar" packageOpts)) = false) ->
     Q packageOpts) ->
  emits_only
    (fun e => match e with EPackager packageOpts => Q packageOpts | _ => True end)
    (packageProject env options).
Proof.
  intros dir0 arch platform outDir HQ.
  unfold packageProject. fold dir0. fold arch. fold platform. fold outDir.
  apply emits_only_bind; [now apply emits_only_emit|]. intros _.
  apply emits_only_bind; [apply emits_only_get_tree|]. intros t.
  destruct (resolveDir env t _) as [root|]; [|apply emits_only_throw].
  destruct (String.eqb root ""); [apply emits_only_throw|].
  apply emits_only_bind; [apply emits_only_readPackageJSON|]. intros packageJSON.
  apply emits_only_bind; [apply emits_only_lift|]. intros main.
  destruct main; try apply emits_only_throw.
  apply emits_only_bind; [apply emits_only_get_tree|]. intros t'.
  destruct (require_resolve env t' _) as [entry|]; [|apply emits_only_throw].
  destruct (String.eqb (Path.dirname entry) root).
  { apply emits_only_bind; [now apply emits_only_emit|]. intros _.
    apply emits_only_throw. }
  apply emits_only_bind; [apply emits_only_get_tree|]. intros t''.
  apply emits_only_bind; [apply emits_only_lift|]. intros forgeConfig.
  apply emits_only_bind_lift. intros opts E.
  apply emits_only_bind_post
    with (Q := fun _ : unit =>
                 typeof_object (get "asar" opts) = true ->
                 truthy (field "unpack" (get "asar" opts)) = false).
  { intros w a w'. destruct (typeof_object (get "asar" opts)); [|discriminate].
    unfold bind. destruct (get "asar" opts); cbn [read_field lift];
      unfold throw, ret; try discriminate;
      match goal with
      | |- context [truthy ?u] => destruct (truthy u) eqn:T; [discriminate | auto]
      end. }
  { destruct (typeof_object _); [|apply emits_only_ret].
    apply emits_only_bind; [apply emits_only_lift|]. intros unpack.
    destruct (truthy unpack); [apply emits_only_throw | apply emits_only_ret]. }
  intros _ Hasar.
  apply emits_only_bind; [apply emits_only_call; exact I|]. intros _.
  apply emits_only_bind; [apply emits_only_call; exact I|]. intros _.
  apply emits_only_bind.
  { apply emits_only_emit. eapply HQ; eassumption. }
  intros _.
  apply emits_only_bind; [apply emits_only_get_tree|]. intros t3.
  apply emits_only_bind; [apply emits_only_lift|]. intros packaged.
  apply emits_only_bind; [apply emits_only_put_tree|]. intros _.
  apply emits_only_bind; [apply emits_only_call; exact I|]. intros _.
  destruct (snd packaged); [now apply emits_only_emit | apply emits_only_throw].
Qed.

(** X20.  Every options object handed to the packaging engine names the
    output directory of the call, or else [out] below the directory as
    it was given, before it is resolved to the project root, together
    with the platform of the call or else of the process, and
    [quiet: true]. *)
Theorem packageProject_output_directory (options : Options) (w : World) :
  let dir0 := match dir options with Some d => d | None => cwd env end in
  let platform :=
    match platform options with Some p => p | None => process_platform env end in
  let outDir :=
    match outDir options with
    | Some o => if String.eqb o "" then Path.resolve (cwd env) [dir0; "out"] else o
    | None => Path.resolve (cwd env) [dir0; "out"]
    end in
  Forall (fun e => match e with
                   | EPackager packageOpts =>
                       In e (trace w)
                       \/ (get "out" packageOpts = VStr outDir
                           /\ get "platform" packageOpts = VStr platform
                           /\ get "quiet" packageOpts = VBool true)
                   | _ => True
                   end)
    (trace (snd (packageProject env options w))).
Proof.
  intros dir0 platform outDir. apply Forall_forall. intros e H.
  destruct e as [? ?|?|? ?|? ?|?|?|?|? ?|? ? ? ?|? ?|?|opts]; auto.
  destruct (packageProject_emits_options options
              (fun o => get "out" o = VStr outDir
                        /\ get "platform" o = VStr platform
                        /\ get "quiet" o = VBool true)) with (w := w) (e := EPackager opts)
    as [Old|New]; auto.
  intros forgeConfig packageJSON dir built E _.
  destruct (packageOpts_shape env _ _ _ _ _ _ _ E) as (a & b & c & _ & _ & _ & ->).
  clear E.
  remember (assign1 [("asar", VBool false); ("overwrite", VBool true)]
              (field "electronPackagerConfig" forgeConfig)) as base.
  unfold assign1. cbn [own_props fold_left fst snd].
  repeat apply conj;
    repeat (rewrite get_set_other by discriminate); apply get_set_same.
Qed.

(** X21.  The packaging engine is never started with an [asar] option
    that is an object asking for [unpack]. *)
Theorem packageProject_refuses_asar_unpack (options : Options) (w : World) :
  Forall (fun e => match e with
                   | EPackager packageOpts =>
                       In e (trace w)
                       \/ (typeof_object (get "asar" packageOpts) = true ->
                           truthy (field "unpack" (get "asar" packageOpts)) = false)
                   | _ => True
                   end)
    (trace (snd (packageProject env options w))).
Proof.
  apply Forall_forall. intros e H.
  destruct e as [? ?|?|? ?|? ?|?|?|?|? ?|? ? ? ?|? ?|?|opts]; auto.
  destruct (packageProject_emits_options options
              (fun o => typeof_object (get "asar" o) = true ->
                        truthy (field "unpack" (get "asar" o)) = false))
    with (w := w) (e := EPackager opts) as [Old|New]; auto.
Qed.

Lemma readPackageJSON_ret cwd dir w v w' :
  Fs.readPackageJSON cwd dir w = (Ret v, w') -> w' = w.
Proof.
  unfold Fs.readPackageJSON, Fs.readFile, bind, get_tree.
  destruct (lookup _ (tree w)) as [[|s|j]|]; cbn [Fs.JSON_parse lift];
    unfold throw, ret; intros H; inversion H; reflexivity.
Qed.

Lemma lift_ret {A} (r : result A) w a w' :
  lift r w = (Ret a, w') -> r = Ok a /\ w' = w.
Proof. destruct r; unfold lift, ret, throw; intros H; inversion H; auto. Qed.

Lemma call_ret e c w u w' :
  call e c w = (Ret u, w') ->
  exists t, c (tree w) = Ok t
            /\ w' = {| tree := t; user := user w; asked := asked w;
                       trace := e :: trace w |}.
Proof.
  unfold call, bind, emit, get_tree, put_tree, throw. cbn [tree user asked trace].
  destruct (c (tree w)) as [t|x]; intros H; inversion H. eauto.
Qed.

(** X22.  A run of packaging that succeeds has shown the preparation
    label, run the [generateAssets] and [prePackage] hooks, started the
    engine, run the [postPackage] hook and closed the packaging label,
    in this order and nothing else; each step worked on the file tree
    the step before left; the engine reported that it ran the
    after-prune hooks; and the user was asked nothing. *)
Theorem packageProject_success (options : Options) (w w' : World) :
  let dir0 := match dir options with Some d => d | None => cwd env end in
  let arch := match arch options with Some a => a | None => hostArch env end in
  packageProject env options w = (Ret tt, w') ->
  exists root forgeConfig packageOpts t1 t2 t3,
    resolveDir env (tree w) dir0 = Some root
    /\ getForgeConfig env (tree w) root = Ok forgeConfig
    /\ runHook env forgeConfig "generateAssets" (tree w) = Ok t1
    /\ runHook env forgeConfig "prePackage" t1 = Ok t2
    /\ packager env packageOpts t2 = Ok (t3, true)
    /\ runHook env forgeConfig "postPackage" t3 = Ok (tree w')
    /\ trace w'
       = ESpinner "Packaging Application"
         :: EHook "postPackage"
         :: EPackager packageOpts
         :: EHook "prePackage"
         :: EHook "generateAssets"
         :: ESpinner (preparing arch)
         :: trace w
    /\ asked w' = asked w.
Proof.
  intros dir0 arch H. unfold packageProject in H. fold dir0 in H. fold arch in H.
  unfold bind at 1 in H. unfold emit at 1 in H.
  unfold bind at 1 in H. unfold get_tree at 1 in H. cbn [tree] in H.
  destruct (resolveDir env (tree w) dir0) as [root|] eqn:R; [|discriminate].
  destruct (String.eqb root ""); [discriminate|].
  unfold bind at 1 in H.
  match type of H with
  | context [Fs.readPackageJSON ?c ?d ?w0] =>
      destruct (Fs.readPackageJSON c d w0) as [[packageJSON|?|?] w1] eqn:E1;
        try discriminate
  end.
  apply readPackageJSON_ret in E1. subst w1.
  unfold bind at 1 in H.
  match type of H with
  | context [lift ?r ?w0] =>
      destruct (lift r w0) as [[main|?|?] w1] eqn:E2; try discriminate
  end.
  apply lift_ret in E2. destruct E2 as [_ ->].
  destruct main as [| | | |main| | |]; try discriminate.
  unfold bind at 1 in H. unfold get_tree at 1 in H. cbn [tree] in H.
  destruct (require_resolve env (tree w) _) as [entry|]; [|discriminate].
  destruct (String.eqb (Path.dirname entry) root).
  { unfold bind, Fs.console, emit, throw in H. discriminate. }
  unfold bind at 1 in H. unfold get_tree at 1 in H. cbn [tree] in H.
  unfold bind at 1 in H.
  match type of H with
  | context [lift ?r ?w0] =>
      destruct (lift r w0) as [[forgeConfig|?|?] w1] eqn:E3; try discriminate
  end.
  apply lift_ret in E3. destruct E3 as [G ->].
  unfold bind at 1 in H.
  match type of H with
  | context [lift ?r ?w0] =>
      destruct (lift r w0) as [[opts|?|?] w1] eqn:E4; try discriminate
  end.
  apply lift_ret in E4. destruct E4 as [_ ->].
  unfold bind at 1 in H.
  match type of H with
  | (match ?m ?w0 with _ => _ end) = _ =>
      destruct (m w0) as [[[]|?|?] w1] eqn:E5; try discriminate
  end.
  assert (w1 = {| tree := tree w; user := user w; asked := asked w;
                  trace := ESpinner (preparing arch) :: trace w |}) as ->.
  { destruct (typeof_object (get "asar" opts)); [|now inversion E5].
    unfold bind at 1 in E5.
    match type of E5 with
    | context [lift ?r ?w0] =>
        destruct (lift r w0) as [[unpack|?|?] w2] eqn:E6; try discriminate
    end.
    apply lift_ret in E6. destruct E6 as [_ ->].
    destruct (truthy unpack); [discriminate | now inversion E5]. }
  clear E5.
  unfold bind at 1 in H.
  match type of H with
  | context [call ?e ?c ?w0] =>
      destruct (call e c w0) as [[[]|?|?] w1] eqn:E6; try discriminate
  end.
  apply call_ret in E6. destruct E6 as (t1 & H1 & ->). cbn [tree user asked trace] in *.
  unfold bind at 1 in H.
  match type of H with
  | context [call ?e ?c ?w0] =>
      destruct (call e c w0) as [[[]|?|?] w1] eqn:E7; try discriminate
  end.
  apply call_ret in E7. destruct E7 as (t2 & H2 & ->). cbn [tree user asked trace] in *.
  unfold bind at 1 in H. unfold emit at 1 in H. cbn [tree user asked trace] in H.
  unfold bind at 1 in H. unfold get_tree at 1 in H. cbn [tree] in H.
  unfold bind at 1 in H.
  match type of H with
  | context [lift ?r ?w0] =>
      destruct (lift r w0) as [[[t3 ran]|?|?] w1] eqn:E8; try discriminate
  end.
  apply lift_ret in E8. destruct E8 as [H3 ->].
  unfold bind at 1 in H. unfold put_tree at 1 in H. cbn [tree user asked trace fst] in H.
  unfold bind at 1 in H.
  match type of H with
  | context [call ?e ?c ?w0] =>
      destruct (call e c w0) as [[[]|?|?] w1] eqn:E9; try discriminate
  end.
  apply call_ret in E9. destruct E9 as (t4 & H4 & ->). cbn [tree user asked trace] in *.
  cbn [snd] in H. destruct ran; [|discriminate].
  unfold emit in H. cbn [tree user asked trace] in H. inversion H. subst w'.
  cbn [tree trace asked].
  exists root, forgeConfig, opts, t1, t2, t3. repeat apply conj; auto.
Qed.

(** X23.  When [resolveDir] finds no application for the directory,
    packaging throws the plain string [Failed to locate compilable
    Electron application]; it has shown the preparation label and done
    nothing else. *)
Theorem package_unlocated (options : Options) (w : World) :
  let dir0 := match dir options with Some d => d | None => cwd env end in
  let arch := match arch options with Some a => a | None => hostArch env end in
  resolveDir env (tree w) dir0 = None \/ resolveDir env (tree w) dir0 = Some "" ->
  packageProject env options w
  = (Throw (Thrown (VStr "Failed to locate compilable Electron application")),
     {| tree := tree w; user := user w; asked := asked w;
        trace := ESpinner (preparing arch) :: trace w |}).
Proof.
  intros dir0 arch H. unfold packageProject. fold dir0. fold arch.
  unfold bind at 1. unfold emit at 1.
  unfold bind at 1. unfold get_tree at 1. cbn [tree].
  destruct H as [-> | ->]; reflexivity.
Qed.

End PackageRuns.

(** Witness of X16: a configuration that names its own [out]. *)
Lemma packageOpts_fixed_fields_witness :
  field "out" (field "electronPackagerConfig" Cases.archive_config) = VStr "elsewhere"
  /\ exists options,
       PackageApi.packageOpts Sample.engine Cases.archive_config Cases.imported_manifest
         "/proj" "x64" "linux" "/proj/out"
       = Ok options
       /\ get "out" options = VStr "/proj/out"
       /\ get "electronVersion" options = VStr "1.4.13"
       /\ get "quiet" options = VBool true.
Proof.
  split; [reflexivity|].
  destruct (PackageApi.packageOpts Sample.engine Cases.archive_config
              Cases.imported_manifest "/proj" "x64" "linux" "/proj/out")
    as [options|e] eqn:E; [|vm_compute in E; discriminate].
  exists options. split; [reflexivity|].
  destruct (packageOpts_fixed_fields Sample.engine _ _ _ _ _ _ _ E)
    as (_ & _ & O & V & Q).
  repeat apply conj; [exact O | exact V | exact Q].
Defined.

(** Witness of X17: one after-copy hook by path, one as a function. *)
Lemma packageOpts_builtin_hooks_first_witness :
  exists options,
    PackageApi.packageOpts Sample.engine Sample.project_config Cases.imported_manifest
      "/proj" "x64" "linux" "/proj/out"
    = Ok options
    /\ get "afterCopy" options
       = array [PackageApi.cleanBuild; PackageApi.compileHook;
                PackageApi.stripForgeConfig; VFun "sign"; VFun "notify"]
    /\ get "afterPrune" options = array [PackageApi.rebuild].
Proof.
  destruct (PackageApi.packageOpts Sample.engine Sample.project_config
              Cases.imported_manifest "/proj" "x64" "linux" "/proj/out")
    as [options|e] eqn:E; [|vm_compute in E; discriminate].
  exists options. split; [reflexivity|].
  destruct (packageOpts_builtin_hooks_first Sample.engine _ _ _ _ _ _ _ E)
    as (a & b & c & Ha & _ & Hc & Ga & _ & Gc).
  vm_compute in Ha. inversion Ha. subst a.
  vm_compute in Hc. inversion Hc. subst c.
  split; [exact Ga | exact Gc].
Defined.

(** Witness of X18: [asar] and [icon] are configured, [overwrite] is
    not. *)
Lemma packageOpts_passes_config_witness :
  exists options,
    PackageApi.packageOpts Sample.engine Cases.archive_config Cases.imported_manifest
      "/proj" "x64" "linux" "/proj/out"
    = Ok options
    /\ get "asar" options = VBool true
    /\ get "icon" options = VStr "assets/app.icns"
    /\ get "overwrite" options = VBool true.
Proof.
  destruct (PackageApi.packageOpts Sample.engine Cases.archive_config
              Cases.imported_manifest "/proj" "x64" "linux" "/proj/out")
    as [options|e] eqn:E; [|vm_compute in E; discriminate].
  assert (N : forall k,
            existsb (String.eqb k)
              ["afterCopy"; "afterExtract"; "afterPrune"; "dir"; "arch"; "platform";
               "out"; "electronVersion"; "quiet"] = false ->
            ~ In k ["afterCopy"; "afterExtract"; "afterPrune"; "dir"; "arch"; "platform";
                    "out"; "electronVersion"; "quiet"]).
  { intros k F I. apply Bool.not_true_iff_false in F. apply F.
    apply existsb_exists. exists k. split; [exact I | apply String.eqb_refl]. }
  exists options. split; [reflexivity|]. repeat apply conj.
  - exact (proj2 (packageOpts_passes_config Sample.engine _ _ _ _ _ _ "asar" _ E
                    (N "asar" eq_refl)) eq_refl eq_refl).
  - exact (proj2 (packageOpts_passes_config Sample.engine _ _ _ _ _ _ "icon" _ E
                    (N "icon" eq_refl)) eq_refl eq_refl).
  - exact (proj1 (packageOpts_passes_config Sample.engine _ _ _ _ _ _ "overwrite" _ E
                    (N "overwrite" eq_refl)) eq_refl).
Defined.

(** Witness of X19: an empty forge configuration. *)
Lemma packageOpts_requires_sections_witness :
  exists what,
    PackageApi.packageOpts Sample.engine (VObj []) Cases.imported_manifest
      "/proj" "x64" "linux" "/proj/out"
    = Err (TypeError what).
Proof.
  exact (proj1 (packageOpts_requires_sections Sample.engine (VObj [])
                  Cases.imported_manifest "/proj" "x64" "linux" "/proj/out") eq_refl).
Defined.

(** Witness of X22: packaging the sample project. *)
Lemma packageProject_success_witness :
  let run :=
    PackageApi.packageProject Sample.engine
      {| PackageApi.dir := Some "/proj"; PackageApi.interactive := None;
         PackageApi.arch := None; PackageApi.platform := None;
         PackageApi.outDir := None |}
      Sample.nested_project in
  fst run = Ret tt
  /\ exists packageOpts,
       trace (snd run)
       = [ESpinner "Packaging Application"; EHook "postPackage";
          EPackager packageOpts; EHook "prePackage"; EHook "generateAssets";
          ESpinner "Preparing to Package Application for arch: x64"].
Proof.
  cbv zeta. split; [reflexivity|].
  assert (E : PackageApi.packageProject Sample.engine
                {| PackageApi.dir := Some "/proj"; PackageApi.interactive := None;
                   PackageApi.arch := None; PackageApi.platform := None;
                   PackageApi.outDir := None |}
                Sample.nested_project
              = (Ret tt,
                 snd (PackageApi.packageProject Sample.engine
                        {| PackageApi.dir := Some "/proj"; PackageApi.interactive := None;
                           PackageApi.arch := None; PackageApi.platform := None;
                           PackageApi.outDir := None |}
                        Sample.nested_project)))
    by (vm_compute; reflexivity).
  destruct (packageProject_success Sample.engine _ _ _ E)
    as (root & forgeConfig & packageOpts & t1 & t2 & t3 & _ & _ & _ & _ & _ & _ & T & _).
  exists packageOpts. exact T.
Defined.

(** Witness of X23: no application anywhere. *)
Lemma package_unlocated_witness :
  PackageApi.packageProject Cases.nowhere
    {| PackageApi.dir := Some "/proj"; PackageApi.interactive := None;
       PackageApi.arch := Some "all"; PackageApi.platform := None;
       PackageApi.outDir := None |}
    Sample.nested_project
  = (Throw (Thrown (VStr "Failed to locate compilable Electron application")),
     {| tree := tree Sample.nested_project; user := user Sample.nested_project;
        asked := 0;
        trace := [ESpinner "Preparing to Package Application for arch: ia32"] |}).
Proof.
  exact (package_unlocated Cases.nowhere
           {| PackageApi.dir := Some "/proj"; PackageApi.interactive := None;
              PackageApi.arch := Some "all"; PackageApi.platform := None;
              PackageApi.outDir := None |}
           Sample.nested_project (or_introl eq_refl)).
Defined.
